(** * MzansiMed pharmacist portal: the instruction text engine

    A shallow embedding of the instruction generation and text
    synchronisation code of [pharmacist-portal/src/pages/AddMedicationPage.tsx]
    (parser, reassembly, field clearing, composition, translation
    substitution, direct text edits), together with the properties the
    specification states about it.  The second half covers the code around
    it: the vocabulary service of [backend/routes/translations.js] and the
    lookups of [utils/backendTranslationUtils.ts] the translation calls,
    the medication tabs, the form handlers and the abbreviations. *)

From Stdlib Require Import List NArith Bool Arith Lia String Ascii.
Import ListNotations.

(** ** JavaScript strings

    A JavaScript string is a sequence of UTF-16 code units.  Literals are
    written as UTF-8 source text and converted by [lit]. *)

Module JS.

Definition jsstring := list N.

Fixpoint utf8_points (bs : list N) : list N :=
  match bs with
  | [] => []
  | b0 :: r =>
      if N.ltb b0 128 then b0 :: utf8_points r
      else if N.ltb b0 224 then
        match r with
        | b1 :: r1 =>
            N.lor (N.shiftl (N.land b0 31) 6) (N.land b1 63) :: utf8_points r1
        | [] => []
        end
      else if N.ltb b0 240 then
        match r with
        | b1 :: b2 :: r2 =>
            N.lor (N.shiftl (N.land b0 15) 12)
              (N.lor (N.shiftl (N.land b1 63) 6) (N.land b2 63))
              :: utf8_points r2
        | _ => []
        end
      else
        match r with
        | b1 :: b2 :: b3 :: r3 =>
            N.lor (N.shiftl (N.land b0 7) 18)
              (N.lor (N.shiftl (N.land b1 63) 12)
                 (N.lor (N.shiftl (N.land b2 63) 6) (N.land b3 63)))
              :: utf8_points r3
        | _ => []
        end
  end.

Definition utf16_units (cp : N) : list N :=
  if N.ltb cp 65536 then [cp]
  else
    let v := N.sub cp 65536 in
    [N.add 55296 (N.shiftr v 10); N.add 56320 (N.land v 1023)].

Definition lit (s : string) : jsstring :=
  flat_map utf16_units (utf8_points (map N_of_ascii (list_ascii_of_string s))).

Definition nonEmpty (s : jsstring) : bool :=
  match s with [] => false | _ :: _ => true end.

Fixpoint eqb (a b : jsstring) : bool :=
  match a, b with
  | [], [] => true
  | x :: a', y :: b' => N.eqb x y && eqb a' b'
  | _, _ => false
  end.

(** [s.startsWith(p)] *)
Fixpoint startsWith (p s : jsstring) : bool :=
  match p, s with
  | [], _ => true
  | x :: p', y :: s' => N.eqb x y && startsWith p' s'
  | _ :: _, [] => false
  end.

(** [s.endsWith(p)] *)
Definition endsWith (p s : jsstring) : bool :=
  startsWith (rev p) (rev s).

(** [s.includes(p)] *)
Fixpoint includes (p s : jsstring) : bool :=
  startsWith p s || match s with [] => false | _ :: s' => includes p s' end.

(** [s.indexOf(c)] for a one-unit needle; [None] stands for [-1]. *)
Fixpoint indexOf (c : N) (s : jsstring) : option nat :=
  match s with
  | [] => None
  | x :: s' =>
      if N.eqb x c then Some 0
      else match indexOf c s' with Some i => Some (S i) | None => None end
  end.

(** [s.substring(0, n)] and [s.substring(n)] *)
Definition substringTo (n : nat) (s : jsstring) : jsstring := firstn n s.
Definition substringFrom (n : nat) (s : jsstring) : jsstring := skipn n s.

(** The code units [String.prototype.trim] strips: WhiteSpace and
    LineTerminator of ECMA-262. *)
Definition isWhiteSpace (c : N) : bool :=
  N.eqb c 9 || N.eqb c 10 || N.eqb c 11 || N.eqb c 12 || N.eqb c 13
  || N.eqb c 32 || N.eqb c 160 || N.eqb c 5760
  || (N.leb 8192 c && N.leb c 8202)
  || N.eqb c 8232 || N.eqb c 8233 || N.eqb c 8239 || N.eqb c 8287
  || N.eqb c 12288 || N.eqb c 65279.

Fixpoint trimStart (s : jsstring) : jsstring :=
  match s with
  | [] => []
  | c :: s' => if isWhiteSpace c then trimStart s' else s
  end.

Definition trimEnd (s : jsstring) : jsstring := rev (trimStart (rev s)).

Definition trim (s : jsstring) : jsstring := trimEnd (trimStart s).

Definition newline : N := 10.

(** [s.split('\n')] *)
Fixpoint split (s : jsstring) : list jsstring :=
  match s with
  | [] => [[]]
  | c :: s' =>
      if N.eqb c newline then [] :: split s'
      else match split s' with
           | l :: ls => (c :: l) :: ls
           | [] => [[c]]
           end
  end.

(** [a.join(sep)] *)
Fixpoint join (sep : jsstring) (ls : list jsstring) : jsstring :=
  match ls with
  | [] => []
  | [l] => l
  | l :: ls' => l ++ sep ++ join sep ls'
  end.

(** Case mapping on the Basic Latin and Latin-1 letters, the alphabets of
    the four supported languages.  [toLowerCase] is that of JavaScript on
    every string of code units below U+0100 ([latin1]); beyond them
    JavaScript maps further letters, which are left as they are here.
    [toUpperCase] is that of JavaScript on the strings of [latin1] that
    have no sharp s, micro sign or y with diaeresis. *)
Definition lowerUnit (c : N) : N :=
  if (N.leb 65 c && N.leb c 90)
     || (N.leb 192 c && N.leb c 222 && negb (N.eqb c 215))
  then N.add c 32 else c.

Definition upperUnit (c : N) : N :=
  if (N.leb 97 c && N.leb c 122)
     || (N.leb 224 c && N.leb c 254 && negb (N.eqb c 247))
  then N.sub c 32 else c.

Definition toLowerCase (s : jsstring) : jsstring := map lowerUnit s.
Definition toUpperCase (s : jsstring) : jsstring := map upperUnit s.


(** [s.charAt(0)] and [s.slice(1)] *)
Definition charAt0 (s : jsstring) : jsstring := firstn 1 s.
Definition slice1 (s : jsstring) : jsstring := skipn 1 s.

End JS.
Import JS.


(** The glyphs and words the code writes as literals. *)
Definition infoGlyph : jsstring := Eval vm_compute in lit "ℹ️".
Definition clockGlyph : jsstring := Eval vm_compute in lit "🕜".
Definition bulletGlyph : jsstring := Eval vm_compute in lit "•".
Definition nl : jsstring := [newline].
Definition space : jsstring := Eval vm_compute in lit " ".
Definition period : N := 46.
Definition comma : N := 44.

(** ** Data model *)

Module Form.
Record MedicationForm := mk {
  name : jsstring;
  dosage : jsstring;
  frequency : jsstring;
  interval : jsstring;
  timeOfDay : jsstring;
  precautions : list jsstring
}.
End Form.
Definition MedicationForm := Form.MedicationForm.

Module Display.
Record InstructionDisplay := mk {
  english : jsstring;
  translated : jsstring;
  selectedLanguage : jsstring
}.
End Display.
Definition InstructionDisplay := Display.InstructionDisplay.

Module Sec.
Record sections := mk {
  medicationName : jsstring;
  dosageLine : jsstring;
  dosageLineUserContent : jsstring;
  timeOfDay : jsstring;
  precautionsHeader : jsstring;
  precautionsList : list jsstring
}.
Definition empty : sections := mk [] [] [] [] [] [].
End Sec.

Module UC.
Record userContent := mk {
  beforeMedication : jsstring;
  afterMedication : jsstring;
  afterDosage : jsstring;
  afterTimeOfDay : jsstring;
  afterPrecautions : jsstring
}.
Definition empty : userContent := mk [] [] [] [] [].
End UC.

Module Gen.
Record lastGenerated := mk {
  english : jsstring;
  translated : jsstring
}.
Definition empty : lastGenerated := mk [] [].
End Gen.

Record InstructionStructure := mkStructure {
  sections : Sec.sections;
  userContent : UC.userContent;
  lastGenerated : Gen.lastGenerated
}.

Definition emptyStructure : InstructionStructure :=
  mkStructure Sec.empty UC.empty Gen.empty.

(** ** The parser: [parseInstructionContent] *)

Inductive cursor :=
| beforeMedication
| afterMedication
| afterDosage
| afterTimeOfDay
| precautions.

Definition cursor_eqb (a b : cursor) : bool :=
  match a, b with
  | beforeMedication, beforeMedication
  | afterMedication, afterMedication
  | afterDosage, afterDosage
  | afterTimeOfDay, afterTimeOfDay
  | precautions, precautions => true
  | _, _ => false
  end.

(** The locals of the [forEach] loop together with the structure under
    construction. *)
Record parseState := mkParse {
  p_sections : Sec.sections;
  p_userContent : UC.userContent;
  currentSection : cursor;
  medicationNameFound : bool;
  precautionsStarted : bool
}.

Definition parseInit : parseState :=
  mkParse Sec.empty UC.empty beforeMedication false false.

(** Matching of one code unit under the [i] flag, for the units of the
    header pattern: Basic Latin letters and e-diaeresis. *)
Definition canonUnit (c : N) : N :=
  if (N.leb 97 c && N.leb c 122) || N.eqb c 235 then N.sub c 32 else c.

Definition eqbIgnoreCase (p s : jsstring) : bool :=
  JS.eqb (map canonUnit p) (map canonUnit s).

Definition headerSpellings : list jsstring := Eval vm_compute in
  [lit "precautions"; lit "voorsorgmaatreëls"; lit "ukulumkela";
   lit "ukuqaphela"].

(** [/^(precautions|voorsorgmaatreëls|ukulumkela|ukuqaphela)$/i] *)
Definition matchesPrecautionsHeader (s : jsstring) : bool :=
  existsb (fun p => eqbIgnoreCase p s) headerSpellings.

(** [slot += (slot ? '\n' : '') + line] *)
Definition appendLine (slot line : jsstring) : jsstring :=
  slot ++ (if nonEmpty slot then nl else []) ++ line.

Definition addUserContent (line : jsstring) (st : parseState) : parseState :=
  let u := p_userContent st in
  let put u' :=
    mkParse (p_sections st) u' (currentSection st) (medicationNameFound st)
      (precautionsStarted st) in
  match currentSection st with
  | beforeMedication =>
      put (UC.mk (appendLine (UC.beforeMedication u) line)
             (UC.afterMedication u) (UC.afterDosage u) (UC.afterTimeOfDay u)
             (UC.afterPrecautions u))
  | afterMedication =>
      put (UC.mk (UC.beforeMedication u)
             (appendLine (UC.afterMedication u) line) (UC.afterDosage u)
             (UC.afterTimeOfDay u) (UC.afterPrecautions u))
  | afterDosage =>
      put (UC.mk (UC.beforeMedication u) (UC.afterMedication u)
             (appendLine (UC.afterDosage u) line) (UC.afterTimeOfDay u)
             (UC.afterPrecautions u))
  | afterTimeOfDay =>
      put (UC.mk (UC.beforeMedication u) (UC.afterMedication u)
             (UC.afterDosage u) (appendLine (UC.afterTimeOfDay u) line)
             (UC.afterPrecautions u))
  | precautions =>
      if precautionsStarted st then
        put (UC.mk (UC.beforeMedication u) (UC.afterMedication u)
               (UC.afterDosage u) (UC.afterTimeOfDay u)
               (appendLine (UC.afterPrecautions u) line))
      else st
  end.

(** The split of a dosage line at its first period. *)
Definition splitDosageLine (trimmedLine : jsstring) (s : Sec.sections)
  : Sec.sections :=
  match indexOf period trimmedLine with
  | Some periodIndex =>
      let afterPeriod :=
        trimStart (substringFrom (periodIndex + 1) trimmedLine) in
      Sec.mk (Sec.medicationName s)
        (substringTo (periodIndex + 1) trimmedLine)
        (if nonEmpty afterPeriod then afterPeriod
         else Sec.dosageLineUserContent s)
        (Sec.timeOfDay s) (Sec.precautionsHeader s) (Sec.precautionsList s)
  | None =>
      Sec.mk (Sec.medicationName s) trimmedLine (Sec.dosageLineUserContent s)
        (Sec.timeOfDay s) (Sec.precautionsHeader s) (Sec.precautionsList s)
  end.

(** The body of the [forEach] callback. *)
Definition parseLine (st : parseState) (line : jsstring) : parseState :=
  let trimmedLine := trim line in
  let s := p_sections st in
  if nonEmpty trimmedLine then
    if negb (medicationNameFound st)
       && cursor_eqb (currentSection st) beforeMedication
    then
      mkParse
        (Sec.mk trimmedLine (Sec.dosageLine s) (Sec.dosageLineUserContent s)
           (Sec.timeOfDay s) (Sec.precautionsHeader s) (Sec.precautionsList s))
        (p_userContent st) afterMedication true (precautionsStarted st)
    else if startsWith infoGlyph trimmedLine then
      mkParse (splitDosageLine trimmedLine s) (p_userContent st) afterDosage
        (medicationNameFound st) (precautionsStarted st)
    else if startsWith clockGlyph trimmedLine then
      mkParse
        (Sec.mk (Sec.medicationName s) (Sec.dosageLine s)
           (Sec.dosageLineUserContent s) trimmedLine (Sec.precautionsHeader s)
           (Sec.precautionsList s))
        (p_userContent st) afterTimeOfDay (medicationNameFound st)
        (precautionsStarted st)
    else if matchesPrecautionsHeader trimmedLine then
      mkParse
        (Sec.mk (Sec.medicationName s) (Sec.dosageLine s)
           (Sec.dosageLineUserContent s) (Sec.timeOfDay s) trimmedLine
           (Sec.precautionsList s))
        (p_userContent st) precautions (medicationNameFound st) true
    else if precautionsStarted st && startsWith bulletGlyph trimmedLine then
      mkParse
        (Sec.mk (Sec.medicationName s) (Sec.dosageLine s)
           (Sec.dosageLineUserContent s) (Sec.timeOfDay s)
           (Sec.precautionsHeader s) (Sec.precautionsList s ++ [trimmedLine]))
        (p_userContent st) (currentSection st) (medicationNameFound st)
        (precautionsStarted st)
    else addUserContent line st
  else addUserContent line st.

Definition parseLines (ls : list jsstring) (st : parseState) : parseState :=
  fold_left parseLine ls st.

Definition parseInstructionContent (content : jsstring)
  : InstructionStructure :=
  let st := parseLines (split content) parseInit in
  mkStructure (p_sections st) (p_userContent st) Gen.empty.

(** ** Reassembly: [reconstructInstructionContent] *)

Definition hasPrecautions (s : Sec.sections) : bool :=
  nonEmpty (Sec.precautionsHeader s)
  || negb (Nat.eqb (List.length (Sec.precautionsList s)) 0).

(** One user-content slot followed by a line break when the slot does not
    end with one and [next] holds. *)
Definition emitSlot (slot : jsstring) (next : bool) (content : jsstring)
  : jsstring :=
  if nonEmpty slot then
    content ++ slot
      ++ (if negb (endsWith nl slot) && next then nl else [])
  else content.

Definition reconstructInstructionContent (structure : InstructionStructure)
  : jsstring :=
  let s := sections structure in
  let u := userContent structure in
  let content := [] in
  let content :=
    emitSlot (UC.beforeMedication u) (nonEmpty (Sec.medicationName s))
      content in
  let content :=
    if nonEmpty (Sec.medicationName s) then
      content ++ Sec.medicationName s
        ++ (if nonEmpty (UC.afterMedication u) || nonEmpty (Sec.dosageLine s)
            then nl else [])
    else content in
  let content :=
    emitSlot (UC.afterMedication u) (nonEmpty (Sec.dosageLine s)) content in
  let content :=
    if nonEmpty (Sec.dosageLine s) then
      content ++ Sec.dosageLine s
        ++ (if nonEmpty (Sec.dosageLineUserContent s)
            then space ++ Sec.dosageLineUserContent s else [])
        ++ (if nonEmpty (UC.afterDosage u) || nonEmpty (Sec.timeOfDay s)
            then nl else [])
    else content in
  let content :=
    emitSlot (UC.afterDosage u) (nonEmpty (Sec.timeOfDay s)) content in
  let content :=
    if nonEmpty (Sec.timeOfDay s) then
      content ++ Sec.timeOfDay s
        ++ (if nonEmpty (UC.afterTimeOfDay u) || hasPrecautions s
            then nl else [])
    else content in
  let content :=
    emitSlot (UC.afterTimeOfDay u) (hasPrecautions s) content in
  let content :=
    if hasPrecautions s then
      let content :=
        if nonEmpty content && negb (endsWith (nl ++ nl) content)
        then content ++ nl else content in
      let content :=
        if nonEmpty (Sec.precautionsHeader s)
        then content ++ Sec.precautionsHeader s ++ nl else content in
      fold_left (fun content precaution => content ++ precaution ++ nl)
        (Sec.precautionsList s) content
    else content in
  if nonEmpty (UC.afterPrecautions u)
  then content ++ UC.afterPrecautions u else content.

(** ** Component state

    The React state the handlers read and write.  A handler reads the
    values its render closure captured ([cl]) and posts updates to the
    pending state ([st]); [setX(value)] replaces, [setX(prev => ...)]
    transforms the pending value. *)

Record component := mkComponent {
  instructionDisplay : InstructionDisplay;
  instructionStructure : InstructionStructure;
  translationsLoaded : bool;
  medicationsLoaded : bool;
  patientLanguage : jsstring
}.

Definition setInstructionDisplay (d : InstructionDisplay) (st : component)
  : component :=
  mkComponent d (instructionStructure st) (translationsLoaded st)
    (medicationsLoaded st) (patientLanguage st).

Definition setInstructionStructure (x : InstructionStructure) (st : component)
  : component :=
  mkComponent (instructionDisplay st) x (translationsLoaded st)
    (medicationsLoaded st) (patientLanguage st).

Definition placeholder : jsstring :=
  Eval vm_compute in lit "This will have the translated instructions".
Definition loadingText : jsstring := Eval vm_compute in lit "Loading...".
Definition translationErrorText : jsstring :=
  Eval vm_compute in lit "Translation error - showing English version".

(** [a || b] on strings *)
Definition orElse (a b : jsstring) : jsstring := if nonEmpty a then a else b.

(** ** Direct text edits: [handleInstructionChange] *)

Inductive pane := englishPane | translatedPane.

Definition syncToTranslatedInstructions (englishContent : jsstring)
  (cl st : component) : component :=
  let englishStructure := parseInstructionContent englishContent in
  let currentTranslatedStructure :=
    parseInstructionContent (Display.translated (instructionDisplay cl)) in
  let t := sections currentTranslatedStructure in
  let e := userContent englishStructure in
  let translatedStructure :=
    mkStructure
      (Sec.mk (Sec.medicationName t) (Sec.dosageLine t)
         (Sec.dosageLineUserContent (sections englishStructure))
         (Sec.timeOfDay t) (Sec.precautionsHeader t) (Sec.precautionsList t))
      (UC.mk (UC.beforeMedication e) (UC.afterMedication e) (UC.afterDosage e)
         (UC.afterTimeOfDay e) (UC.afterPrecautions e))
      (lastGenerated currentTranslatedStructure) in
  let newTranslatedContent :=
    reconstructInstructionContent translatedStructure in
  let prev := instructionDisplay st in
  setInstructionDisplay
    (Display.mk (Display.english prev) (orElse newTranslatedContent placeholder)
       (Display.selectedLanguage prev))
    st.

(** The merge of the retained sections with the freshly parsed ones. *)
Definition mergeSections (prev new : Sec.sections) : Sec.sections :=
  Sec.mk
    (orElse (Sec.medicationName new) (Sec.medicationName prev))
    (orElse (Sec.dosageLine new) (Sec.dosageLine prev))
    (Sec.dosageLineUserContent prev)
    (orElse (Sec.timeOfDay new) (Sec.timeOfDay prev))
    (orElse (Sec.precautionsHeader new) (Sec.precautionsHeader prev))
    (if Nat.ltb 0 (List.length (Sec.precautionsList new))
     then Sec.precautionsList new else Sec.precautionsList prev).

Definition handleInstructionChange (type : pane) (newContent : jsstring)
  (cl st : component) : component :=
  match type with
  | englishPane =>
      let newStructure := parseInstructionContent newContent in
      let prevStructure := instructionStructure st in
      let st :=
        setInstructionStructure
          (mkStructure
             (mergeSections (sections prevStructure) (sections newStructure))
             (userContent newStructure) (lastGenerated prevStructure))
          st in
      let prev := instructionDisplay st in
      let st :=
        setInstructionDisplay
          (Display.mk newContent (Display.translated prev)
             (Display.selectedLanguage prev))
          st in
      syncToTranslatedInstructions newContent cl st
  | translatedPane =>
      let prev := instructionDisplay st in
      setInstructionDisplay
        (Display.mk (Display.english prev) newContent
           (Display.selectedLanguage prev))
        st
  end.

(** ** Field clearing: [handleFieldClearing] *)

Inductive field :=
| f_name | f_dosage | f_frequency | f_interval | f_timeOfDay | f_precautions.

(** The [switch] of [handleFieldClearing]: the structure after the
    assignments, and [needsUpdate]. *)
Definition clearSections (fld : field) (currentStructure : InstructionStructure)
  : InstructionStructure * bool :=
  let s := sections currentStructure in
  let put s' :=
    mkStructure s' (userContent currentStructure)
      (lastGenerated currentStructure) in
  match fld with
  | f_name =>
      if nonEmpty (Sec.medicationName s) then
        (put (Sec.mk [] (Sec.dosageLine s) (Sec.dosageLineUserContent s)
                (Sec.timeOfDay s) (Sec.precautionsHeader s)
                (Sec.precautionsList s)), true)
      else (currentStructure, false)
  | f_dosage | f_frequency | f_interval =>
      if nonEmpty (Sec.dosageLine s) then
        (put (Sec.mk (Sec.medicationName s) [] (Sec.dosageLineUserContent s)
                (Sec.timeOfDay s) (Sec.precautionsHeader s)
                (Sec.precautionsList s)), true)
      else (currentStructure, false)
  | f_timeOfDay =>
      if nonEmpty (Sec.timeOfDay s) then
        (put (Sec.mk (Sec.medicationName s) (Sec.dosageLine s)
                (Sec.dosageLineUserContent s) [] (Sec.precautionsHeader s)
                (Sec.precautionsList s)), true)
      else (currentStructure, false)
  | f_precautions =>
      if hasPrecautions s then
        (put (Sec.mk (Sec.medicationName s) (Sec.dosageLine s)
                (Sec.dosageLineUserContent s) (Sec.timeOfDay s) [] []), true)
      else (currentStructure, false)
  end.

Definition handleFieldClearing (fld : field) (cl st : component) : component :=
  let currentStructure :=
    parseInstructionContent (Display.english (instructionDisplay cl)) in
  let '(currentStructure, needsUpdate) := clearSections fld currentStructure in
  if needsUpdate then
    let newInstructionContent :=
      reconstructInstructionContent currentStructure in
    let st := setInstructionStructure currentStructure st in
    let prev := instructionDisplay st in
    setInstructionDisplay
      (Display.mk newInstructionContent
         (if nonEmpty newInstructionContent then Display.translated prev
          else placeholder)
         (Display.selectedLanguage prev))
      st
  else st.

(** ** String replacement

    [String.prototype.replace] with a string pattern replaces the first
    occurrence; with a [g]-flagged regular expression it replaces every
    match, scanning left to right.  In both, the replacement text is a
    template in which [$$], [$&], [$`] and [$'] are expanded (the patterns
    here have no capture groups, so [$1] and the like stay as written). *)

Definition dollar : N := 36.

Fixpoint expandReplacement (matched before after rep : jsstring) : jsstring :=
  match rep with
  | [] => []
  | c :: r =>
      if N.eqb c dollar then
        match r with
        | d :: r' =>
            if N.eqb d dollar then dollar :: expandReplacement matched before after r'
            else if N.eqb d 38 then matched ++ expandReplacement matched before after r'
            else if N.eqb d 96 then before ++ expandReplacement matched before after r'
            else if N.eqb d 39 then after ++ expandReplacement matched before after r'
            else dollar :: expandReplacement matched before after r
        | [] => [dollar]
        end
      else c :: expandReplacement matched before after r
  end.

(** [s.indexOf(p)] for a string needle *)
Fixpoint indexOfString (p s : jsstring) : option nat :=
  if startsWith p s then Some 0
  else match s with
       | [] => None
       | _ :: s' =>
           match indexOfString p s' with Some i => Some (S i) | None => None end
       end.

(** [s.replace(p, rep)] with a string [p] *)
Definition replaceFirst (p rep s : jsstring) : jsstring :=
  match indexOfString p s with
  | None => s
  | Some i =>
      let before := firstn i s in
      let after := skipn (i + List.length p) s in
      before ++ expandReplacement p before after rep ++ after
  end.

(** A regular expression of the kind the code uses: a fixed run of code
    units, possibly matched case-insensitively, possibly anchored by [\b]
    on either side. *)
Record regex := mkRegex {
  re_units : jsstring;
  re_ignoreCase : bool;
  re_boundaryBefore : bool;
  re_boundaryAfter : bool
}.

(** [\w] *)
Definition isWordUnit (c : N) : bool :=
  (N.leb 97 c && N.leb c 122) || (N.leb 65 c && N.leb c 90)
  || (N.leb 48 c && N.leb c 57) || N.eqb c 95.

Definition isWordAt (o : option N) : bool :=
  match o with Some c => isWordUnit c | None => false end.

Fixpoint startsWithIgnoreCase (p s : jsstring) : bool :=
  match p, s with
  | [], _ => true
  | x :: p', y :: s' =>
      N.eqb (canonUnit x) (canonUnit y) && startsWithIgnoreCase p' s'
  | _ :: _, [] => false
  end.

(** Does [re] match at the start of [s], the unit before being [prev]?
    [\b] holds where exactly one side is a word unit. *)
Definition matchesAt (re : regex) (prev : option N) (s : jsstring) : bool :=
  let p := re_units re in
  (if re_ignoreCase re then startsWithIgnoreCase p s else startsWith p s)
  && (if re_boundaryBefore re
      then negb (Bool.eqb (isWordAt prev) (isWordAt (hd_error s)))
      else true)
  && (if re_boundaryAfter re
      then negb (Bool.eqb (isWordAt (hd_error (rev p)))
                   (isWordAt (hd_error (skipn (List.length p) s))))
      else true).

(** The scan of [s.replace(re, rep)] for a [g]-flagged [re]: [pos] is the
    index of [s] in [orig], [skip] the number of units of the current
    match still to pass over. *)
Fixpoint replaceScan (re : regex) (rep orig : jsstring) (pos : nat)
  (prev : option N) (skip : nat) (s : jsstring) : jsstring :=
  match s with
  | [] => []
  | c :: s' =>
      match skip with
      | S k => replaceScan re rep orig (S pos) (Some c) k s'
      | O =>
          if matchesAt re prev s then
            let n := List.length (re_units re) in
            expandReplacement (firstn n s) (firstn pos orig)
              (skipn (pos + n) orig) rep
              ++ replaceScan re rep orig (S pos) (Some c) (n - 1) s'
          else c :: replaceScan re rep orig (S pos) (Some c) 0 s'
      end
  end.

Definition replaceAll (re : regex) (rep s : jsstring) : jsstring :=
  replaceScan re rep s 0 None 0 s.

(** ** Composition: [formatTimeOfDay] and [generateInstruction] *)

Definition timeEmojis : list (jsstring * jsstring) := Eval vm_compute in
  [(lit "morning", lit "🌅"); (lit "afternoon", lit "☀️");
   (lit "evening", lit "🌆"); (lit "night", lit "🌃")].

Definition commaSpace : jsstring := Eval vm_compute in lit ", ".

Definition foundTimes (timeOfDayText : jsstring) : list jsstring :=
  let lowerText := toLowerCase timeOfDayText in
  flat_map
    (fun te => if includes (fst te) lowerText
               then [fst te ++ space ++ snd te] else [])
    timeEmojis.

Definition formatTimeOfDay (timeOfDayText : jsstring) : jsstring :=
  match foundTimes timeOfDayText with
  | [] => toLowerCase timeOfDayText
  | found => join commaSpace found
  end.

(** [s.split(',')[0]] *)
Fixpoint beforeComma (s : jsstring) : jsstring :=
  match s with
  | [] => []
  | c :: s' => if N.eqb c comma then [] else c :: beforeComma s'
  end.

Definition takePrefix : jsstring := Eval vm_compute in lit "ℹ️ Take ".
Definition precautionsWord : jsstring := Eval vm_compute in lit "Precautions".

Definition newDosageLine (formData : MedicationForm) : jsstring :=
  let intervalText :=
    if nonEmpty (Form.interval formData)
    then space ++ toLowerCase (Form.interval formData) else [] in
  takePrefix ++ Form.dosage formData ++ space
    ++ toLowerCase (Form.frequency formData) ++ intervalText ++ [period].

Definition newTimeOfDay (formData : MedicationForm) : jsstring :=
  if nonEmpty (Form.timeOfDay formData)
  then clockGlyph ++ space ++ formatTimeOfDay (Form.timeOfDay formData)
  else [].

Definition newPrecautionsHeader (formData : MedicationForm) : jsstring :=
  if Nat.ltb 0 (List.length (Form.precautions formData))
  then precautionsWord else [].

Definition newPrecautionsList (formData : MedicationForm) : list jsstring :=
  map (fun precaution => bulletGlyph ++ space ++ precaution)
    (Form.precautions formData).

(** The structure [generateInstruction] builds from the form and the
    parse of the displayed text, before [lastGenerated] is filled in. *)
Definition updatedStructure (formData : MedicationForm)
  (currentStructure : InstructionStructure) : InstructionStructure :=
  let cleanMedicationName := beforeComma (Form.name formData) in
  mkStructure
    (Sec.mk cleanMedicationName (newDosageLine formData)
       (Sec.dosageLineUserContent (sections currentStructure))
       (newTimeOfDay formData) (newPrecautionsHeader formData)
       (newPrecautionsList formData))
    (userContent currentStructure)
    Gen.empty.

(** ** Translation substitution: [generateTranslation]

    The vocabulary lookups of [backendTranslationUtils] are calls to the
    backend; they are parameters here.  [None] stands for a lookup whose
    awaited result makes the surrounding [try] block raise. *)

Record lookups := mkLookups {
  translateTake : jsstring -> option jsstring;
  translatePrecautionsHeader : jsstring -> option jsstring;
  translateDosage : jsstring -> jsstring -> option jsstring;
  translateFrequency : jsstring -> jsstring -> option jsstring;
  translateInterval : jsstring -> jsstring -> option jsstring;
  translateTimeOfDay : jsstring -> jsstring -> option jsstring;
  translatePrecautions : list jsstring -> jsstring -> option (list jsstring)
}.

Definition bind {A B} (o : option A) (k : A -> option B) : option B :=
  match o with Some a => k a | None => None end.

Notation "x <- o ;; k" := (bind o (fun x => k))
  (at level 61, o at next level, right associativity).

(** [w.charAt(0).toUpperCase() + w.slice(1)] *)
Definition capitalize (w : jsstring) : jsstring :=
  toUpperCase (charAt0 w) ++ slice1 w.

Definition reTakeUpper : regex := Eval vm_compute in
  mkRegex (lit "ℹ️ Take") false false true.
Definition reTakeLower : regex := Eval vm_compute in
  mkRegex (lit "ℹ️ take") false false true.
Definition rePrecautions : regex := Eval vm_compute in
  mkRegex (lit "Precautions") false true true.
Definition reTimeWord (timeWord : jsstring) : regex :=
  mkRegex timeWord true false false.

Definition timeWords : list jsstring := Eval vm_compute in
  [lit "morning"; lit "afternoon"; lit "evening"; lit "night"; lit "noon"].

Definition substituteTake (lk : lookups) (language translatedText : jsstring)
  : option jsstring :=
  translatedTakeWord <- translateTake lk language ;;
  let translatedText :=
    replaceAll reTakeUpper (infoGlyph ++ space ++ capitalize translatedTakeWord)
      translatedText in
  Some (replaceAll reTakeLower (infoGlyph ++ space ++ translatedTakeWord)
          translatedText).

Definition substitutePrecautionsWord (lk : lookups)
  (language translatedText : jsstring) : option jsstring :=
  translatedPrecautionsWord <- translatePrecautionsHeader lk language ;;
  Some (replaceAll rePrecautions translatedPrecautionsWord translatedText).

Definition substituteDosage (lk : lookups) (formData : MedicationForm)
  (language translatedText : jsstring) : option jsstring :=
  if nonEmpty (Form.dosage formData) then
    translatedDosage <- translateDosage lk (Form.dosage formData) language ;;
    Some (replaceFirst (Form.dosage formData) translatedDosage translatedText)
  else Some translatedText.

Definition substituteFrequency (lk : lookups) (formData : MedicationForm)
  (language translatedText : jsstring) : option jsstring :=
  if nonEmpty (Form.frequency formData) then
    translatedFrequency <-
      translateFrequency lk (Form.frequency formData) language ;;
    Some (replaceFirst (toLowerCase (Form.frequency formData))
            (toLowerCase translatedFrequency) translatedText)
  else Some translatedText.

Definition substituteInterval (lk : lookups) (formData : MedicationForm)
  (language translatedText : jsstring) : option jsstring :=
  if nonEmpty (Form.interval formData) then
    translatedInterval <-
      translateInterval lk (Form.interval formData) language ;;
    Some (replaceFirst (toLowerCase (Form.interval formData))
            (toLowerCase translatedInterval) translatedText)
  else Some translatedText.

Fixpoint substituteTimeWords (lk : lookups) (timeOfDay language : jsstring)
  (words : list jsstring) (translatedText : jsstring) : option jsstring :=
  match words with
  | [] => Some translatedText
  | timeWord :: rest =>
      if includes timeWord (toLowerCase timeOfDay) then
        translatedTime <- translateTimeOfDay lk (capitalize timeWord) language ;;
        substituteTimeWords lk timeOfDay language rest
          (replaceAll (reTimeWord timeWord) (toLowerCase translatedTime)
             translatedText)
      else substituteTimeWords lk timeOfDay language rest translatedText
  end.

Definition substituteTimeOfDay (lk : lookups) (formData : MedicationForm)
  (language translatedText : jsstring) : option jsstring :=
  if nonEmpty (Form.timeOfDay formData) then
    substituteTimeWords lk (Form.timeOfDay formData) language timeWords
      translatedText
  else Some translatedText.

(** The [forEach] over the precautions, [index] counting from [i]. *)
Fixpoint substitutePrecautionsFrom (translatedPrecautions : list jsstring)
  (i : nat) (ps : list jsstring) (translatedText : jsstring) : jsstring :=
  match ps with
  | [] => translatedText
  | precaution :: rest =>
      substitutePrecautionsFrom translatedPrecautions (S i) rest
        (match nth_error translatedPrecautions i with
         | Some t =>
             if nonEmpty t then replaceFirst precaution t translatedText
             else translatedText
         | None => translatedText
         end)
  end.

Definition substitutePrecautions (lk : lookups) (formData : MedicationForm)
  (language translatedText : jsstring) : option jsstring :=
  if Nat.ltb 0 (List.length (Form.precautions formData)) then
    translatedPrecautions <-
      translatePrecautions lk (Form.precautions formData) language ;;
    Some (substitutePrecautionsFrom translatedPrecautions 0
            (Form.precautions formData) translatedText)
  else Some translatedText.

(** The body of the [try] block up to the final [translatedText]. *)
Definition translateText (lk : lookups) (text language : jsstring)
  (formData : MedicationForm) : option jsstring :=
  translatedText <- substituteTake lk language text ;;
  translatedText <- substitutePrecautionsWord lk language translatedText ;;
  translatedText <- substituteDosage lk formData language translatedText ;;
  translatedText <- substituteFrequency lk formData language translatedText ;;
  translatedText <- substituteInterval lk formData language translatedText ;;
  translatedText <- substituteTimeOfDay lk formData language translatedText ;;
  substitutePrecautions lk formData language translatedText.

Definition generateTranslation (lk : lookups) (text language : jsstring)
  (formData : MedicationForm) (englishInstructions : option InstructionDisplay)
  (cl st : component) : component :=
  if negb (nonEmpty text) || negb (nonEmpty language) then
    let d := instructionDisplay cl in
    setInstructionDisplay
      (Display.mk (Display.english d) placeholder (Display.selectedLanguage d))
      st
  else if negb (translationsLoaded cl) || negb (medicationsLoaded cl) then
    let d := instructionDisplay cl in
    setInstructionDisplay
      (Display.mk (Display.english d) loadingText (Display.selectedLanguage d))
      st
  else
    let d :=
      match englishInstructions with
      | Some e => e
      | None => instructionDisplay cl
      end in
    match translateText lk text language formData with
    | Some translatedText =>
        let st :=
          setInstructionDisplay
            (Display.mk (Display.english d) translatedText language) st in
        let prevStructure := instructionStructure st in
        setInstructionStructure
          (mkStructure (sections prevStructure) (userContent prevStructure)
             (Gen.mk (Gen.english (lastGenerated prevStructure))
                translatedText))
          st
    | None =>
        setInstructionDisplay
          (Display.mk (Display.english d) translationErrorText language) st
    end.

(** ** [generateInstruction] *)

Definition generateInstruction (lk : lookups) (formData : MedicationForm)
  (cl st : component) : component :=
  if negb (nonEmpty (Form.name formData))
     && negb (nonEmpty (Form.dosage formData))
     && negb (nonEmpty (Form.frequency formData))
  then
    let d := instructionDisplay cl in
    let emptyInstructions :=
      Display.mk [] placeholder (Display.selectedLanguage d) in
    let st := setInstructionDisplay emptyInstructions st in
    setInstructionStructure emptyStructure st
  else if negb (nonEmpty (Form.name formData))
          || negb (nonEmpty (Form.dosage formData))
          || negb (nonEmpty (Form.frequency formData))
  then st
  else
    let currentStructure :=
      parseInstructionContent (Display.english (instructionDisplay cl)) in
    let updated := updatedStructure formData currentStructure in
    let newInstructionContent := reconstructInstructionContent updated in
    let updated :=
      mkStructure (sections updated) (userContent updated)
        (Gen.mk newInstructionContent []) in
    let st := setInstructionStructure updated st in
    let d := instructionDisplay cl in
    let newInstructions :=
      Display.mk newInstructionContent (Display.translated d)
        (Display.selectedLanguage d) in
    let st := setInstructionDisplay newInstructions st in
    if nonEmpty (patientLanguage cl) && nonEmpty (Form.dosage formData) then
      generateTranslation lk newInstructionContent (patientLanguage cl)
        formData (Some newInstructions) cl st
    else st.


(** ** Predicates of the statements and sample data *)

(** Does the section (or sections) a field maps to hold content? *)
Definition mappedContent (fld : field) (s : Sec.sections) : bool :=
  match fld with
  | f_name => nonEmpty (Sec.medicationName s)
  | f_dosage | f_frequency | f_interval => nonEmpty (Sec.dosageLine s)
  | f_timeOfDay => nonEmpty (Sec.timeOfDay s)
  | f_precautions => hasPrecautions s
  end.

Definition sampleLookups : lookups := Eval vm_compute in
  mkLookups
    (fun _ => Some (lit "thatha"))
    (fun _ => Some (lit "Ukuqaphela"))
    (fun _ _ => Some (lit "iphilisi"))
    (fun _ _ => Some (lit "Kathathu ngosuku"))
    (fun _ _ => Some (lit "Njalo ngamahora angu-8"))
    (fun _ _ => Some (lit "Ekuseni"))
    (fun ps _ => Some (map (fun _ => lit "Thatha nokudla") ps)).

Definition sampleText : jsstring := Eval vm_compute in lit
"Aspirin
ℹ️ Take 1 tablet daily. with water
after breakfast
🕜 morning 🌅
keep dry

Precautions
• Take with food
see doctor".

Definition sampleComponent : component := Eval vm_compute in
  mkComponent (Display.mk sampleText placeholder (lit "isiZulu"))
    (parseInstructionContent sampleText) true true (lit "isiZulu").


Definition sampleForm : MedicationForm := Eval vm_compute in
  Form.mk (lit "Paracetamol, oral") (lit "500mg tablet")
    (lit "Three times daily") (lit "Every 8 hours")
    (lit "morning, afternoon, evening") [lit "Take with food"].

Definition emptyComponent : component := Eval vm_compute in
  mkComponent (Display.mk [] placeholder (lit "isiZulu")) emptyStructure
    true true (lit "isiZulu").

(** Inline user text is only ever recorded together with a dosage line. *)
Definition inlineAnchored (s : Sec.sections) : Prop :=
  nonEmpty (Sec.dosageLineUserContent s) = true ->
  nonEmpty (Sec.dosageLine s) = true.


(** The text [reconstructInstructionContent] has assembled when it
    reaches the precautions block. *)
Definition headContent (structure : InstructionStructure) : jsstring :=
  let s := sections structure in
  let u := userContent structure in
  emitSlot (UC.beforeMedication u) (nonEmpty (Sec.medicationName s)) []
    ++ Sec.medicationName s
    ++ (if nonEmpty (Sec.medicationName s)
        then if nonEmpty (UC.afterMedication u) || nonEmpty (Sec.dosageLine s)
             then nl else []
        else [])
    ++ emitSlot (UC.afterMedication u) (nonEmpty (Sec.dosageLine s)) []
    ++ Sec.dosageLine s
    ++ (if nonEmpty (Sec.dosageLine s)
        then (if nonEmpty (Sec.dosageLineUserContent s)
              then space ++ Sec.dosageLineUserContent s else [])
             ++ (if nonEmpty (UC.afterDosage u) || nonEmpty (Sec.timeOfDay s)
                 then nl else [])
        else [])
    ++ emitSlot (UC.afterDosage u) (nonEmpty (Sec.timeOfDay s)) []
    ++ Sec.timeOfDay s
    ++ (if nonEmpty (Sec.timeOfDay s)
        then if nonEmpty (UC.afterTimeOfDay u) || hasPrecautions s
             then nl else []
        else [])
    ++ emitSlot (UC.afterTimeOfDay u) (hasPrecautions s) [].

(** The line break [reconstructInstructionContent] puts before the
    precautions block. *)
Definition blankBeforePrecautions (structure : InstructionStructure)
  : jsstring :=
  if hasPrecautions (sections structure)
     && nonEmpty (headContent structure)
     && negb (endsWith (nl ++ nl) (headContent structure))
  then nl else [].

(** [p] has no occurrence in [a ++ p ++ _] that starts inside [a]. *)
Definition noEarlierOccurrence (p a : jsstring) : bool :=
  negb (includes p (a ++ removelast p)).

(** The code unit before index [i] of [s]. *)
Definition prevAt (s : jsstring) (i : nat) : option N :=
  match i with O => None | S j => nth_error s j end.

(** The indices of [s] at which [re] matches. *)
Definition matchAtPos (re : regex) (s : jsstring) (i : nat) : bool :=
  matchesAt re (prevAt s i) (skipn i s).

Definition matchPositions (re : regex) (s : jsstring) : list nat :=
  filter (matchAtPos re s) (seq 0 (List.length s)).

(** The global scan of [orig] resumed at index [pos]. *)
Definition scanAt (re : regex) (rep orig : jsstring) (pos : nat) : jsstring :=
  replaceScan re rep orig pos (prevAt orig pos) 0 (skipn pos orig).

(** [re] matches in [a ++ w1 ++ b ++ w2 ++ c] at [w1] and at [w2], and
    nowhere else. *)
Definition twoMatches (re : regex) (a w1 b w2 c : jsstring) : Prop :=
  List.length w1 = List.length (re_units re)
  /\ List.length w2 = List.length (re_units re)
  /\ matchPositions re (a ++ w1 ++ b ++ w2 ++ c)
     = [List.length a;
        List.length a + List.length (re_units re) + List.length b].

(** The text in which both matches are rewritten. *)
Definition bothReplaced (rep a w1 b w2 c : jsstring) : jsstring :=
  a ++ expandReplacement w1 a (b ++ w2 ++ c) rep
    ++ b ++ expandReplacement w2 (a ++ w1 ++ b) c rep
    ++ c.

Definition dosageTwice : jsstring * jsstring := Eval vm_compute in
  (lit "Paracetamol
ℹ️ Take ", lit " three times daily every 8 hours.
One 500mg tablet at a time").

Definition isiZulu : jsstring := Eval vm_compute in lit "isiZulu".

(** ** Lines and slots *)

Definition noNewline (l : jsstring) : bool :=
  forallb (fun c => negb (N.eqb c newline)) l.

(** [content.split('\n').forEach(...)] resumed in state [st]. *)
Definition parseText (content : jsstring) (st : parseState) : parseState :=
  parseLines (split content) st.

(** A line that no rule of the parser recognises once the name line has
    been seen: blank, or without marker glyph, header spelling or bullet. *)
Definition plainLine (line : jsstring) : bool :=
  let t := trim line in
  negb (startsWith infoGlyph t) && negb (startsWith clockGlyph t)
  && negb (matchesPrecautionsHeader t) && negb (startsWith bulletGlyph t).

Definition blankLine (line : jsstring) : bool := negb (nonEmpty (trim line)).

(** The user-content slot the cursor points at. *)
Definition slotOf (c : cursor) (u : UC.userContent) : jsstring :=
  match c with
  | beforeMedication => UC.beforeMedication u
  | afterMedication => UC.afterMedication u
  | afterDosage => UC.afterDosage u
  | afterTimeOfDay => UC.afterTimeOfDay u
  | precautions => UC.afterPrecautions u
  end.

Definition setSlot (c : cursor) (v : jsstring) (u : UC.userContent)
  : UC.userContent :=
  match c with
  | beforeMedication =>
      UC.mk v (UC.afterMedication u) (UC.afterDosage u) (UC.afterTimeOfDay u)
        (UC.afterPrecautions u)
  | afterMedication =>
      UC.mk (UC.beforeMedication u) v (UC.afterDosage u) (UC.afterTimeOfDay u)
        (UC.afterPrecautions u)
  | afterDosage =>
      UC.mk (UC.beforeMedication u) (UC.afterMedication u) v
        (UC.afterTimeOfDay u) (UC.afterPrecautions u)
  | afterTimeOfDay =>
      UC.mk (UC.beforeMedication u) (UC.afterMedication u) (UC.afterDosage u)
        v (UC.afterPrecautions u)
  | precautions =>
      UC.mk (UC.beforeMedication u) (UC.afterMedication u) (UC.afterDosage u)
        (UC.afterTimeOfDay u) v
  end.

(** [slot] holds [U] as one of its lines. *)
Definition lineStart (a : jsstring) : Prop := a = [] \/ exists a', a = a' ++ nl.
Definition lineRest (b : jsstring) : Prop := b = [] \/ exists b', b = nl ++ b'.
Definition holdsLine (U slot : jsstring) : Prop :=
  exists a b, slot = a ++ U ++ b /\ lineStart a /\ lineRest b.

(** Until the name line is found the cursor is before it. *)
Definition cursorInv (st : parseState) : Prop :=
  medicationNameFound st = false -> currentSection st = beforeMedication.

(** ** Well-formed structures

    The shape a structure must have for its reassembled text to be read
    back section by section: every generated section is one trimmed line
    of its kind, every user-content slot consists of lines no parser rule
    recognises and has no blank first or last line, and a slot or section
    is only filled when the section it follows is. *)

Definition trimmed (s : jsstring) : bool :=
  match s with
  | [] => true
  | c :: _ => negb (isWhiteSpace c) && negb (isWhiteSpace (last s 0%N))
  end.

Definition sectionLine (l : jsstring) : bool :=
  nonEmpty l && trimmed l && noNewline l.

(** The dosage line ends at its only period, if it has one; inline user
    text needs that period. *)
Definition wfDosage (dl inl : jsstring) : bool :=
  sectionLine dl && startsWith infoGlyph dl
  && match indexOf period dl with
     | None => negb (nonEmpty inl)
     | Some i =>
         Nat.eqb (S i) (List.length dl)
         && (negb (nonEmpty inl) || (trimmed inl && noNewline inl))
     end.

Definition wfTime (tod : jsstring) : bool :=
  sectionLine tod && startsWith clockGlyph tod.

Definition wfBullet (b : jsstring) : bool :=
  sectionLine b && startsWith bulletGlyph b.

Definition wfSlotOf (ok : jsstring -> bool) (u : jsstring) : bool :=
  negb (nonEmpty u)
  || (negb (startsWith nl u) && negb (endsWith nl u) && forallb ok (split u)).

Definition wfSlot : jsstring -> bool := wfSlotOf plainLine.
Definition wfBlankSlot : jsstring -> bool := wfSlotOf blankLine.

Definition wfLastSlot (u : jsstring) : bool :=
  negb (startsWith nl u) && forallb plainLine (split u).

Definition isEmpty (s : jsstring) : bool := negb (nonEmpty s).

Definition wellFormed (x : InstructionStructure) : bool :=
  let s := sections x in
  let u := userContent x in
  wfBlankSlot (UC.beforeMedication u)
  && if nonEmpty (Sec.medicationName s) then
       sectionLine (Sec.medicationName s)
       && wfSlot (UC.afterMedication u)
       && (if nonEmpty (Sec.dosageLine s) then
             wfDosage (Sec.dosageLine s) (Sec.dosageLineUserContent s)
             && wfSlot (UC.afterDosage u)
             && (if nonEmpty (Sec.timeOfDay s) then
                   wfTime (Sec.timeOfDay s) && wfSlot (UC.afterTimeOfDay u)
                 else isEmpty (UC.afterTimeOfDay u))
           else
             isEmpty (Sec.dosageLineUserContent s)
             && isEmpty (UC.afterDosage u)
             && isEmpty (Sec.timeOfDay s)
             && isEmpty (UC.afterTimeOfDay u))
       && (if nonEmpty (Sec.precautionsHeader s) then
             matchesPrecautionsHeader (Sec.precautionsHeader s)
             && forallb wfBullet (Sec.precautionsList s)
             && wfLastSlot (UC.afterPrecautions u)
           else
             Nat.eqb (List.length (Sec.precautionsList s)) 0
             && isEmpty (UC.afterPrecautions u))
     else
       isEmpty (UC.afterMedication u)
       && isEmpty (Sec.dosageLine s)
       && isEmpty (Sec.dosageLineUserContent s)
       && isEmpty (UC.afterDosage u)
       && isEmpty (Sec.timeOfDay s)
       && isEmpty (UC.afterTimeOfDay u)
       && isEmpty (Sec.precautionsHeader s)
       && Nat.eqb (List.length (Sec.precautionsList s)) 0
       && isEmpty (UC.afterPrecautions u).

(** The one change a round trip makes to the slots: the blank line that
    reassembly puts before the precautions block is read back as the end
    of the slot after the time line. *)
Definition joinNormalised (x : InstructionStructure) : UC.userContent :=
  let u := userContent x in
  UC.mk (UC.beforeMedication u) (UC.afterMedication u) (UC.afterDosage u)
    (if nonEmpty (UC.afterTimeOfDay u)
        && nonEmpty (Sec.precautionsHeader (sections x))
     then UC.afterTimeOfDay u ++ nl else UC.afterTimeOfDay u)
    (UC.afterPrecautions u).

(** The dosage line with its inline user text, as reassembly writes it. *)
Definition dosageText (dl inl : jsstring) : jsstring :=
  dl ++ (if nonEmpty inl then space ++ inl else []).

(** The code units a header spelling can consist of. *)
Definition headerUnit (c : N) : bool :=
  (N.leb 65 (canonUnit c) && N.leb (canonUnit c) 90) || N.eqb (canonUnit c) 203.

(** A text never ends in a blank line, whatever precedes it. *)
Definition endsSafely (y : jsstring) : Prop :=
  forall p, endsWith (nl ++ nl) (p ++ y) = false.

Definition roundTripSample : InstructionStructure := Eval vm_compute in
  mkStructure
    (Sec.mk (lit "Aspirin") (lit "ℹ️ Take 1 tablet daily.") (lit "with water")
       (lit "🕜 morning 🌅") (lit "Precautions") [lit "• Take with food"])
    (UC.mk (lit " ") (lit "one
two") (lit "three") (lit "four") (lit "five
"))
    Gen.empty.

(** A name that is empty up to its first comma, a text generated from it
    with a user line put after the dosage line, and the form with the
    frequency changed. *)
Definition commaForm : MedicationForm := Eval vm_compute in
  Form.mk (lit ", oral") (lit "5 ml") (lit "Daily") [] (lit "morning") [].

Definition commaFormWeekly : MedicationForm := Eval vm_compute in
  Form.mk (lit ", oral") (lit "5 ml") (lit "Weekly") [] (lit "morning") [].

Definition userLine : jsstring := Eval vm_compute in lit "with water".

Definition noLanguage (english : jsstring) : component :=
  mkComponent (Display.mk english placeholder isiZulu) emptyStructure
    true true [].

(** * The vocabulary service: [backend/routes/translations.js] *)

Module Backend.

Record translationRow := mkRow {
  english : jsstring;
  afrikaans : jsstring;
  isiXhosa : jsstring;
  isiZulu : jsstring
}.

(** The locals of the loop of [parseCSVLine]. *)
Record csvLineState := mkCsv {
  values : list jsstring;
  current : jsstring;
  inQuotes : bool
}.

Definition quote : N := 34.

Definition csvChar (st : csvLineState) (char : N) : csvLineState :=
  if N.eqb char quote then
    mkCsv (values st) (current st) (negb (inQuotes st))
  else if N.eqb char comma && negb (inQuotes st) then
    mkCsv (values st ++ [trim (current st)]) [] (inQuotes st)
  else
    mkCsv (values st) (current st ++ [char]) (inQuotes st).

Definition parseCSVLine (line : jsstring) : list jsstring :=
  let st := fold_left csvChar line (mkCsv [] [] false) in
  values st ++ [trim (current st)].

(** The rows of a table: the first line is the header; blank lines and
    lines with fewer than four values are skipped. *)
Definition parseCSV (csvData : jsstring) : list translationRow :=
  flat_map
    (fun line =>
       if nonEmpty (trim line) then
         match parseCSVLine line with
         | e :: a :: x :: z :: _ => [mkRow e a x z]
         | _ => []
         end
       else [])
    (skipn 1 (split (trim csvData))).

Definition afrikaansTag : jsstring := Eval vm_compute in lit "afrikaans".
Definition isixhosaTag : jsstring := Eval vm_compute in lit "isixhosa".
Definition isizuluTag : jsstring := Eval vm_compute in lit "isizulu".

Definition translateOption (englishText targetLanguage : jsstring)
  (options : list translationRow) : jsstring :=
  match find (fun opt => JS.eqb (english opt) englishText) options with
  | None => englishText
  | Some option =>
      let l := toLowerCase targetLanguage in
      if JS.eqb l afrikaansTag then afrikaans option
      else if JS.eqb l isixhosaTag then isiXhosa option
      else if JS.eqb l isizuluTag then isiZulu option
      else englishText
  end.

(** [getStaticTranslations()]: an object of objects, as lists of own
    properties. *)
Definition getStaticTranslations : list (jsstring * list (jsstring * jsstring)) :=
  Eval vm_compute in
  [(lit "take",
    [(lit "english", lit "take"); (lit "afrikaans", lit "vat");
     (lit "isiXhosa", lit "thabatha"); (lit "isiZulu", lit "thatha")]);
   (lit "precautionsHeader",
    [(lit "english", lit "Precautions");
     (lit "afrikaans", lit "Voorsorgmaatreëls");
     (lit "isiXhosa", lit "Ukulumkela"); (lit "isiZulu", lit "Ukuqaphela")])].

(** ** Property reads

    The objects of the routes are object literals, whose prototype is
    [Object.prototype]: a read [obj[key]] that finds no own property
    finds what [Object.prototype] defines under that name, the accessor
    [__proto__] or one of its functions. *)

Definition protoKey : jsstring := Eval vm_compute in lit "__proto__".

Definition objectPrototypeFunctions : list jsstring := Eval vm_compute in
  [lit "constructor"; lit "__defineGetter__"; lit "__defineSetter__";
   lit "hasOwnProperty"; lit "__lookupGetter__"; lit "__lookupSetter__";
   lit "isPrototypeOf"; lit "propertyIsEnumerable"; lit "toString";
   lit "valueOf"; lit "toLocaleString"].

Inductive member (A : Type) :=
| own (v : A)
| objectPrototype
| prototypeFunction (name : jsstring)
| undefined.
Arguments own {A} v.
Arguments objectPrototype {A}.
Arguments prototypeFunction {A} name.
Arguments undefined {A}.

Fixpoint ownProperty {A : Type} (key : jsstring) (obj : list (jsstring * A))
  : option A :=
  match obj with
  | [] => None
  | (k, v) :: rest => if JS.eqb k key then Some v else ownProperty key rest
  end.

(** [obj[key]] *)
Definition property {A : Type} (key : jsstring) (obj : list (jsstring * A))
  : member A :=
  match ownProperty key obj with
  | Some v => own v
  | None =>
      if JS.eqb key protoKey then objectPrototype
      else if existsb (JS.eqb key) objectPrototypeFunctions
      then prototypeFunction key
      else undefined
  end.

(** What the client reads as [translatedText] in the JSON reply.  A
    function is left out by [JSON.stringify], so that the client reads
    [undefined]; [Object.prototype] is written as [{}].  [unfollowed]
    stands for the answer to a request whose text names a function of
    [Object.prototype]: the route then reads a property of that function,
    which is not followed here. *)
Inductive jsonValue :=
| jsonString (s : jsstring)
| jsonMissing
| jsonObject
| unfollowed.

(** [staticTranslations[text] ? (staticTranslations[text][lang] || text) : text],
    [lang] being the target language in lower case. *)
Definition staticTranslation (text targetLanguage : jsstring) : jsonValue :=
  let lang := toLowerCase targetLanguage in
  match property text getStaticTranslations with
  | own words =>
      match property lang words with
      | own w => jsonString (orElse w text)
      | objectPrototype => jsonObject
      | prototypeFunction _ => jsonMissing
      | undefined => jsonString text
      end
  | objectPrototype =>
      (* the properties of [Object.prototype] itself; its [__proto__] is
         [null] *)
      if existsb (JS.eqb lang) objectPrototypeFunctions then jsonMissing
      else jsonString text
  | prototypeFunction _ => unfollowed
  | undefined => jsonString text
  end.

Definition validTypes : list jsstring := Eval vm_compute in
  [lit "Dosage"; lit "Frequency"; lit "Intervals"; lit "Time_of_Day";
   lit "Precautions"].

Definition staticType : jsstring := Eval vm_compute in lit "static".

(** [type.charAt(0).toUpperCase() + type.slice(1).toLowerCase()] *)
Definition normalizedType (type : jsstring) : jsstring :=
  toUpperCase (charAt0 type) ++ toLowerCase (slice1 type).

(** What a route sends back: the translated text with status 200, or an
    error status. *)
Inductive reply (A : Type) :=
| ok (data : A)
| failed (status : nat).
Arguments ok {A} data.
Arguments failed {A} status.

(** [router.post('/translate', ...)].  [getCsvData] reads and caches the
    table of a type; [None] stands for a table that cannot be read. *)
Definition translate (getCsvData : jsstring -> option (list translationRow))
  (text type targetLanguage : jsstring) : reply jsonValue :=
  if negb (nonEmpty text) || negb (nonEmpty type)
     || negb (nonEmpty targetLanguage)
  then failed 400
  else if JS.eqb type staticType then ok (staticTranslation text targetLanguage)
  else
    if negb (existsb (JS.eqb (normalizedType type)) validTypes)
    then failed 400
    else
      match getCsvData (normalizedType type) with
      | Some options =>
          ok (jsonString (translateOption text targetLanguage options))
      | None => failed 500
      end.

(** One item of [router.post('/translate/batch', ...)]. *)
Definition translateItem (getCsvData : jsstring -> option (list translationRow))
  (targetLanguage : jsstring) (item : jsstring * jsstring) : jsonValue :=
  let '(text, type) := item in
  if negb (nonEmpty text) || negb (nonEmpty type) then jsonString text
  else if JS.eqb type staticType then staticTranslation text targetLanguage
  else
    if negb (existsb (JS.eqb (normalizedType type)) validTypes)
    then jsonString text
    else
      match getCsvData (normalizedType type) with
      | Some options => jsonString (translateOption text targetLanguage options)
      | None => jsonString text
      end.

Definition translateBatch
  (getCsvData : jsstring -> option (list translationRow))
  (translations : list (jsstring * jsstring)) (targetLanguage : jsstring)
  : reply (list jsonValue) :=
  if negb (nonEmpty targetLanguage) then failed 400
  else ok (map (translateItem getCsvData targetLanguage) translations).

End Backend.

(** * The lookup utilities: [utils/backendTranslationUtils.ts]

    [apiRequest] raises for every reply that is not a success; the
    utilities catch that and fall back to the English term. *)

Module Utils.

(** The utilities are typed as returning strings; what they return is
    the [translatedText] of the reply as it is. *)
Definition translateOption
  (getCsvData : jsstring -> option (list Backend.translationRow))
  (englishText targetLanguage type : jsstring) : Backend.jsonValue :=
  match Backend.translate getCsvData englishText (capitalize type)
          targetLanguage with
  | Backend.ok translatedText => translatedText
  | Backend.failed _ => Backend.jsonString englishText
  end.

Definition translateStatic
  (getCsvData : jsstring -> option (list Backend.translationRow))
  (word targetLanguage : jsstring) : Backend.jsonValue :=
  match Backend.translate getCsvData word Backend.staticType targetLanguage with
  | Backend.ok translatedText => translatedText
  | Backend.failed _ => Backend.jsonString word
  end.

Definition precautionsType : jsstring := Eval vm_compute in lit "Precautions".

Definition translateMultiple
  (getCsvData : jsstring -> option (list Backend.translationRow))
  (translations : list (jsstring * jsstring)) (targetLanguage : jsstring)
  : list Backend.jsonValue :=
  match Backend.translateBatch getCsvData translations targetLanguage with
  | Backend.ok results => results
  | Backend.failed _ => map (fun t => Backend.jsonString (fst t)) translations
  end.

Definition translatePrecautions
  (getCsvData : jsstring -> option (list Backend.translationRow))
  (englishPrecautions : list jsstring) (targetLanguage : jsstring)
  : list Backend.jsonValue :=
  translateMultiple getCsvData
    (map (fun precaution => (precaution, precautionsType)) englishPrecautions)
    targetLanguage.

Definition takeKey : jsstring := Eval vm_compute in lit "take".
Definition headerKey : jsstring := Eval vm_compute in lit "precautionsHeader".
Definition dosageType : jsstring := Eval vm_compute in lit "dosage".
Definition frequencyType : jsstring := Eval vm_compute in lit "frequency".
Definition intervalsType : jsstring := Eval vm_compute in lit "intervals".
Definition timeOfDayType : jsstring := Eval vm_compute in lit "time_of_day".

(** ** What [generateTranslation] does with a value

    A value on which it calls a string method, [charAt] or [toLowerCase]:
    the call raises when the value is not a string. *)
Definition receiver (v : Backend.jsonValue) : option jsstring :=
  match v with
  | Backend.jsonString s => Some s
  | _ => None
  end.

Definition undefinedText : jsstring := Eval vm_compute in lit "undefined".
Definition objectText : jsstring := Eval vm_compute in lit "[object Object]".

(** A value it passes to [replace] as the replacement, which is converted
    to a string. *)
Definition replacement (v : Backend.jsonValue) : option jsstring :=
  match v with
  | Backend.jsonString s => Some s
  | Backend.jsonMissing => Some undefinedText
  | Backend.jsonObject => Some objectText
  | Backend.unfollowed => None
  end.

(** A translated precaution: it is passed to [replace] when it is truthy,
    so that [undefined] counts as the empty string. *)
Definition precautionText (v : Backend.jsonValue) : option jsstring :=
  match v with
  | Backend.jsonMissing => Some []
  | _ => replacement v
  end.

Fixpoint sequence {A : Type} (l : list (option A)) : option (list A) :=
  match l with
  | [] => Some []
  | Some a :: rest =>
      match sequence rest with
      | Some r => Some (a :: r)
      | None => None
      end
  | None :: _ => None
  end.

(** The lookups [generateTranslation] imports, over a backend with the
    tables [getCsvData]. *)
Definition lookupsOf
  (getCsvData : jsstring -> option (list Backend.translationRow)) : lookups :=
  mkLookups
    (fun language => receiver (translateStatic getCsvData takeKey language))
    (fun language =>
       replacement (translateStatic getCsvData headerKey language))
    (fun t language =>
       replacement (translateOption getCsvData t language dosageType))
    (fun t language =>
       receiver (translateOption getCsvData t language frequencyType))
    (fun t language =>
       receiver (translateOption getCsvData t language intervalsType))
    (fun t language =>
       receiver (translateOption getCsvData t language timeOfDayType))
    (fun ps language =>
       sequence (map precautionText (translatePrecautions getCsvData ps language))).

End Utils.

(** ** Predicates of the statements about the vocabulary service *)

Definition timeOfDayTable : jsstring := Eval vm_compute in lit "Time_of_Day".
Definition precautionsTable : jsstring := Eval vm_compute in lit "Precautions".

(** The tables [getCsvData] with the table [name] made unreadable. *)
Definition withoutTable (name : jsstring)
  (getCsvData : jsstring -> option (list Backend.translationRow))
  : jsstring -> option (list Backend.translationRow) :=
  fun type => if JS.eqb type name then None else getCsvData type.

(** A name every object literal inherits from [Object.prototype]. *)
Definition inheritedName (key : jsstring) : bool :=
  JS.eqb key Backend.protoKey
  || existsb (JS.eqb key) Backend.objectPrototypeFunctions.

(** Tables of a vocabulary, as [parseCSV] reads them. *)
Definition dosageCsv : jsstring := Eval vm_compute in lit
"English,Afrikaans,isiXhosa,isiZulu
500mg tablet,tablet van 500mg,ipilisi ye-500mg,iphilisi le-500mg
1 tablet,1 tablet,ipilisi e-1,iphilisi eli-1
".

Definition frequencyCsv : jsstring := Eval vm_compute in lit
"English,Afrikaans,isiXhosa,isiZulu
Three times daily,Drie keer per dag,Kathathu ngemini,Kathathu ngosuku
Daily,Daagliks,Yonke imihla,Nsuku zonke
".

Definition intervalsCsv : jsstring := Eval vm_compute in lit
"English,Afrikaans,isiXhosa,isiZulu
Every 8 hours,Elke 8 uur,Rhoqo emva kweeyure ezi-8,Njalo ngamahora angu-8
".

Definition precautionsCsv : jsstring := Eval vm_compute in lit
"English,Afrikaans,isiXhosa,isiZulu
Take with food,Neem saam met kos,Thatha nokutya,Thatha nokudla
".

Definition sampleTables : jsstring -> option (list Backend.translationRow) :=
  Eval vm_compute in
  fun type =>
    if JS.eqb type (lit "Dosage") then Some (Backend.parseCSV dosageCsv)
    else if JS.eqb type (lit "Frequency")
    then Some (Backend.parseCSV frequencyCsv)
    else if JS.eqb type (lit "Intervals")
    then Some (Backend.parseCSV intervalsCsv)
    else if JS.eqb type (lit "Precautions")
    then Some (Backend.parseCSV precautionsCsv)
    else None.

Definition afrikaans : jsstring := Eval vm_compute in lit "Afrikaans".

(** The number of places at which [p] occurs in [s]. *)
Fixpoint occurrences (p s : jsstring) : nat :=
  (if startsWith p s then 1 else 0)
  + match s with [] => 0 | _ :: s' => occurrences p s' end.

(** A page of a patient whose language is [language], the vocabulary
    loaded, displaying [english]. *)
Definition pageOf (language english : jsstring) : component :=
  mkComponent (Display.mk english placeholder language)
    (parseInstructionContent english) true true language.

(** A displayed text with a user line that has the word of the header
    in it, as the text around the two occurrences of the word and as a
    whole. *)
Definition precautionsTwice : jsstring * jsstring * jsstring :=
  Eval vm_compute in
  (lit "Paracetamol
ℹ️ Take 500mg tablet three times daily every 8 hours.
See ", lit " below
🕜 morning 🌅, afternoon ☀️, evening 🌆

", lit "
• Take with food
").

Definition precautionsTwiceText : jsstring := Eval vm_compute in
  let '(a, b, c) := precautionsTwice in
  a ++ precautionsWord ++ b ++ precautionsWord ++ c.

Definition voorsorgmaatreels : jsstring := Eval vm_compute in
  lit "Voorsorgmaatreëls".

(** A displayed text with a name line, a dosage line and a time line. *)
Definition ibuprofenText : jsstring := Eval vm_compute in lit
"Ibuprofen
ℹ️ Take 1 tablet daily.
🕜 morning 🌅".

(** A value as a CSV writer puts it: between double quotes. *)
Definition quoted (f : jsstring) : jsstring :=
  Backend.quote :: f ++ [Backend.quote].

Definition noQuote (f : jsstring) : bool :=
  negb (existsb (N.eqb Backend.quote) f).

Definition rowFields (r : Backend.translationRow) : list jsstring :=
  [Backend.english r; Backend.afrikaans r; Backend.isiXhosa r;
   Backend.isiZulu r].

Definition rowLine (r : Backend.translationRow) : jsstring :=
  join [comma] (map quoted (rowFields r)).

Definition plainRow (r : Backend.translationRow) : bool :=
  forallb (fun f => noQuote f && noNewline f) (rowFields r).

Definition trimRow (r : Backend.translationRow) : Backend.translationRow :=
  Backend.mkRow (trim (Backend.english r)) (trim (Backend.afrikaans r))
    (trim (Backend.isiXhosa r)) (trim (Backend.isiZulu r)).

Definition sampleRow : Backend.translationRow := Eval vm_compute in
  Backend.mkRow (lit "Once daily, with food") (lit "Een keer per dag")
    (lit "Kanye ngosuku") (lit "Kanye ngosuku").

Definition sampleHeader : jsstring := Eval vm_compute in
  lit "English,Afrikaans,isiXhosa,isiZulu".

(** * The medication tabs

    The tabs of the page, the form and the displayed instructions they
    are loaded into, and the item [medicationTabs] of [localStorage].  A
    handler reads the values of its render, [cl], and queues its updates
    on [st].  Tab identifiers are numbers, that is IEEE 754 doubles; the
    ones followed here are the natural numbers among them. *)

Module Tabs.

(** The double nearest to the natural number [m] (below 2^1024), a tie
    going to the even significand of 53 bits: [m] itself up to 2^53. *)
Definition toDouble (m : N) : N :=
  let size := N.size m in
  if N.leb size 53 then m
  else
    let e := N.sub size 53 in
    let q := N.shiftr m e in
    let r := N.land m (N.ones e) in
    let half := N.shiftl 1 (N.sub e 1) in
    let q :=
      if N.ltb half r || (N.eqb r half && N.odd q) then N.add q 1 else q in
    N.shiftl q e.

(** [n + 1] on doubles *)
Definition plusOne (n : N) : N := toDouble (N.add n 1).

Record MedicationTab := mkTab {
  id : N;
  name : jsstring;
  isActive : bool;
  formData : MedicationForm;
  instructions : InstructionDisplay
}.

Record session := mkSession {
  medicationTabs : list MedicationTab;
  nextTabId : N;
  medicationForm : MedicationForm;
  instructionDisplay : InstructionDisplay;
  stored : option (list MedicationTab)
}.

Definition setMedicationTabs (tabs : list MedicationTab) (st : session)
  : session :=
  mkSession tabs (nextTabId st) (medicationForm st) (instructionDisplay st)
    (stored st).

Definition setNextTabId (n : N) (st : session) : session :=
  mkSession (medicationTabs st) n (medicationForm st) (instructionDisplay st)
    (stored st).

Definition setMedicationForm (f : MedicationForm) (st : session) : session :=
  mkSession (medicationTabs st) (nextTabId st) f (instructionDisplay st)
    (stored st).

Definition setInstructionDisplay (d : InstructionDisplay) (st : session)
  : session :=
  mkSession (medicationTabs st) (nextTabId st) (medicationForm st) d
    (stored st).

(** [localStorage.setItem('medicationTabs', JSON.stringify(tabs))] *)
Definition setItem (tabs : list MedicationTab) (st : session) : session :=
  mkSession (medicationTabs st) (nextTabId st) (medicationForm st)
    (instructionDisplay st) (Some tabs).

(** The decimal digits of a number, as a template literal writes it
    (below 10^21, where the exponent notation starts). *)
Fixpoint digits (d : Decimal.uint) : jsstring :=
  match d with
  | Decimal.Nil => []
  | Decimal.D0 d => 48%N :: digits d
  | Decimal.D1 d => 49%N :: digits d
  | Decimal.D2 d => 50%N :: digits d
  | Decimal.D3 d => 51%N :: digits d
  | Decimal.D4 d => 52%N :: digits d
  | Decimal.D5 d => 53%N :: digits d
  | Decimal.D6 d => 54%N :: digits d
  | Decimal.D7 d => 55%N :: digits d
  | Decimal.D8 d => 56%N :: digits d
  | Decimal.D9 d => 57%N :: digits d
  end.

Definition medicationPrefix : jsstring := Eval vm_compute in lit "Medication ".

(** [`Medication ${n}`] *)
Definition medicationLabel (n : N) : jsstring :=
  medicationPrefix ++ digits (N.to_uint n).

Definition blankForm : MedicationForm := Form.mk [] [] [] [] [] [].

Definition defaultInstructions : InstructionDisplay :=
  Display.mk [] placeholder isiZulu.

Definition medication1 : jsstring := Eval vm_compute in lit "Medication 1".

Definition updateActiveTabData (formData' : MedicationForm)
  (instructions' : InstructionDisplay) (cl st : session) : session :=
  let updatedTabs :=
    map (fun tab =>
           if isActive tab then
             mkTab (id tab)
               (orElse (Form.name formData') (medicationLabel (id tab)))
               (isActive tab) formData' instructions'
           else tab)
      (medicationTabs cl) in
  let st := setMedicationTabs updatedTabs st in
  setItem updatedTabs st.

Definition createDefaultTab (st : session) : session :=
  let defaultTab :=
    mkTab 1 medication1 true blankForm defaultInstructions in
  let st := setMedicationTabs [defaultTab] st in
  let st := setNextTabId 2 st in
  let st := setMedicationForm (formData defaultTab) st in
  let st := setInstructionDisplay (instructions defaultTab) st in
  setItem [defaultTab] st.

(** The effect that loads the stored tabs, [parsedTabs] being the result
    of [JSON.parse] on the stored item; [None] stands for no item, or one
    that does not parse. *)
Definition loadStoredTabs (parsedTabs : option (list MedicationTab))
  (st : session) : session :=
  match parsedTabs with
  | Some (tab0 :: tabs) =>
      let parsedTabs := tab0 :: tabs in
      let st := setMedicationTabs parsedTabs st in
      let maxId := fold_left N.max (map id tabs) (id tab0) in
      let st := setNextTabId (plusOne maxId) st in
      match find isActive parsedTabs with
      | Some activeTab =>
          let st := setMedicationForm (formData activeTab) st in
          setInstructionDisplay (instructions activeTab) st
      | None => st
      end
  | Some [] => createDefaultTab st
  | None => createDefaultTab st
  end.

Definition handleAddAnotherMedication (cl st : session) : session :=
  let st :=
    updateActiveTabData (medicationForm cl) (instructionDisplay cl) cl st in
  let newTab :=
    mkTab (nextTabId cl) (medicationLabel (nextTabId cl)) false blankForm
      defaultInstructions in
  let st :=
    setMedicationTabs
      (map (fun tab =>
              mkTab (id tab) (name tab) false (formData tab)
                (instructions tab))
         (medicationTabs st))
      st in
  let updatedTabs := medicationTabs cl ++ [newTab] in
  let st := setMedicationTabs updatedTabs st in
  let st := setNextTabId (plusOne (nextTabId st)) st in
  let st := setItem updatedTabs st in
  let st := setMedicationForm blankForm st in
  setInstructionDisplay defaultInstructions st.

Definition handleDeleteMedication (tabId : N) (cl st : session) : session :=
  if Nat.leb (List.length (medicationTabs cl)) 1 then st
  else
    match find (fun tab => N.eqb (id tab) tabId) (medicationTabs cl) with
    | None => st
    | Some tabToDelete =>
        let st :=
          if isActive tabToDelete then
            let remainingTabs :=
              filter (fun tab => negb (N.eqb (id tab) tabId))
                (medicationTabs cl) in
            match remainingTabs with
            | newActiveTab :: _ =>
                let st :=
                  setMedicationTabs
                    (map (fun tab =>
                            mkTab (id tab) (name tab)
                              (N.eqb (id tab) (id newActiveTab))
                              (formData tab) (instructions tab))
                       (medicationTabs st))
                    st in
                let st := setMedicationForm (formData newActiveTab) st in
                setInstructionDisplay (instructions newActiveTab) st
            | [] => st
            end
          else st in
        let updatedTabs :=
          filter (fun tab => negb (N.eqb (id tab) tabId))
            (medicationTabs cl) in
        let st := setMedicationTabs updatedTabs st in
        setItem updatedTabs st
    end.

Definition handleTabClick (tabId : N) (cl st : session) : session :=
  let st :=
    updateActiveTabData (medicationForm cl) (instructionDisplay cl) cl st in
  match find (fun tab => N.eqb (id tab) tabId) (medicationTabs cl) with
  | None => st
  | Some targetTab =>
      let updatedTabs :=
        map (fun tab =>
               mkTab (id tab) (name tab) (N.eqb (id tab) tabId)
                 (formData tab) (instructions tab))
          (medicationTabs cl) in
      let st := setMedicationTabs updatedTabs st in
      let st := setItem updatedTabs st in
      let st := setMedicationForm (formData targetTab) st in
      setInstructionDisplay (instructions targetTab) st
  end.

(** [handleContinueToReview], up to the navigation. *)
Definition handleContinueToReview (cl st : session) : session :=
  updateActiveTabData (medicationForm cl) (instructionDisplay cl) cl st.

End Tabs.

(** ** Predicates of the statements about the tabs *)

Fixpoint uniqueIds (ids : list N) : bool :=
  match ids with
  | [] => true
  | i :: rest => negb (existsb (N.eqb i) rest) && uniqueIds rest
  end.

(** 2^53: up to it every natural number is a double, and adding one is
    exact below it. *)
Definition exactLimit : N := 9007199254740992.

(** The tabs are told apart by their identifiers, which are all below
    the next identifier to hand out, and there is at least one tab. *)
Definition wellNumbered (s : Tabs.session) : bool :=
  uniqueIds (map Tabs.id (Tabs.medicationTabs s))
  && forallb (fun tab => N.ltb (Tabs.id tab) (Tabs.nextTabId s))
       (Tabs.medicationTabs s)
  && Nat.ltb 0 (List.length (Tabs.medicationTabs s)).

Definition activeIds (tabs : list Tabs.MedicationTab) : list N :=
  map Tabs.id (filter Tabs.isActive tabs).

Definition aspirinForm : MedicationForm := Eval vm_compute in
  Form.mk (lit "Aspirin") (lit "1 tablet") (lit "Daily") [] [] [].

Definition aspirinInstructions : InstructionDisplay := Eval vm_compute in
  Display.mk (lit "Aspirin") placeholder isiZulu.

Definition twoTabs : Tabs.session :=
  Tabs.mkSession
    [Tabs.mkTab 1 (Tabs.medicationLabel 1) true Tabs.blankForm
       Tabs.defaultInstructions;
     Tabs.mkTab 2 (Tabs.medicationLabel 2) false Tabs.blankForm
       Tabs.defaultInstructions]
    3 aspirinForm aspirinInstructions None.

(** One tab, the next identifier being 2^53; and a tab stored under
    that identifier. *)
Definition limitTabs : Tabs.session :=
  Tabs.mkSession
    [Tabs.mkTab 1 (Tabs.medicationLabel 1) true Tabs.blankForm
       Tabs.defaultInstructions]
    exactLimit Tabs.blankForm Tabs.defaultInstructions None.

Definition limitStored : Tabs.session :=
  Tabs.mkSession
    [Tabs.mkTab exactLimit (Tabs.medicationLabel exactLimit) true
       Tabs.blankForm Tabs.defaultInstructions]
    2 Tabs.blankForm Tabs.defaultInstructions None.

(** * Form edits: [handleMedicationChange], [selectPrecaution]

    The value of a field is a string or, for the precautions, a list of
    strings.  The handlers post the new form with [setMedicationForm];
    here it is returned beside the component state. *)

Definition fieldValue : Type := (jsstring + list jsstring)%type.

(** [{ ...medicationForm, [field]: value }]; a value that is not of the
    type of the field does not occur. *)
Definition setField (fld : field) (value : fieldValue)
  (medicationForm : MedicationForm) : MedicationForm :=
  let f := medicationForm in
  match fld, value with
  | f_name, inl v =>
      Form.mk v (Form.dosage f) (Form.frequency f) (Form.interval f)
        (Form.timeOfDay f) (Form.precautions f)
  | f_dosage, inl v =>
      Form.mk (Form.name f) v (Form.frequency f) (Form.interval f)
        (Form.timeOfDay f) (Form.precautions f)
  | f_frequency, inl v =>
      Form.mk (Form.name f) (Form.dosage f) v (Form.interval f)
        (Form.timeOfDay f) (Form.precautions f)
  | f_interval, inl v =>
      Form.mk (Form.name f) (Form.dosage f) (Form.frequency f) v
        (Form.timeOfDay f) (Form.precautions f)
  | f_timeOfDay, inl v =>
      Form.mk (Form.name f) (Form.dosage f) (Form.frequency f)
        (Form.interval f) v (Form.precautions f)
  | f_precautions, inr l =>
      Form.mk (Form.name f) (Form.dosage f) (Form.frequency f)
        (Form.interval f) (Form.timeOfDay f) l
  | _, _ => f
  end.

(** [value === '' || (Array.isArray(value) && value.length === 0)] *)
Definition cleared (value : fieldValue) : bool :=
  match value with
  | inl v => negb (nonEmpty v)
  | inr l => Nat.eqb (List.length l) 0
  end.

(** The fields whose change regenerates the instruction. *)
Definition regenerates (fld : field) : bool :=
  match fld with
  | f_precautions => false
  | _ => true
  end.

Definition handleMedicationChange (lk : lookups) (fld : field)
  (value : fieldValue) (medicationForm : MedicationForm) (cl st : component)
  : MedicationForm * component :=
  let newFormData := setField fld value medicationForm in
  let st := if cleared value then handleFieldClearing fld cl st else st in
  let st :=
    if regenerates fld then generateInstruction lk newFormData cl st
    else st in
  (newFormData, st).

Definition selectPrecaution (lk : lookups) (precaution : jsstring)
  (medicationForm : MedicationForm) (cl st : component)
  : MedicationForm * component :=
  let f := medicationForm in
  let newFormData :=
    Form.mk (Form.name f) (Form.dosage f) (Form.frequency f)
      (Form.interval f) (Form.timeOfDay f)
      (Form.precautions f ++ [precaution]) in
  (newFormData, generateInstruction lk newFormData cl st).

(** ** Predicates of the statements about the parser and the handlers *)

(** Every generated section that is filled carries its marker. *)
Definition marked (s : Sec.sections) : bool :=
  (isEmpty (Sec.dosageLine s) || startsWith infoGlyph (Sec.dosageLine s))
  && (isEmpty (Sec.timeOfDay s) || startsWith clockGlyph (Sec.timeOfDay s))
  && (isEmpty (Sec.precautionsHeader s)
      || matchesPrecautionsHeader (Sec.precautionsHeader s))
  && forallb (startsWith bulletGlyph) (Sec.precautionsList s).

(** The first line that is not blank, trimmed. *)
Definition firstNonBlank (ls : list jsstring) : jsstring :=
  match find (fun l => nonEmpty (trim l)) ls with
  | Some l => trim l
  | None => []
  end.

(** What the parser maintains from line to line. *)
Definition parseInv (st : parseState) : Prop :=
  marked (p_sections st) = true
  /\ precautionsStarted st = nonEmpty (Sec.precautionsHeader (p_sections st))
  /\ (precautionsStarted st = false -> Sec.precautionsList (p_sections st) = [])
  /\ (medicationNameFound st = false -> p_sections st = Sec.empty)
  /\ (medicationNameFound st = true ->
      nonEmpty (Sec.medicationName (p_sections st)) = true)
  /\ cursorInv st.

(** The three required fields are all filled, or all empty. *)
Definition complete (f : MedicationForm) : bool :=
  nonEmpty (Form.name f) && nonEmpty (Form.dosage f)
  && nonEmpty (Form.frequency f).

Definition blank (f : MedicationForm) : bool :=
  negb (nonEmpty (Form.name f)) && negb (nonEmpty (Form.dosage f))
  && negb (nonEmpty (Form.frequency f)).

(** A form, the structure generated from it around three user lines, and
    a component that displays the text of that structure. *)
Definition ibuprofenForm : MedicationForm := Eval vm_compute in
  Form.mk (lit "Ibuprofen") (lit "1 tablet") (lit "Twice daily") []
    (lit "Morning and night") [lit "Take with food"].

Definition ibuprofenStructure : InstructionStructure := Eval vm_compute in
  updatedStructure ibuprofenForm
    (mkStructure
       (Sec.mk [] [] (lit "with water") [] [] [])
       (UC.mk [] [] (lit "after breakfast") (lit "keep dry")
          (lit "see the leaflet"))
       Gen.empty).

Definition ibuprofenComponent (loaded : bool) : component :=
  mkComponent
    (Display.mk (reconstructInstructionContent ibuprofenStructure)
       placeholder isiZulu)
    ibuprofenStructure loaded loaded isiZulu.

(** The same structure without lines between the sections. *)
Definition bareStructure : InstructionStructure := Eval vm_compute in
  updatedStructure ibuprofenForm emptyStructure.

Definition bareComponent : component :=
  mkComponent
    (Display.mk (reconstructInstructionContent bareStructure)
       placeholder isiZulu)
    bareStructure true true isiZulu.

(** * Abbreviations: the expansion loop of [handleKeyPress]

    The dosage and the time of day are expanded by a loop over the
    entries of their tables. *)


Definition timeOfDayAbbreviations : list (jsstring * jsstring) :=
  Eval vm_compute in
  [(lit "m.", lit "morning"); (lit "n.", lit "night");
   (lit "p.m.", lit "afternoon")].

(** The loop over the entries of a table: an abbreviation the text
    contains, in lower case, is replaced wherever it occurs, whatever its
    case.  The abbreviation is escaped before it is compiled, so it
    matches as written. *)
Definition expandAbbreviations (table : list (jsstring * jsstring))
  (currentValue : jsstring) : jsstring :=
  fold_left
    (fun result entry =>
       let '(abbr, full) := entry in
       if includes abbr (toLowerCase result)
       then replaceAll (mkRegex abbr true false false) full result
       else result)
    table currentValue.

(** ** Predicates of the statements about the abbreviations *)


(** A lower-case Basic Latin letter or a period. *)
Definition abbreviationUnit (x : N) : bool :=
  (N.leb 97 x && N.leb x 122) || N.eqb x period.

(** An [m] of either case directly followed by a period. *)
Fixpoint hasMDot (s : jsstring) : bool :=
  match s with
  | [] => false
  | x :: s' =>
      (N.eqb (lowerUnit x) 109 && N.eqb (hd 0%N s') period && nonEmpty s')
      || hasMDot s'
  end.

Definition tab : jsstring := Eval vm_compute in lit "tab".

(** * The precautions of the form: the text area and the dropdown *)

(** [value={medicationForm.precautions.join('\n')}] *)
Definition precautionsValue (medicationForm : MedicationForm) : jsstring :=
  join nl (Form.precautions medicationForm).

(** The [onChange] of the text area: the lines of the new value that are
    not blank become the precautions. *)
Definition precautionsChange (value : jsstring)
  (medicationForm : MedicationForm) : MedicationForm :=
  let lines := filter (fun line => nonEmpty (trim line)) (split value) in
  let prev := medicationForm in
  Form.mk (Form.name prev) (Form.dosage prev) (Form.frequency prev)
    (Form.interval prev) (Form.timeOfDay prev) lines.

(** The options the precautions dropdown lists. *)
Definition offeredPrecautions (englishPrecautionOptions : list jsstring)
  (precautionSearch : jsstring) (medicationForm : MedicationForm)
  : list jsstring :=
  filter
    (fun precaution =>
       includes (toLowerCase precautionSearch) (toLowerCase precaution)
       && negb (existsb (JS.eqb precaution) (Form.precautions medicationForm)))
    englishPrecautionOptions.

(** ** Predicates of the statements about the precautions *)

Definition precautionLine (p : jsstring) : bool :=
  nonEmpty (trim p) && noNewline p.

Fixpoint distinct (l : list jsstring) : bool :=
  match l with
  | [] => true
  | x :: rest => negb (existsb (JS.eqb x) rest) && distinct rest
  end.

Definition withFood : jsstring := Eval vm_compute in lit "Take with food".
Definition avoidAlcohol : jsstring := Eval vm_compute in lit "Avoid alcohol".

(** ** Forms whose generated text reads back

    The name up to its first comma is one trimmed line, the parts of the
    dosage line have no line break, the time of day is one trimmed line
    and every precaution is one trimmed non-empty line; in a well-behaved
    form the parts of the dosage line have no period either. *)

Definition noPeriod (s : jsstring) : bool :=
  forallb (fun c => negb (N.eqb c period)) s.

Definition singleLines (f : MedicationForm) : bool :=
  sectionLine (beforeComma (Form.name f))
  && noNewline (Form.dosage f)
  && noNewline (Form.frequency f)
  && noNewline (Form.interval f)
  && trimmed (Form.timeOfDay f) && noNewline (Form.timeOfDay f)
  && forallb sectionLine (Form.precautions f).

Definition wellBehaved (f : MedicationForm) : bool :=
  singleLines f
  && noPeriod (Form.dosage f)
  && noPeriod (Form.frequency f)
  && noPeriod (Form.interval f).

(** The two parts the parser splits a dosage line into. *)
Definition dosageHead (t : jsstring) : jsstring :=
  Sec.dosageLine (splitDosageLine t Sec.empty).

Definition dosageTail (t : jsstring) : jsstring :=
  Sec.dosageLineUserContent (splitDosageLine t Sec.empty).

(** What [reconstructInstructionContent] writes after the dosage line
    when there is no user content. *)
Definition generatedSuffix (tod ph : jsstring) (pl : list jsstring)
  : jsstring :=
  (if nonEmpty tod
   then nl ++ tod ++ (if nonEmpty ph then nl else [])
   else [])
  ++ (if nonEmpty ph
      then nl ++ ph ++ nl ++ flat_map (fun p => p ++ nl) pl
      else []).

Definition syrupForm : MedicationForm := Eval vm_compute in
  Form.mk (lit "Paracetamol syrup") (lit "2.5 ml") (lit "Twice daily") []
    (lit "morning") [lit "Shake well"].

(** The text [generateInstruction] writes for a form when nothing is
    displayed yet. *)
Definition firstText (f : MedicationForm) : jsstring :=
  reconstructInstructionContent (updatedStructure f emptyStructure).

(** The vocabulary is loaded, or there is no language to translate to. *)
Definition ready (cl : component) : bool :=
  negb (nonEmpty (patientLanguage cl))
  || (translationsLoaded cl && medicationsLoaded cl).

(** A displayed translation with a dosage line and a time line. *)
Definition translatedSample : jsstring := Eval vm_compute in lit
"Aspirin
ℹ️ Thatha 1 iphilisi kanye ngosuku.
🕜 ekuseni 🌅".

Definition translatedComponent : component := Eval vm_compute in
  mkComponent (Display.mk (lit "Aspirin") translatedSample (lit "isiZulu"))
    emptyStructure true true (lit "isiZulu").
(** * Properties *)

(** ** Basic facts about strings *)

Lemma nonEmpty_true (s : jsstring) : nonEmpty s = true <-> s <> [].
Proof. destruct s; simpl; split; congruence. Qed.

Lemma nonEmpty_false (s : jsstring) : nonEmpty s = false <-> s = [].
Proof. destruct s; simpl; split; congruence. Qed.

Lemma orElse_spec (a b : jsstring) :
  orElse a b = if nonEmpty a then a else b.
Proof. reflexivity. Qed.

(** ** Guard of the generation handler *)

(** C4. With name, dosage and frequency all empty, the generation handler
    resets the display to the empty-state placeholder (empty English text,
    placeholder translation) and clears the structure, whatever the other
    fields hold; with some but not all of the three non-empty it posts no
    update at all. *)
Theorem generateInstruction_guard (lk : lookups) (cl st : component) :
  (forall interval timeOfDay precautions,
      let r :=
        generateInstruction lk
          (Form.mk [] [] [] interval timeOfDay precautions) cl st in
      Display.english (instructionDisplay r) = []
      /\ Display.translated (instructionDisplay r) = placeholder
      /\ instructionStructure r = emptyStructure)
  /\ (forall formData,
         nonEmpty (Form.name formData) || nonEmpty (Form.dosage formData)
         || nonEmpty (Form.frequency formData) = true ->
         nonEmpty (Form.name formData) && nonEmpty (Form.dosage formData)
         && nonEmpty (Form.frequency formData) = false ->
         generateInstruction lk formData cl st = st).
Proof.
  split.
  - intros interval timeOfDay precautions. simpl. auto.
  - intros [n d f i t p]; unfold generateInstruction; simpl.
    destruct (nonEmpty n), (nonEmpty d), (nonEmpty f); simpl;
      intros Hsome Hall; try discriminate; reflexivity.
Qed.

Lemma generateInstruction_guard_witness :
  generateInstruction sampleLookups
    (Form.mk (lit "Aspirin") [] [] [] (lit "morning") [])
    sampleComponent sampleComponent = sampleComponent.
Proof.
  apply (proj2 (generateInstruction_guard sampleLookups sampleComponent
                  sampleComponent)); reflexivity.
Defined.

(** ** Selective field clearing *)

Lemma clearSections_needsUpdate (fld : field) (x : InstructionStructure) :
  snd (clearSections fld x) = mappedContent fld (sections x).
Proof.
  destruct fld; simpl;
    match goal with |- context [if ?b then _ else _] => destruct b end;
    reflexivity.
Qed.

Lemma clearSections_noop (fld : field) (x : InstructionStructure) :
  mappedContent fld (sections x) = false -> fst (clearSections fld x) = x.
Proof.
  destruct fld; simpl; intros ->; reflexivity.
Qed.

(** C3. Clearing [timeOfDay] on a structure whose generated sections are
    populated yields that structure with only the time-of-day section
    emptied: the other sections and the five user-content slots are as
    before.  Clearing any field whose mapped sections hold no content
    leaves the component state as it was. *)
Theorem handleFieldClearing_selective (cl st : component) :
  let original :=
    parseInstructionContent (Display.english (instructionDisplay cl)) in
  (nonEmpty (Sec.timeOfDay (sections original)) = true ->
   instructionStructure (handleFieldClearing f_timeOfDay cl st)
   = mkStructure
       (Sec.mk (Sec.medicationName (sections original))
          (Sec.dosageLine (sections original))
          (Sec.dosageLineUserContent (sections original))
          []
          (Sec.precautionsHeader (sections original))
          (Sec.precautionsList (sections original)))
       (userContent original) (lastGenerated original))
  /\ (forall fld,
         mappedContent fld (sections original) = false ->
         handleFieldClearing fld cl st = st).
Proof.
  intros original; split.
  - intros H. unfold handleFieldClearing. fold original.
    unfold clearSections. rewrite H. reflexivity.
  - intros fld H. unfold handleFieldClearing. fold original.
    pose proof (clearSections_needsUpdate fld original) as Hn.
    destruct (clearSections fld original) as [x b]. cbv [snd] in Hn.
    rewrite Hn, H. reflexivity.
Qed.

Lemma handleFieldClearing_selective_witness :
  Sec.timeOfDay
    (sections
       (instructionStructure
          (handleFieldClearing f_timeOfDay sampleComponent sampleComponent)))
  = []
  /\ userContent
       (instructionStructure
          (handleFieldClearing f_timeOfDay sampleComponent sampleComponent))
     = userContent (parseInstructionContent sampleText).
Proof.
  rewrite (proj1 (handleFieldClearing_selective sampleComponent
                    sampleComponent)) by reflexivity.
  split; reflexivity.
Defined.

(** ** Direct edits of the English text *)

(** C8. After a direct edit of the English text each generated section of
    the retained structure is the value parsed from the edited text when
    that is non-empty, and the previously retained value otherwise; the
    displayed English text is the edited text itself. *)
Theorem handleInstructionChange_keeps_sections
  (newContent : jsstring) (cl st : component) :
  let new := sections (parseInstructionContent newContent) in
  let prev := sections (instructionStructure st) in
  let r := handleInstructionChange englishPane newContent cl st in
  let upd := sections (instructionStructure r) in
  Sec.medicationName upd
  = (if nonEmpty (Sec.medicationName new) then Sec.medicationName new
     else Sec.medicationName prev)
  /\ Sec.dosageLine upd
     = (if nonEmpty (Sec.dosageLine new) then Sec.dosageLine new
        else Sec.dosageLine prev)
  /\ Sec.timeOfDay upd
     = (if nonEmpty (Sec.timeOfDay new) then Sec.timeOfDay new
        else Sec.timeOfDay prev)
  /\ Sec.precautionsHeader upd
     = (if nonEmpty (Sec.precautionsHeader new) then Sec.precautionsHeader new
        else Sec.precautionsHeader prev)
  /\ Sec.precautionsList upd
     = (match Sec.precautionsList new with
        | [] => Sec.precautionsList prev
        | _ :: _ => Sec.precautionsList new
        end)
  /\ Display.english (instructionDisplay r) = newContent.
Proof.
  simpl. repeat split.
  generalize
    (Sec.precautionsList (p_sections (parseLines (split newContent) parseInit))).
  intros [|p ps]; reflexivity.
Qed.

(** ** Inline user text on the dosage line *)

Lemma addUserContent_sections (line : jsstring) (st : parseState) :
  p_sections (addUserContent line st) = p_sections st.
Proof.
  unfold addUserContent. destruct (currentSection st); simpl; try reflexivity.
  destruct (precautionsStarted st); reflexivity.
Qed.

Lemma firstn_succ_nonEmpty (i : nat) (s : jsstring) :
  nonEmpty s = true -> nonEmpty (substringTo (i + 1) s) = true.
Proof.
  rewrite Nat.add_1_r. destruct s; simpl; [discriminate | reflexivity].
Qed.

Lemma splitDosageLine_anchored (t : jsstring) (s : Sec.sections) :
  nonEmpty t = true -> inlineAnchored (splitDosageLine t s).
Proof.
  intros Ht _. unfold splitDosageLine.
  destruct (indexOf period t); simpl; auto using firstn_succ_nonEmpty.
Qed.

Lemma parseLine_anchored (st : parseState) (line : jsstring) :
  inlineAnchored (p_sections st) -> inlineAnchored (p_sections (parseLine st line)).
Proof.
  intros H. unfold parseLine.
  destruct (nonEmpty (trim line)) eqn:Ht;
    [|rewrite addUserContent_sections; exact H].
  repeat match goal with
         | |- context [if ?b then _ else _] => destruct b
         end; simpl;
    try (rewrite addUserContent_sections); try exact H;
    auto using splitDosageLine_anchored.
Qed.

Lemma parseLines_anchored (ls : list jsstring) (st : parseState) :
  inlineAnchored (p_sections st) -> inlineAnchored (p_sections (parseLines ls st)).
Proof.
  revert st; induction ls as [|l ls IH]; intros st H; simpl; auto.
  apply IH, parseLine_anchored, H.
Qed.

Lemma parse_anchored (content : jsstring) :
  inlineAnchored (sections (parseInstructionContent content)).
Proof.
  apply parseLines_anchored. intros H; discriminate H.
Qed.

(** Reassembly does not look at the inline user text of a structure
    without dosage line. *)
Lemma reconstruct_ignores_inline (mn inl inl' tod ph : jsstring)
  (pl : list jsstring) (u : UC.userContent) (g g' : Gen.lastGenerated) :
  reconstructInstructionContent (mkStructure (Sec.mk mn [] inl tod ph pl) u g)
  = reconstructInstructionContent (mkStructure (Sec.mk mn [] inl' tod ph pl) u g').
Proof. reflexivity. Qed.

(** C10. When the dosage line of the displayed text carries inline user
    text, clearing dosage, frequency or interval makes the displayed
    English text the reassembly of the structure without dosage line and
    without that inline text, while the retained structure still holds the
    inline text. *)
Theorem handleFieldClearing_drops_inline (fld : field) (cl st : component) :
  let original :=
    parseInstructionContent (Display.english (instructionDisplay cl)) in
  let s := sections original in
  fld = f_dosage \/ fld = f_frequency \/ fld = f_interval ->
  nonEmpty (Sec.dosageLineUserContent s) = true ->
  let r := handleFieldClearing fld cl st in
  Display.english (instructionDisplay r)
  = reconstructInstructionContent
      (mkStructure
         (Sec.mk (Sec.medicationName s) [] [] (Sec.timeOfDay s)
            (Sec.precautionsHeader s) (Sec.precautionsList s))
         (userContent original) (lastGenerated original))
  /\ Sec.dosageLine (sections (instructionStructure r)) = []
  /\ Sec.dosageLineUserContent (sections (instructionStructure r))
     = Sec.dosageLineUserContent s.
Proof.
  intros original s Hf Hinl r.
  assert (Hdl : nonEmpty (Sec.dosageLine s) = true)
    by (apply (parse_anchored (Display.english (instructionDisplay cl))), Hinl).
  assert (Hr : r = handleFieldClearing f_dosage cl st)
    by (destruct Hf as [->|[->| ->]]; reflexivity).
  rewrite Hr. unfold handleFieldClearing. fold original.
  unfold clearSections. fold s. rewrite Hdl. cbv iota beta.
  cbn [instructionDisplay instructionStructure setInstructionDisplay
       setInstructionStructure Display.english sections
       Sec.dosageLineUserContent Sec.dosageLine].
  repeat split.
Qed.

Lemma handleFieldClearing_drops_inline_witness :
  Sec.dosageLineUserContent
    (sections
       (instructionStructure
          (handleFieldClearing f_interval sampleComponent sampleComponent)))
  = Sec.dosageLineUserContent (sections (parseInstructionContent sampleText)).
Proof.
  apply (handleFieldClearing_drops_inline f_interval sampleComponent
           sampleComponent); [right; right; reflexivity | reflexivity].
Defined.

(** ** Composition *)


Lemma generateTranslation_sections (lk : lookups) (text language : jsstring)
  (formData : MedicationForm) (e : option InstructionDisplay)
  (cl st : component) :
  let r := generateTranslation lk text language formData e cl st in
  sections (instructionStructure r) = sections (instructionStructure st)
  /\ userContent (instructionStructure r) = userContent (instructionStructure st)
  /\ Gen.english (lastGenerated (instructionStructure r))
     = Gen.english (lastGenerated (instructionStructure st)).
Proof.
  unfold generateTranslation.
  destruct (negb (nonEmpty text) || negb (nonEmpty language)); [simpl; auto|].
  destruct (negb (translationsLoaded cl) || negb (medicationsLoaded cl));
    [simpl; auto|].
  destruct (translateText lk text language formData); simpl; auto.
Qed.

(** What [generateInstruction] retains once the three required fields are
    set: the updated structure, with the reassembled text recorded as the
    last generated English text. *)
Lemma generateInstruction_structure (lk : lookups) (formData : MedicationForm)
  (cl st : component) :
  nonEmpty (Form.name formData) = true ->
  nonEmpty (Form.dosage formData) = true ->
  nonEmpty (Form.frequency formData) = true ->
  let current :=
    parseInstructionContent (Display.english (instructionDisplay cl)) in
  let r := generateInstruction lk formData cl st in
  sections (instructionStructure r) = sections (updatedStructure formData current)
  /\ userContent (instructionStructure r) = userContent current
  /\ Gen.english (lastGenerated (instructionStructure r))
     = reconstructInstructionContent (updatedStructure formData current).
Proof.
  intros Hn Hd Hf current r. subst r. unfold generateInstruction.
  rewrite Hn, Hd, Hf. cbn [negb andb orb]. fold current.
  destruct (nonEmpty (patientLanguage cl) && true).
  - match goal with
    | |- context [generateTranslation ?a ?b ?c ?d ?e ?f ?g] =>
        destruct (generateTranslation_sections a b c d e f g) as (H1 & H2 & H3)
    end.
    rewrite H1, H2, H3. simpl. auto.
  - simpl. auto.
Qed.

Lemma if_nonEmpty_app (x c o : jsstring) :
  (if nonEmpty x then c ++ x ++ o else c)
  = c ++ x ++ (if nonEmpty x then o else []).
Proof. destruct x; simpl; [rewrite app_nil_r|]; reflexivity. Qed.

Lemma emitSlot_app (slot : jsstring) (next : bool) (c : jsstring) :
  emitSlot slot next c = c ++ emitSlot slot next [].
Proof.
  unfold emitSlot. destruct (nonEmpty slot); simpl;
    [reflexivity | rewrite app_nil_r; reflexivity].
Qed.

Lemma fold_bullets (pl : list jsstring) (c : jsstring) :
  fold_left (fun content precaution => content ++ precaution ++ nl) pl c
  = c ++ flat_map (fun p => p ++ nl) pl.
Proof.
  revert c; induction pl as [|p pl IH]; intros c; simpl.
  - rewrite app_nil_r; reflexivity.
  - rewrite IH. rewrite <- !app_assoc. reflexivity.
Qed.

(** The block [reconstructInstructionContent] writes for the precautions. *)
Lemma precautions_block (s : Sec.sections) (c : jsstring) :
  (if hasPrecautions s then
     fold_left (fun content precaution => content ++ precaution ++ nl)
       (Sec.precautionsList s)
       (let content :=
          if nonEmpty c && negb (endsWith (nl ++ nl) c) then c ++ nl else c in
        if nonEmpty (Sec.precautionsHeader s)
        then content ++ Sec.precautionsHeader s ++ nl else content)
   else c)
  = c ++ (if hasPrecautions s && nonEmpty c && negb (endsWith (nl ++ nl) c)
          then nl else [])
      ++ Sec.precautionsHeader s
      ++ (if nonEmpty (Sec.precautionsHeader s) then nl else [])
      ++ flat_map (fun p => p ++ nl) (Sec.precautionsList s).
Proof.
  unfold hasPrecautions.
  destruct s as [mn dl inl tod ph pl]; cbn [Sec.precautionsHeader Sec.precautionsList].
  destruct ph as [|h ph], pl as [|p pl]; cbn [nonEmpty orb andb negb List.length Nat.eqb].
  - simpl. rewrite app_nil_r. reflexivity.
  - cbv zeta. rewrite fold_bullets.
    destruct (nonEmpty c && negb (endsWith (nl ++ nl) c));
      rewrite <- ?app_assoc; reflexivity.
  - cbv zeta. rewrite fold_bullets.
    destruct (nonEmpty c && negb (endsWith (nl ++ nl) c)); simpl;
      rewrite <- ?app_assoc; simpl; rewrite ?app_nil_r; reflexivity.
  - cbv zeta. rewrite fold_bullets.
    destruct (nonEmpty c && negb (endsWith (nl ++ nl) c));
      rewrite <- ?app_assoc; reflexivity.
Qed.

Lemma if_nonEmpty_app_r (x c : jsstring) :
  (if nonEmpty x then c ++ x else c) = c ++ x.
Proof. destruct x; simpl; [rewrite app_nil_r|]; reflexivity. Qed.

(** [reconstructInstructionContent] as one concatenation. *)
Lemma reconstruct_normal (x : InstructionStructure) :
  reconstructInstructionContent x
  = headContent x ++ blankBeforePrecautions x
      ++ Sec.precautionsHeader (sections x)
      ++ (if nonEmpty (Sec.precautionsHeader (sections x)) then nl else [])
      ++ flat_map (fun p => p ++ nl) (Sec.precautionsList (sections x))
      ++ UC.afterPrecautions (userContent x).
Proof.
  unfold reconstructInstructionContent. cbv zeta.
  rewrite if_nonEmpty_app_r, precautions_block.
  rewrite !if_nonEmpty_app.
  rewrite (emitSlot_app (UC.afterTimeOfDay _)), (emitSlot_app (UC.afterDosage _)),
    (emitSlot_app (UC.afterMedication _)).
  unfold blankBeforePrecautions, headContent. cbv zeta.
  rewrite <- !app_assoc. reflexivity.
Qed.

(** The reassembled text lists the generated sections in the fixed order:
    name, dosage line, time line, header, bullets. *)
Lemma reconstruct_order (x : InstructionStructure) :
  exists a b c d e,
    reconstructInstructionContent x
    = a ++ Sec.medicationName (sections x)
        ++ b ++ Sec.dosageLine (sections x)
        ++ c ++ Sec.timeOfDay (sections x)
        ++ d ++ Sec.precautionsHeader (sections x)
        ++ (if nonEmpty (Sec.precautionsHeader (sections x)) then nl else [])
        ++ flat_map (fun p => p ++ nl) (Sec.precautionsList (sections x))
        ++ e.
Proof.
  rewrite reconstruct_normal. unfold headContent. cbv zeta.
  set (s := sections x). set (u := userContent x).
  exists (emitSlot (UC.beforeMedication u) (nonEmpty (Sec.medicationName s)) []).
  exists ((if nonEmpty (Sec.medicationName s)
           then if nonEmpty (UC.afterMedication u) || nonEmpty (Sec.dosageLine s)
                then nl else []
           else [])
          ++ emitSlot (UC.afterMedication u) (nonEmpty (Sec.dosageLine s)) []).
  exists ((if nonEmpty (Sec.dosageLine s)
           then (if nonEmpty (Sec.dosageLineUserContent s)
                 then space ++ Sec.dosageLineUserContent s else [])
                ++ (if nonEmpty (UC.afterDosage u) || nonEmpty (Sec.timeOfDay s)
                    then nl else [])
           else [])
          ++ emitSlot (UC.afterDosage u) (nonEmpty (Sec.timeOfDay s)) []).
  exists ((if nonEmpty (Sec.timeOfDay s)
           then if nonEmpty (UC.afterTimeOfDay u) || hasPrecautions s
                then nl else []
           else [])
          ++ emitSlot (UC.afterTimeOfDay u) (hasPrecautions s) []
          ++ blankBeforePrecautions x).
  exists (UC.afterPrecautions u).
  rewrite <- !app_assoc. reflexivity.
Qed.



(** The end-to-end scenario of the specification. *)
Example compose_paracetamol :
  Gen.english
    (lastGenerated
       (instructionStructure
          (generateInstruction (Utils.lookupsOf sampleTables) sampleForm
             emptyComponent emptyComponent)))
  = lit
"Paracetamol
ℹ️ Take 500mg tablet three times daily every 8 hours.
🕜 morning 🌅, afternoon ☀️, evening 🌆

Precautions
• Take with food
".
Proof. vm_compute. reflexivity. Qed.

(** ** Replacement of the first occurrence and of every match *)

Lemma startsWith_app (p b : jsstring) : startsWith p (p ++ b) = true.
Proof.
  induction p as [|c p IH]; simpl; [reflexivity|].
  rewrite N.eqb_refl. exact IH.
Qed.

Lemma startsWith_long (p x y : jsstring) :
  List.length p <= List.length x -> startsWith p (x ++ y) = startsWith p x.
Proof.
  revert x; induction p as [|c p IH]; intros x H; simpl; [reflexivity|].
  destruct x as [|d x]; simpl in *; [lia|].
  rewrite IH by lia. reflexivity.
Qed.

Lemma startsWith_length (p s : jsstring) :
  startsWith p s = true -> List.length p <= List.length s.
Proof.
  revert s; induction p as [|c p IH]; intros s H; simpl in *; [lia|].
  destruct s as [|d s]; [discriminate|]. simpl.
  apply andb_prop in H. destruct H as [_ H]. apply IH in H. lia.
Qed.

Lemma removelast_snoc (p : jsstring) :
  p <> [] -> exists c, p = removelast p ++ [c].
Proof.
  intros H. exists (last p 0%N). apply app_removelast_last, H.
Qed.

Lemma indexOfString_first (p a b : jsstring) :
  noEarlierOccurrence p a = true ->
  indexOfString p (a ++ p ++ b) = Some (List.length a).
Proof.
  unfold noEarlierOccurrence. intros H. apply negb_true_iff in H.
  destruct p as [|c0 p0]; [destruct a; discriminate H|].
  set (p := c0 :: p0) in *.
  destruct (removelast_snoc p) as [c Hp]; [discriminate|].
  induction a as [|d a IH].
  - simpl app. destruct (startsWith p (p ++ b)) eqn:E.
    + subst p. simpl. simpl in E. rewrite E. reflexivity.
    + rewrite startsWith_app in E. discriminate.
  - assert (Hs : startsWith p ((d :: a) ++ removelast p) = false
                 /\ includes p (a ++ removelast p) = false).
    { simpl in H. apply orb_false_iff in H. exact H. }
    destruct Hs as [Hs Hi].
    assert (Hs' : startsWith p ((d :: a) ++ p ++ b) = false).
    { rewrite Hp at 2. rewrite <- app_assoc, app_assoc.
      rewrite startsWith_long; [exact Hs|].
      rewrite Hp at 1. rewrite !length_app. simpl. lia. }
    specialize (IH Hi).
    change ((d :: a) ++ p ++ b) with (d :: (a ++ p ++ b)) in *.
    subst p. simpl. simpl in Hs'. rewrite Hs'.
    simpl in IH. rewrite IH. reflexivity.
Qed.

(** [replace] with a string pattern rewrites the first occurrence and
    nothing else. *)
Lemma replaceFirst_first (p rep a b : jsstring) :
  noEarlierOccurrence p a = true ->
  replaceFirst p rep (a ++ p ++ b) = a ++ expandReplacement p a b rep ++ b.
Proof.
  intros H. unfold replaceFirst. rewrite (indexOfString_first p a b H).
  rewrite firstn_app, firstn_all, Nat.sub_diag, firstn_O, app_nil_r.
  rewrite skipn_app.
  rewrite (skipn_all2 a) by lia.
  replace (List.length a + List.length p - List.length a) with (List.length p) by lia.
  rewrite skipn_app, skipn_all, Nat.sub_diag. reflexivity.
Qed.

Lemma skipn_cons_nth (s : jsstring) (i : nat) :
  i < List.length s ->
  exists c, nth_error s i = Some c /\ skipn i s = c :: skipn (S i) s.
Proof.
  revert i; induction s as [|d s IH]; intros i H; simpl in H; [lia|].
  destruct i as [|i]; simpl; [eauto|].
  destruct (IH i) as (c & H1 & H2); [lia|]. exists c. split; [exact H1|].
  rewrite H2. destruct s; reflexivity.
Qed.

Section Scan.

Variables (re : regex) (rep orig : jsstring).

Lemma scan_skip (k pos : nat) :
  pos + k <= List.length orig ->
  replaceScan re rep orig pos (prevAt orig pos) k (skipn pos orig)
  = scanAt re rep orig (pos + k).
Proof.
  revert pos; induction k as [|k IH]; intros pos H.
  - rewrite Nat.add_0_r. reflexivity.
  - destruct (skipn_cons_nth orig pos) as (c & Hc & Hs); [lia|].
    rewrite Hs. simpl. rewrite <- Hc.
    change (nth_error orig pos) with (prevAt orig (S pos)).
    rewrite IH by lia. f_equal. lia.
Qed.

Lemma scan_end : scanAt re rep orig (List.length orig) = [].
Proof. unfold scanAt. rewrite skipn_all. reflexivity. Qed.

Lemma scan_nomatch (pos : nat) :
  pos < List.length orig ->
  matchAtPos re orig pos = false ->
  exists c, skipn pos orig = c :: skipn (S pos) orig
            /\ scanAt re rep orig pos = c :: scanAt re rep orig (S pos).
Proof.
  intros H Hm. destruct (skipn_cons_nth orig pos H) as (c & Hc & Hs).
  exists c. split; [exact Hs|]. unfold scanAt at 1.
  unfold matchAtPos in Hm. rewrite Hs in *. cbn [replaceScan]. rewrite Hm.
  f_equal. rewrite <- Hc. reflexivity.
Qed.

Lemma scan_nomatch_run (k pos : nat) :
  pos + k <= List.length orig ->
  (forall i, pos <= i < pos + k -> matchAtPos re orig i = false) ->
  scanAt re rep orig pos
  = firstn k (skipn pos orig) ++ scanAt re rep orig (pos + k).
Proof.
  revert pos; induction k as [|k IH]; intros pos H Hm.
  - rewrite Nat.add_0_r. reflexivity.
  - destruct (scan_nomatch pos) as (c & Hs & Hc); [lia | apply Hm; lia|].
    rewrite Hc, Hs. simpl. f_equal.
    rewrite IH; [f_equal; f_equal; lia | lia | intros i Hi; apply Hm; lia].
Qed.

Lemma matchesAt_length (prev : option N) (s : jsstring) :
  matchesAt re prev s = true -> List.length (re_units re) <= List.length s.
Proof.
  unfold matchesAt. intros H.
  apply andb_prop in H. destruct H as [H _].
  apply andb_prop in H. destruct H as [H _].
  destruct (re_ignoreCase re); [|apply startsWith_length, H].
  clear -H. revert s H. induction (re_units re) as [|c p IH]; intros s H;
    simpl in *; [lia|].
  destruct s as [|d s]; [discriminate|]. simpl.
  apply andb_prop in H. destruct H as [_ H]. apply IH in H. lia.
Qed.

Lemma scan_match (pos : nat) :
  re_units re <> [] ->
  matchAtPos re orig pos = true ->
  let n := List.length (re_units re) in
  pos + n <= List.length orig
  /\ scanAt re rep orig pos
     = expandReplacement (firstn n (skipn pos orig)) (firstn pos orig)
         (skipn (pos + n) orig) rep
         ++ scanAt re rep orig (pos + n).
Proof.
  intros Hu Hm n. unfold matchAtPos in Hm.
  pose proof (matchesAt_length _ _ Hm) as Hl. fold n in Hl.
  rewrite length_skipn in Hl.
  assert (Hn : 1 <= n) by (subst n; destruct (re_units re); simpl; [congruence|lia]).
  split; [lia|].
  destruct (skipn_cons_nth orig pos) as (c & Hc & Hs); [lia|].
  unfold scanAt at 1. rewrite Hs in *. cbn [replaceScan]. rewrite Hm. fold n.
  f_equal. rewrite <- Hc.
  change (nth_error orig pos) with (prevAt orig (S pos)).
  rewrite scan_skip by lia. f_equal. lia.
Qed.

End Scan.

Lemma skipn_app_exact (a r : jsstring) : skipn (List.length a) (a ++ r) = r.
Proof. induction a; simpl; auto. Qed.

Lemma firstn_app_exact (a r : jsstring) : firstn (List.length a) (a ++ r) = a.
Proof. induction a; simpl; [reflexivity | f_equal; assumption]. Qed.

Lemma skipn_app_plus (a r : jsstring) (k : nat) :
  skipn (List.length a + k) (a ++ r) = skipn k r.
Proof. induction a; simpl; auto. Qed.

Lemma matchPositions_spec (re : regex) (s : jsstring) (i : nat) :
  i < List.length s ->
  matchAtPos re s i = true <-> In i (matchPositions re s).
Proof.
  intros H. unfold matchPositions. rewrite filter_In, in_seq.
  split; [intros E; split; [lia | exact E] | intros [_ E]; exact E].
Qed.

(** A [g]-flagged replacement rewrites both of two matches. *)
Lemma replaceAll_two (re : regex) (rep a w1 b w2 c : jsstring) :
  let n := List.length (re_units re) in
  let s := a ++ w1 ++ b ++ w2 ++ c in
  re_units re <> [] ->
  List.length w1 = n ->
  List.length w2 = n ->
  matchPositions re s = [List.length a; List.length a + n + List.length b] ->
  replaceAll re rep s
  = a ++ expandReplacement w1 a (b ++ w2 ++ c) rep
      ++ b ++ expandReplacement w2 (a ++ w1 ++ b) c rep
      ++ c.
Proof.
  intros n s Hu H1 H2 Hp.
  set (la := List.length a) in *. set (lb := List.length b) in *.
  assert (Hlen : List.length s = la + n + lb + n + List.length c)
    by (subst s la lb; rewrite !length_app; lia).
  assert (Hn : 1 <= n)
    by (subst n; destruct (re_units re); simpl; [congruence|lia]).
  assert (Hno : forall i, i < List.length s -> i <> la -> i <> la + n + lb ->
                          matchAtPos re s i = false).
  { intros i Hi Ha Hb. destruct (matchAtPos re s i) eqn:E; [|reflexivity].
    apply matchPositions_spec in E; [|exact Hi]. rewrite Hp in E.
    simpl in E. destruct E as [E|[E|[]]]; congruence. }
  assert (Hm1 : matchAtPos re s la = true).
  { apply matchPositions_spec; [lia|]. rewrite Hp. left; reflexivity. }
  assert (Hm2 : matchAtPos re s (la + n + lb) = true).
  { apply matchPositions_spec; [lia|]. rewrite Hp. right; left; reflexivity. }
  assert (S1 : skipn la s = w1 ++ b ++ w2 ++ c) by apply skipn_app_exact.
  assert (S2 : skipn (la + n) s = b ++ w2 ++ c).
  { subst s la. rewrite skipn_app_plus, <- H1. apply skipn_app_exact. }
  assert (S3 : skipn (la + n + lb) s = w2 ++ c).
  { replace (la + n + lb) with (lb + (la + n)) by lia.
    rewrite <- skipn_skipn, S2. apply skipn_app_exact. }
  assert (S4 : skipn (la + n + lb + n) s = c).
  { replace (la + n + lb + n) with (n + (la + n + lb)) by lia.
    rewrite <- skipn_skipn, S3, <- H2. apply skipn_app_exact. }
  change (replaceAll re rep s) with (scanAt re rep s 0).
  rewrite (scan_nomatch_run re rep s la 0) by (try lia; intros i Hi; apply Hno; lia).
  simpl skipn. simpl Nat.add.
  replace (firstn la s) with a by (symmetry; apply firstn_app_exact).
  f_equal.
  destruct (scan_match re rep s la Hu Hm1) as [_ E1]. fold n in E1.
  rewrite E1, S1, S2, <- H1, firstn_app_exact, H1.
  replace (firstn la s) with a by (symmetry; apply firstn_app_exact).
  f_equal.
  rewrite (scan_nomatch_run re rep s lb (la + n)) by (try lia; intros i Hi; apply Hno; lia).
  rewrite S2. unfold lb at 1. rewrite firstn_app_exact. f_equal.
  destruct (scan_match re rep s (la + n + lb) Hu Hm2) as [_ E2]. fold n in E2.
  rewrite E2, S3, S4, <- H2, firstn_app_exact, H2.
  replace (firstn (la + n + lb) s) with (a ++ w1 ++ b).
  2:{ subst s la lb n. rewrite <- H1.
      replace (a ++ w1 ++ b ++ w2 ++ c) with ((a ++ w1 ++ b) ++ w2 ++ c)
        by (rewrite <- !app_assoc; reflexivity).
      replace (List.length a + List.length w1 + List.length b)
        with (List.length (a ++ w1 ++ b)) by (rewrite !length_app; lia).
      symmetry; apply firstn_app_exact. }
  f_equal.
  rewrite (scan_nomatch_run re rep s (List.length c) (la + n + lb + n))
    by (try lia; intros i Hi; apply Hno; lia).
  rewrite S4, firstn_all.
  replace (la + n + lb + n + List.length c) with (List.length s) by lia.
  rewrite scan_end, app_nil_r. reflexivity.
Qed.

(** ** Scope of translation substitution *)

(** The claim C5 fails for the word [Precautions].  The displayed text
    has the word in a user line and in the header; generating again for a
    patient whose language is Afrikaans keeps the English text and
    translates the word at both places, so that no occurrence is left,
    where the claim leaves the second one. *)
Lemma substitution_replaces_later_occurrence :
  let page := pageOf afrikaans precautionsTwiceText in
  let r :=
    generateInstruction (Utils.lookupsOf sampleTables) sampleForm page page in
  Display.english (instructionDisplay r) = lit
"Paracetamol
ℹ️ Take 500mg tablet three times daily every 8 hours.
See Precautions below
🕜 morning 🌅, afternoon ☀️, evening 🌆

Precautions
• Take with food
"
  /\ occurrences (lit "Precautions") (Display.english (instructionDisplay r))
     = 2
  /\ Display.translated (instructionDisplay r) = lit
"Paracetamol
ℹ️ Vat tablet van 500mg drie keer per dag elke 8 uur.
See Voorsorgmaatreëls below
🕜 morning 🌅, afternoon ☀️, evening 🌆

Voorsorgmaatreëls
• Neem saam met kos
"
  /\ occurrences (lit "Precautions")
       (Display.translated (instructionDisplay r))
     = 0.
Proof. vm_compute. repeat split. Qed.

(** C5, amended.  The dosage, the lowercased frequency and interval and
    each precaution are replaced at their first occurrence in the whole
    text, the text before and after staying as it is; the verb after the
    marker glyph, the word [Precautions] and the time-of-day words are
    replaced at every match: of two matches, both. *)
Theorem translation_substitution_scope (lk : lookups)
  (formData : MedicationForm) (language : jsstring) :
  (forall t a b,
      nonEmpty (Form.dosage formData) = true ->
      translateDosage lk (Form.dosage formData) language = Some t ->
      noEarlierOccurrence (Form.dosage formData) a = true ->
      substituteDosage lk formData language (a ++ Form.dosage formData ++ b)
      = Some (a ++ expandReplacement (Form.dosage formData) a b t ++ b))
  /\ (forall t a b,
         let p := toLowerCase (Form.frequency formData) in
         nonEmpty (Form.frequency formData) = true ->
         translateFrequency lk (Form.frequency formData) language = Some t ->
         noEarlierOccurrence p a = true ->
         substituteFrequency lk formData language (a ++ p ++ b)
         = Some (a ++ expandReplacement p a b (toLowerCase t) ++ b))
  /\ (forall t a b,
         let p := toLowerCase (Form.interval formData) in
         nonEmpty (Form.interval formData) = true ->
         translateInterval lk (Form.interval formData) language = Some t ->
         noEarlierOccurrence p a = true ->
         substituteInterval lk formData language (a ++ p ++ b)
         = Some (a ++ expandReplacement p a b (toLowerCase t) ++ b))
  /\ (forall translated i precaution rest t a b,
         nth_error translated i = Some t ->
         nonEmpty t = true ->
         noEarlierOccurrence precaution a = true ->
         substitutePrecautionsFrom translated i (precaution :: rest)
           (a ++ precaution ++ b)
         = substitutePrecautionsFrom translated (S i) rest
             (a ++ expandReplacement precaution a b t ++ b))
  /\ (forall t a w1 b w2 c,
         translateTake lk language = Some t ->
         twoMatches reTakeUpper a w1 b w2 c ->
         substituteTake lk language (a ++ w1 ++ b ++ w2 ++ c)
         = Some (replaceAll reTakeLower (infoGlyph ++ space ++ t)
                   (bothReplaced (infoGlyph ++ space ++ capitalize t)
                      a w1 b w2 c)))
  /\ (forall t a w1 b w2 c,
         translatePrecautionsHeader lk language = Some t ->
         twoMatches rePrecautions a w1 b w2 c ->
         substitutePrecautionsWord lk language (a ++ w1 ++ b ++ w2 ++ c)
         = Some (bothReplaced t a w1 b w2 c))
  /\ (forall timeWord rest t a w1 b w2 c,
         nonEmpty timeWord = true ->
         includes timeWord (toLowerCase (Form.timeOfDay formData)) = true ->
         translateTimeOfDay lk (capitalize timeWord) language = Some t ->
         twoMatches (reTimeWord timeWord) a w1 b w2 c ->
         substituteTimeWords lk (Form.timeOfDay formData) language
           (timeWord :: rest) (a ++ w1 ++ b ++ w2 ++ c)
         = substituteTimeWords lk (Form.timeOfDay formData) language rest
             (bothReplaced (toLowerCase t) a w1 b w2 c)).
Proof.
  repeat split.
  - intros t a b Hd Ht Ha. unfold substituteDosage. rewrite Hd, Ht. simpl.
    rewrite replaceFirst_first by exact Ha. reflexivity.
  - intros t a b p Hf Ht Ha. unfold substituteFrequency. rewrite Hf, Ht. simpl.
    fold p. rewrite replaceFirst_first by exact Ha. reflexivity.
  - intros t a b p Hi Ht Ha. unfold substituteInterval. rewrite Hi, Ht. simpl.
    fold p. rewrite replaceFirst_first by exact Ha. reflexivity.
  - intros translated i precaution rest t a b Hn Ht Ha. simpl.
    rewrite Hn, Ht, replaceFirst_first by exact Ha. reflexivity.
  - intros t a w1 b w2 c Ht (H1 & H2 & Hp). unfold substituteTake.
    rewrite Ht. simpl bind.
    rewrite (replaceAll_two reTakeUpper _ a w1 b w2 c);
      [reflexivity | discriminate | exact H1 | exact H2 | exact Hp].
  - intros t a w1 b w2 c Ht (H1 & H2 & Hp). unfold substitutePrecautionsWord.
    rewrite Ht. simpl bind.
    rewrite (replaceAll_two rePrecautions _ a w1 b w2 c);
      [reflexivity | discriminate | exact H1 | exact H2 | exact Hp].
  - intros timeWord rest t a w1 b w2 c Hw Hi Ht (H1 & H2 & Hp).
    simpl substituteTimeWords. rewrite Hi, Ht. simpl bind.
    rewrite (replaceAll_two (reTimeWord timeWord) _ a w1 b w2 c);
      [reflexivity | apply nonEmpty_true, Hw | exact H1 | exact H2 | exact Hp].
Qed.

Lemma translation_substitution_scope_witness :
  (let '(a, b) := dosageTwice in
   substituteDosage (Utils.lookupsOf sampleTables) sampleForm afrikaans
     (a ++ Form.dosage sampleForm ++ b)
   = Some (a ++ expandReplacement (Form.dosage sampleForm) a b
                  (lit "tablet van 500mg") ++ b))
  /\ (let '(a, b, c) := precautionsTwice in
      substitutePrecautionsWord (Utils.lookupsOf sampleTables) afrikaans
        (a ++ precautionsWord ++ b ++ precautionsWord ++ c)
      = Some (bothReplaced voorsorgmaatreels a precautionsWord b
                precautionsWord c)).
Proof.
  split.
  - apply (proj1 (translation_substitution_scope
                    (Utils.lookupsOf sampleTables) sampleForm afrikaans));
      reflexivity.
  - apply (proj1 (proj2 (proj2 (proj2 (proj2 (proj2
             (translation_substitution_scope (Utils.lookupsOf sampleTables)
                sampleForm afrikaans)))))) voorsorgmaatreels);
      [reflexivity |].
    repeat split.
Defined.

(** ** Lookups that are not available or fail *)

(** While the vocabulary is not loaded the translated pane shows the
    loading text and the English text of the render is kept. *)
Lemma generateTranslation_loading (lk : lookups) (text language : jsstring)
  (formData : MedicationForm) (e : option InstructionDisplay)
  (cl st : component) :
  nonEmpty text = true ->
  nonEmpty language = true ->
  translationsLoaded cl && medicationsLoaded cl = false ->
  let r := generateTranslation lk text language formData e cl st in
  Display.translated (instructionDisplay r) = loadingText
  /\ Display.english (instructionDisplay r)
     = Display.english (instructionDisplay cl).
Proof.
  intros Ht Hl Hload. unfold generateTranslation. rewrite Ht, Hl.
  cbn [negb orb].
  destruct (translationsLoaded cl), (medicationsLoaded cl);
    try discriminate; simpl; auto.
Qed.

(** When a lookup fails the translated pane holds the error text and
    nothing else. *)
Lemma generateTranslation_failure (lk : lookups) (text language : jsstring)
  (formData : MedicationForm) (d : InstructionDisplay) (cl st : component) :
  nonEmpty text = true ->
  nonEmpty language = true ->
  translationsLoaded cl = true ->
  medicationsLoaded cl = true ->
  translateText lk text language formData = None ->
  instructionDisplay
    (generateTranslation lk text language formData (Some d) cl st)
  = Display.mk (Display.english d) translationErrorText language.
Proof.
  intros Ht Hl H1 H2 Hf. unfold generateTranslation.
  rewrite Ht, Hl, H1, H2, Hf. reflexivity.
Qed.

(** The lookups of the page recover from a table that cannot be read:
    the term stays in English and the pane shows no error. *)
Example unreadable_tables_show_no_error :
  let d := instructionDisplay sampleComponent in
  let r :=
    generateTranslation (Utils.lookupsOf (fun _ => None)) sampleText afrikaans
      sampleForm (Some d) sampleComponent sampleComponent in
  Display.translated (instructionDisplay r) = lit
"Aspirin
ℹ️ Vat 1 tablet daily. with water
after breakfast
🕜 morning 🌅
keep dry

Voorsorgmaatreëls
• Take with food
see doctor"
  /\ includes translationErrorText (Display.translated (instructionDisplay r))
     = false.
Proof. vm_compute. split; reflexivity. Qed.

(** C9 for a patient whose language is spelt [constructor]: the static
    table answers the word "take" with the function every object inherits
    under that name, which the reply leaves out; [charAt] on the missing
    word raises, and the translated pane shows the error text only; the
    English text is not in it. *)
Lemma generateTranslation_error_pane :
  let d := instructionDisplay sampleComponent in
  let r :=
    generateTranslation (Utils.lookupsOf sampleTables) sampleText
      (lit "constructor") sampleForm (Some d) sampleComponent
      sampleComponent in
  translateTake (Utils.lookupsOf sampleTables) (lit "constructor") = None
  /\ Display.translated (instructionDisplay r)
     = lit "Translation error - showing English version"
  /\ includes sampleText (Display.translated (instructionDisplay r)) = false
  /\ Display.english (instructionDisplay r) = sampleText.
Proof. vm_compute. repeat split. Qed.

(** ** Blank lines in user content *)

Lemma appendLine_blank_on_empty : appendLine [] [] = [].
Proof. reflexivity. Qed.

(** C6 at a text with a blank line after the name: the blank line is not
    in the slot, and the next regeneration removes it from the text. *)
Lemma parse_drops_leading_blank_line :
  let text := lit
"Aspirin

after breakfast
ℹ️ Take 1 tablet daily." in
  UC.afterMedication (userContent (parseInstructionContent text))
  = lit "after breakfast"
  /\ reconstructInstructionContent (parseInstructionContent text)
     = lit
"Aspirin
after breakfast
ℹ️ Take 1 tablet daily.".
Proof. vm_compute. split; reflexivity. Qed.

(** ** Lines of a text *)

Lemma split_cons (s : jsstring) : exists l ls, split s = l :: ls.
Proof.
  induction s as [|c s (l & ls & E)]; simpl; [eauto|].
  destruct (N.eqb c newline); [eauto|]. rewrite E. eauto.
Qed.

Lemma split_app_nl (u r : jsstring) : split (u ++ nl ++ r) = split u ++ split r.
Proof.
  induction u as [|c u IH]; simpl; [reflexivity|].
  change (u ++ newline :: r) with (u ++ nl ++ r). rewrite IH.
  destruct (N.eqb c newline); [reflexivity|].
  destruct (split_cons u) as (l & ls & E). rewrite E. reflexivity.
Qed.

Lemma split_noNewline (l : jsstring) : noNewline l = true -> split l = [l].
Proof.
  induction l as [|c l IH]; simpl; [reflexivity|].
  intros H. apply andb_prop in H. destruct H as [Hc Hl].
  apply negb_true_iff in Hc. rewrite Hc, (IH Hl). reflexivity.
Qed.

Lemma split_lines_noNewline (s l : jsstring) :
  In l (split s) -> noNewline l = true.
Proof.
  revert l; induction s as [|c s IH]; simpl; intros l H.
  - destruct H as [<-|[]]. reflexivity.
  - destruct (N.eqb c newline) eqn:Ec.
    + destruct H as [<-|H]; [reflexivity | apply IH, H].
    + destruct (split_cons s) as (l0 & ls & E). rewrite E in *.
      destruct H as [<-|H].
      * simpl. rewrite Ec. simpl. apply IH. left; reflexivity.
      * apply IH. right; exact H.
Qed.

Lemma parseLines_app (a b : list jsstring) (st : parseState) :
  parseLines (a ++ b) st = parseLines b (parseLines a st).
Proof. apply fold_left_app. Qed.

Lemma parseText_app_nl (u r : jsstring) (st : parseState) :
  parseText (u ++ nl ++ r) st = parseText r (parseText u st).
Proof. unfold parseText. rewrite split_app_nl. apply parseLines_app. Qed.

Lemma parseText_line (l : jsstring) (st : parseState) :
  noNewline l = true -> parseText l st = parseLine st l.
Proof. intros H. unfold parseText. rewrite (split_noNewline l H). reflexivity. Qed.

(** ** Lines that become user content *)

Lemma addUserContent_slot (line : jsstring) (st : parseState) :
  addUserContent line st
  = match currentSection st, precautionsStarted st with
    | precautions, false => st
    | c, _ =>
        mkParse (p_sections st)
          (setSlot c (appendLine (slotOf c (p_userContent st)) line)
             (p_userContent st))
          c (medicationNameFound st) (precautionsStarted st)
    end.
Proof.
  unfold addUserContent. destruct st as [s u c f ps]; simpl.
  destruct c; try reflexivity; destruct ps; reflexivity.
Qed.

Lemma startsWith_nil_false (p : jsstring) :
  nonEmpty p = true -> startsWith p [] = false.
Proof. destruct p; [discriminate | reflexivity]. Qed.

Lemma parseLine_blank (st : parseState) (line : jsstring) :
  blankLine line = true -> parseLine st line = addUserContent line st.
Proof.
  unfold blankLine, parseLine. intros H. apply negb_true_iff in H.
  rewrite H. reflexivity.
Qed.

Lemma parseLine_plain (st : parseState) (line : jsstring) :
  medicationNameFound st = true ->
  plainLine line = true ->
  parseLine st line = addUserContent line st.
Proof.
  unfold plainLine, parseLine. intros Hf H.
  apply andb_prop in H. destruct H as [H Hb].
  apply andb_prop in H. destruct H as [H Hh].
  apply andb_prop in H. destruct H as [Hi Hc].
  apply negb_true_iff in Hi, Hc, Hh, Hb.
  rewrite Hf, Hi, Hc, Hh, Hb. simpl.
  rewrite andb_false_r. destruct (nonEmpty (trim line)); reflexivity.
Qed.

Lemma parseLine_cursorInv (st : parseState) (line : jsstring) :
  cursorInv st -> cursorInv (parseLine st line).
Proof.
  unfold cursorInv, parseLine. intros H.
  destruct (medicationNameFound st) eqn:Ef.
  - assert (Ha : medicationNameFound (addUserContent line st) = true).
    { rewrite addUserContent_slot.
      destruct (currentSection st), (precautionsStarted st); simpl; exact Ef. }
    simpl.
    repeat match goal with
           | |- context [if ?b then _ else _] => destruct b
           end; simpl; try rewrite Ef; try rewrite Ha; intros; discriminate.
  - rewrite (H eq_refl). simpl.
    destruct (nonEmpty (trim line)); simpl; [intros; discriminate|].
    rewrite addUserContent_slot, (H eq_refl). simpl. reflexivity.
Qed.

Lemma parseLine_found_mono (st : parseState) (line : jsstring) :
  medicationNameFound st = true ->
  medicationNameFound (parseLine st line) = true.
Proof.
  intros Ef. unfold parseLine.
  assert (Ha : medicationNameFound (addUserContent line st) = true).
  { rewrite addUserContent_slot.
    destruct (currentSection st), (precautionsStarted st); simpl; exact Ef. }
  rewrite Ef. simpl.
  repeat match goal with
         | |- context [if ?b then _ else _] => destruct b
         end; simpl; auto.
Qed.

Lemma parseLine_found_nonblank (st : parseState) (line : jsstring) :
  cursorInv st ->
  nonEmpty (trim line) = true ->
  medicationNameFound (parseLine st line) = true.
Proof.
  intros Hinv Hn. destruct (medicationNameFound st) eqn:Ef.
  - apply parseLine_found_mono, Ef.
  - unfold parseLine. rewrite Hn, Ef, (Hinv Ef). reflexivity.
Qed.

Lemma parseLines_cursorInv (ls : list jsstring) (st : parseState) :
  cursorInv st -> cursorInv (parseLines ls st).
Proof.
  revert st; induction ls as [|l ls IH]; intros st H; simpl; auto.
  apply IH, parseLine_cursorInv, H.
Qed.

Lemma parseLines_found_mono (ls : list jsstring) (st : parseState) :
  medicationNameFound st = true ->
  medicationNameFound (parseLines ls st) = true.
Proof.
  revert st; induction ls as [|l ls IH]; intros st H; simpl; auto.
  apply IH, parseLine_found_mono, H.
Qed.

Lemma parseLines_found (ls : list jsstring) (st : parseState) :
  cursorInv st ->
  existsb (fun l => nonEmpty (trim l)) ls = true ->
  medicationNameFound (parseLines ls st) = true.
Proof.
  revert st; induction ls as [|l ls IH]; intros st Hinv H; simpl in *;
    [discriminate|].
  destruct (nonEmpty (trim l)) eqn:El.
  - apply parseLines_found_mono, parseLine_found_nonblank; assumption.
  - apply IH; [apply parseLine_cursorInv, Hinv | exact H].
Qed.

(** ** A user line between the dosage line and the time line *)

Lemma startsWith_nonEmpty (p s : jsstring) :
  nonEmpty p = true -> startsWith p s = true -> nonEmpty s = true.
Proof. destruct p, s; simpl; congruence. Qed.

Lemma parseLine_dosage (st : parseState) (line : jsstring) :
  medicationNameFound st = true ->
  startsWith infoGlyph (trim line) = true ->
  parseLine st line
  = mkParse (splitDosageLine (trim line) (p_sections st)) (p_userContent st)
      afterDosage true (precautionsStarted st).
Proof.
  intros Hf Hi. unfold parseLine.
  rewrite (startsWith_nonEmpty infoGlyph (trim line) eq_refl Hi), Hf, Hi.
  reflexivity.
Qed.

Lemma parseLines_plain_cursor (ls : list jsstring) (st : parseState) :
  medicationNameFound st = true ->
  forallb plainLine ls = true ->
  medicationNameFound (parseLines ls st) = true
  /\ currentSection (parseLines ls st) = currentSection st
  /\ precautionsStarted (parseLines ls st) = precautionsStarted st.
Proof.
  revert st; induction ls as [|l ls IH]; intros st Hf H; simpl in *; auto.
  apply andb_prop in H. destruct H as [Hl Hls].
  rewrite (parseLine_plain st l Hf Hl).
  assert (E : medicationNameFound (addUserContent l st) = true
              /\ currentSection (addUserContent l st) = currentSection st
              /\ precautionsStarted (addUserContent l st) = precautionsStarted st).
  { rewrite addUserContent_slot.
    destruct (currentSection st) eqn:Ec, (precautionsStarted st) eqn:Ep;
      simpl; auto. }
  destruct E as (E1 & E2 & E3).
  destruct (IH (addUserContent l st) E1 Hls) as (I1 & I2 & I3).
  rewrite I1, I2, I3. auto.
Qed.

Lemma parseLine_afterDosage_grows (st : parseState) (line : jsstring) :
  let slot := UC.afterDosage (p_userContent st) in
  let slot' := UC.afterDosage (p_userContent (parseLine st line)) in
  slot' = slot \/ slot' = appendLine slot line.
Proof.
  simpl. unfold parseLine.
  assert (Ha : UC.afterDosage (p_userContent (addUserContent line st))
               = UC.afterDosage (p_userContent st)
               \/ UC.afterDosage (p_userContent (addUserContent line st))
                  = appendLine (UC.afterDosage (p_userContent st)) line).
  { rewrite addUserContent_slot.
    destruct (currentSection st), (precautionsStarted st); simpl; auto. }
  repeat match goal with
         | |- context [if ?b then _ else _] => destruct b
         end; simpl; auto.
Qed.

Lemma holdsLine_appendLine (U slot line : jsstring) :
  holdsLine U slot -> nonEmpty U = true -> holdsLine U (appendLine slot line).
Proof.
  intros (a & b & -> & Ha & Hb) HU. unfold appendLine.
  assert (E : nonEmpty (a ++ U ++ b) = true)
    by (destruct a; [destruct U; [discriminate|reflexivity] | reflexivity]).
  rewrite E. exists a, (b ++ nl ++ line). split.
  - rewrite <- !app_assoc. reflexivity.
  - split; [exact Ha|]. right. destruct Hb as [->|(b' & ->)].
    + exists line. reflexivity.
    + exists (b' ++ nl ++ line). rewrite <- !app_assoc. reflexivity.
Qed.

Lemma holdsLine_new (U slot : jsstring) : holdsLine U (appendLine slot U).
Proof.
  unfold appendLine. exists (slot ++ if nonEmpty slot then nl else []), [].
  split; [rewrite app_nil_r, <- app_assoc; reflexivity|].
  split; [|left; reflexivity].
  destruct slot as [|c slot]; simpl.
  - left; reflexivity.
  - right. exists (c :: slot). reflexivity.
Qed.

Lemma parseLines_holdsLine (U : jsstring) (ls : list jsstring)
  (st : parseState) :
  nonEmpty U = true ->
  holdsLine U (UC.afterDosage (p_userContent st)) ->
  holdsLine U (UC.afterDosage (p_userContent (parseLines ls st))).
Proof.
  intros HU. revert st; induction ls as [|l ls IH]; intros st H; simpl; auto.
  apply IH. destruct (parseLine_afterDosage_grows st l) as [E|E];
    simpl in E; rewrite E; [exact H | apply holdsLine_appendLine; assumption].
Qed.

(** The parser files a user line that follows the dosage line, with only
    plain lines in between, in the slot after the dosage line. *)
Lemma parse_user_line_afterDosage (pre mid rest : list jsstring)
  (d U : jsstring) :
  existsb (fun l => nonEmpty (trim l)) pre = true ->
  startsWith infoGlyph (trim d) = true ->
  forallb plainLine mid = true ->
  plainLine U = true ->
  nonEmpty U = true ->
  holdsLine U
    (UC.afterDosage
       (p_userContent (parseLines (pre ++ d :: mid ++ U :: rest) parseInit))).
Proof.
  intros Hpre Hd Hmid HU HUn.
  rewrite parseLines_app. simpl. set (st1 := parseLines pre parseInit).
  assert (Hf1 : medicationNameFound st1 = true).
  { apply parseLines_found; [intros _; reflexivity | exact Hpre]. }
  rewrite (parseLine_dosage st1 d Hf1 Hd).
  set (st2 := mkParse _ _ _ _ _).
  rewrite parseLines_app.
  destruct (parseLines_plain_cursor mid st2 eq_refl Hmid) as (F3 & C3 & _).
  set (st3 := parseLines mid st2) in *. simpl.
  apply parseLines_holdsLine; [exact HUn|].
  rewrite (parseLine_plain st3 U F3 HU), addUserContent_slot, C3.
  simpl. apply holdsLine_new.
Qed.

Lemma endsWith_nl_snoc (s : jsstring) : endsWith nl (s ++ nl) = true.
Proof. unfold endsWith. rewrite rev_app_distr. reflexivity. Qed.

Lemma endsWith_nl_inv (s : jsstring) :
  endsWith nl s = true -> exists s', s = s' ++ nl.
Proof.
  unfold endsWith. change (rev nl) with [newline]. intros H.
  destruct (rev s) as [|c r] eqn:E; cbn [startsWith] in H; [discriminate|].
  apply andb_prop in H. destruct H as [H _].
  apply N.eqb_eq in H. subst c.
  exists (rev r). rewrite <- (rev_involutive s), E. reflexivity.
Qed.

Lemma endsWith_nl_app (x y : jsstring) :
  nonEmpty y = true -> endsWith nl (x ++ y) = endsWith nl y.
Proof.
  intros H. unfold endsWith. rewrite rev_app_distr.
  destruct (rev y) as [|c r] eqn:E.
  - apply (f_equal (@rev N)) in E. rewrite rev_involutive in E. subst y.
    discriminate.
  - reflexivity.
Qed.

Lemma noNewline_endsWith (l : jsstring) :
  noNewline l = true -> endsWith nl l = false.
Proof.
  intros H. destruct (endsWith nl l) eqn:E; [|reflexivity].
  apply endsWith_nl_inv in E. destruct E as (s' & ->).
  unfold noNewline in H. rewrite forallb_app in H.
  apply andb_prop in H. destruct H as [_ H]. discriminate H.
Qed.

(** The slot after the dosage line as [reconstructInstructionContent]
    writes it before a time line. *)
Lemma emitSlot_holdsLine (U slot : jsstring) :
  holdsLine U slot ->
  nonEmpty U = true ->
  noNewline U = true ->
  exists a b, emitSlot slot true [] = a ++ U ++ nl ++ b
              /\ lineStart a /\ lineStart b.
Proof.
  intros (a & b & -> & Ha & Hb) HU Hnl. unfold emitSlot.
  assert (E : nonEmpty (a ++ U ++ b) = true)
    by (destruct a; [destruct U; [discriminate|reflexivity] | reflexivity]).
  rewrite E. cbn [app]. rewrite andb_true_r.
  destruct Hb as [->|(b' & ->)].
  - rewrite app_nil_r, endsWith_nl_app by exact HU.
    rewrite (noNewline_endsWith U Hnl). simpl.
    exists a, []. split; [rewrite <- app_assoc; reflexivity|].
    split; [exact Ha | left; reflexivity].
  - destruct (endsWith nl (a ++ U ++ nl ++ b')) eqn:Ee; simpl.
    + exists a, b'. split; [rewrite app_nil_r; reflexivity|].
      split; [exact Ha|].
      destruct b' as [|c b']; [left; reflexivity|].
      right. rewrite !app_assoc, endsWith_nl_app in Ee by reflexivity.
      apply endsWith_nl_inv, Ee.
    + exists a, (b' ++ nl). split; [rewrite <- !app_assoc; reflexivity|].
      split; [exact Ha | right; eauto].
Qed.

Lemma newDosageLine_nonEmpty (formData : MedicationForm) :
  nonEmpty (newDosageLine formData) = true.
Proof. reflexivity. Qed.

Lemma newTimeOfDay_nonEmpty (formData : MedicationForm) :
  nonEmpty (Form.timeOfDay formData) = true ->
  nonEmpty (newTimeOfDay formData) = true.
Proof. unfold newTimeOfDay. intros ->. reflexivity. Qed.

Lemma regenerated_nonEmpty (formData : MedicationForm)
  (current : InstructionStructure) :
  nonEmpty (reconstructInstructionContent (updatedStructure formData current))
  = true.
Proof.
  destruct (reconstruct_order (updatedStructure formData current))
    as (a & b & c & d & e & H).
  rewrite H. cbn [updatedStructure sections Sec.dosageLine].
  destruct a; [|reflexivity].
  destruct (Sec.medicationName _); [|reflexivity].
  destruct b; reflexivity.
Qed.

(** The displayed English text after a regeneration, unless the
    translation is still waiting for the vocabulary. *)
Lemma generateInstruction_display (lk : lookups) (formData : MedicationForm)
  (cl st : component) :
  nonEmpty (Form.name formData) = true ->
  nonEmpty (Form.dosage formData) = true ->
  nonEmpty (Form.frequency formData) = true ->
  (nonEmpty (patientLanguage cl) = true ->
   translationsLoaded cl && medicationsLoaded cl = true) ->
  Display.english (instructionDisplay (generateInstruction lk formData cl st))
  = reconstructInstructionContent
      (updatedStructure formData
         (parseInstructionContent (Display.english (instructionDisplay cl)))).
Proof.
  intros Hn Hd Hf Hload. unfold generateInstruction.
  rewrite Hn, Hd, Hf. cbn [negb andb orb].
  destruct (nonEmpty (patientLanguage cl)) eqn:El; [|reflexivity].
  cbn [andb]. unfold generateTranslation.
  rewrite regenerated_nonEmpty, El. cbn [negb orb].
  specialize (Hload eq_refl). apply andb_prop in Hload.
  destruct Hload as [-> ->]. cbn [negb orb].
  match goal with
  | |- context [translateText ?a ?b ?c ?d] => destruct (translateText a b c d)
  end; reflexivity.
Qed.

(** C2, amended.  Let the displayed text have a non-blank line before its
    dosage line, and after the dosage line, separated from it by plain
    lines only, a non-empty plain line [U].  Regenerating with name,
    dosage, frequency and time of day set gives a text in which [U] is
    still a line of its own after the dosage line, now composed from the
    new lowercased frequency, and before the time line. *)
Theorem regeneration_keeps_user_line (lk : lookups) (formData : MedicationForm)
  (cl st : component) (pre mid rest : list jsstring) (d U : jsstring) :
  nonEmpty (Form.name formData) = true ->
  nonEmpty (Form.dosage formData) = true ->
  nonEmpty (Form.frequency formData) = true ->
  nonEmpty (Form.timeOfDay formData) = true ->
  split (Display.english (instructionDisplay cl)) = pre ++ d :: mid ++ U :: rest ->
  existsb (fun l => nonEmpty (trim l)) pre = true ->
  startsWith infoGlyph (trim d) = true ->
  forallb plainLine mid = true ->
  plainLine U = true ->
  nonEmpty U = true ->
  let r := generateInstruction lk formData cl st in
  let inline := Sec.dosageLineUserContent (sections (instructionStructure r)) in
  exists P A B Q,
    Gen.english (lastGenerated (instructionStructure r))
    = P ++ newDosageLine formData
        ++ (if nonEmpty inline then space ++ inline else [])
        ++ nl ++ A ++ U ++ nl ++ B ++ newTimeOfDay formData ++ Q
    /\ lineStart A /\ lineStart B
    /\ ((nonEmpty (patientLanguage cl) = true ->
         translationsLoaded cl && medicationsLoaded cl = true) ->
        Display.english (instructionDisplay r)
        = Gen.english (lastGenerated (instructionStructure r))).
Proof.
  intros Hn Hd Hf Ht Hsplit Hpre Hdl Hmid HU HUn r inline.
  destruct (generateInstruction_structure lk formData cl st Hn Hd Hf)
    as (Hs & Hu & Hg).
  fold r in Hs, Hu, Hg.
  set (current :=
         parseInstructionContent (Display.english (instructionDisplay cl))) in *.
  assert (Hold : holdsLine U (UC.afterDosage (userContent current))).
  { unfold current, parseInstructionContent. cbn [userContent].
    rewrite Hsplit. apply parse_user_line_afterDosage; assumption. }
  assert (HUnl : noNewline U = true).
  { apply (split_lines_noNewline (Display.english (instructionDisplay cl))).
    rewrite Hsplit. apply in_or_app. right. right.
    apply in_or_app. right. left. reflexivity. }
  destruct (emitSlot_holdsLine U _ Hold HUn HUnl) as (A & B & HE & HA & HB).
  assert (Hdisp :
            (nonEmpty (patientLanguage cl) = true ->
             translationsLoaded cl && medicationsLoaded cl = true) ->
            Display.english (instructionDisplay r)
            = Gen.english (lastGenerated (instructionStructure r))).
  { intros Hload. rewrite Hg. unfold r.
    apply generateInstruction_display; assumption. }
  assert (HT : exists P Q,
             reconstructInstructionContent (updatedStructure formData current)
             = P ++ newDosageLine formData
                 ++ (if nonEmpty (Sec.dosageLineUserContent (sections current))
                     then space ++ Sec.dosageLineUserContent (sections current)
                     else [])
                 ++ nl ++ A ++ U ++ nl ++ B ++ newTimeOfDay formData ++ Q).
  { rewrite reconstruct_normal. unfold headContent. cbv zeta.
    cbn [updatedStructure sections userContent Sec.medicationName
         Sec.dosageLine Sec.dosageLineUserContent Sec.timeOfDay].
    rewrite (newTimeOfDay_nonEmpty formData Ht), newDosageLine_nonEmpty.
    rewrite !orb_true_r, HE.
    exists (emitSlot (UC.beforeMedication (userContent current))
              (nonEmpty (beforeComma (Form.name formData))) []
            ++ beforeComma (Form.name formData)
            ++ (if nonEmpty (beforeComma (Form.name formData)) then nl else [])
            ++ emitSlot (UC.afterMedication (userContent current)) true []).
    eexists. rewrite <- !app_assoc. reflexivity. }
  destruct HT as (P & Q & HT).
  exists P, A, B, Q. subst inline. rewrite Hs, Hg.
  cbn [updatedStructure sections Sec.dosageLineUserContent].
  split; [exact HT|]. split; [exact HA|]. split; [exact HB|].
  rewrite <- Hg. exact Hdisp.
Qed.

(** ** Reading back the reassembled text *)

Lemma rev_last (s : jsstring) :
  s <> [] -> rev s = last s 0%N :: rev (removelast s).
Proof.
  intros H. rewrite (app_removelast_last 0%N H) at 1.
  rewrite rev_app_distr. reflexivity.
Qed.

Lemma trim_trimmed (s : jsstring) : trimmed s = true -> trim s = s.
Proof.
  destruct s as [|c s]; [reflexivity|].
  unfold trimmed. intros H. apply andb_prop in H. destruct H as [H1 H2].
  apply negb_true_iff in H1, H2.
  unfold trim, trimEnd. cbn [trimStart]. rewrite H1.
  rewrite (rev_last (c :: s)) by discriminate.
  cbn [trimStart]. rewrite H2.
  rewrite <- (rev_last (c :: s)) by discriminate.
  apply rev_involutive.
Qed.

Lemma sectionLine_facts (l : jsstring) :
  sectionLine l = true ->
  nonEmpty l = true /\ trim l = l /\ noNewline l = true.
Proof.
  unfold sectionLine. intros H.
  apply andb_prop in H. destruct H as [H Hn].
  apply andb_prop in H. destruct H as [He Ht].
  auto using trim_trimmed.
Qed.

Lemma clock_not_info (t : jsstring) :
  startsWith clockGlyph t = true -> startsWith infoGlyph t = false.
Proof.
  destruct t as [|c t]; [discriminate|]. cbn [startsWith clockGlyph infoGlyph].
  intros H. apply andb_prop in H. destruct H as [H _].
  apply N.eqb_eq in H. subst c. reflexivity.
Qed.

Lemma bullet_not_info (t : jsstring) :
  startsWith bulletGlyph t = true ->
  startsWith infoGlyph t = false /\ startsWith clockGlyph t = false.
Proof.
  destruct t as [|c t]; [discriminate|].
  cbn [startsWith clockGlyph infoGlyph bulletGlyph].
  intros H. apply andb_prop in H. destruct H as [H _].
  apply N.eqb_eq in H. subst c. split; reflexivity.
Qed.

Lemma eqb_canon_headerUnits (p s : jsstring) :
  JS.eqb (map canonUnit p) (map canonUnit s) = true ->
  forallb headerUnit p = true ->
  forallb headerUnit s = true /\ List.length s = List.length p.
Proof.
  revert s; induction p as [|c p IH]; intros [|d s] H Hp; simpl in *;
    try discriminate; [auto|].
  apply andb_prop in H. destruct H as [Hc H].
  apply andb_prop in Hp. destruct Hp as [Hcu Hp].
  apply N.eqb_eq in Hc.
  destruct (IH s H Hp) as [I1 I2]. rewrite I1, I2.
  unfold headerUnit in *. rewrite <- Hc, Hcu. auto.
Qed.

Lemma header_units (h : jsstring) :
  matchesPrecautionsHeader h = true ->
  forallb headerUnit h = true /\ nonEmpty h = true.
Proof.
  unfold matchesPrecautionsHeader. intros H.
  apply existsb_exists in H. destruct H as (p & Hin & Hp).
  unfold eqbIgnoreCase in Hp.
  assert (Hu : forallb headerUnit p = true /\ nonEmpty p = true).
  { simpl in Hin.
    destruct Hin as [<-|[<-|[<-|[<-|[]]]]]; split; vm_compute; reflexivity. }
  destruct Hu as [Hu Hne].
  destruct (eqb_canon_headerUnits p h Hp Hu) as [H1 H2].
  split; [exact H1|]. destruct h; [destruct p; discriminate | reflexivity].
Qed.

Lemma headerUnit_range (c : N) :
  headerUnit c = true ->
  ((65 <= c <= 90) \/ (97 <= c <= 122) \/ c = 203 \/ c = 235)%N.
Proof.
  unfold headerUnit, canonUnit.
  destruct ((N.leb 97 c && N.leb c 122) || N.eqb c 235) eqn:E.
  - intros _. apply orb_prop in E. destruct E as [E|E].
    + apply andb_prop in E. destruct E as [E1 E2].
      apply N.leb_le in E1, E2. lia.
    + apply N.eqb_eq in E. lia.
  - intros H. apply orb_prop in H. destruct H as [H|H].
    + apply andb_prop in H. destruct H as [H1 H2].
      apply N.leb_le in H1, H2. lia.
    + apply N.eqb_eq in H. lia.
Qed.

Lemma headerUnit_plain (c : N) :
  headerUnit c = true ->
  isWhiteSpace c = false /\ N.eqb c newline = false
  /\ N.eqb 8505 c = false /\ N.eqb 55357 c = false /\ N.eqb 8226 c = false.
Proof.
  intros H. apply headerUnit_range in H.
  assert (Hne : forall k, (k < 65 \/ 122 < k)%N -> k <> 203%N -> k <> 235%N ->
                          N.eqb c k = false /\ N.eqb k c = false).
  { intros k Hk H1 H2. split; apply N.eqb_neq; lia. }
  unfold isWhiteSpace, newline.
  repeat match goal with
         | |- context [N.eqb c ?k] =>
             rewrite (proj1 (Hne k ltac:(lia) ltac:(lia) ltac:(lia)))
         | |- context [N.eqb ?k c] =>
             rewrite (proj2 (Hne k ltac:(lia) ltac:(lia) ltac:(lia)))
         end.
  assert (E : N.leb 8192 c = false) by (apply N.leb_gt; lia).
  rewrite E. repeat split.
Qed.

Lemma header_facts (h : jsstring) :
  matchesPrecautionsHeader h = true ->
  sectionLine h = true
  /\ startsWith infoGlyph h = false
  /\ startsWith clockGlyph h = false
  /\ startsWith bulletGlyph h = false.
Proof.
  intros H. destruct (header_units h H) as [Hu Hne].
  assert (Hall : forall c, In c h -> headerUnit c = true)
    by (apply forallb_forall, Hu).
  destruct h as [|c h]; [discriminate|].
  assert (Hc := headerUnit_plain c (Hall c (or_introl eq_refl))).
  destruct Hc as (Hw & _ & Hi & Hk & Hb).
  assert (Hl : headerUnit (last (c :: h) 0%N) = true).
  { apply Hall. rewrite (app_removelast_last 0%N (l := c :: h)) at 2
      by discriminate.
    apply in_or_app. right. left. reflexivity. }
  apply headerUnit_plain in Hl. destruct Hl as (Hlw & _).
  repeat split.
  - unfold sectionLine, trimmed. rewrite Hw, Hlw. cbn [nonEmpty negb andb].
    unfold noNewline. apply forallb_forall. intros d Hd.
    destruct (headerUnit_plain d (Hall d Hd)) as (_ & Hn & _).
    rewrite Hn. reflexivity.
  - cbn [startsWith infoGlyph]. rewrite Hi. reflexivity.
  - cbn [startsWith clockGlyph]. rewrite Hk. reflexivity.
  - cbn [startsWith bulletGlyph]. rewrite Hb. reflexivity.
Qed.

Lemma parse_name_line (s : Sec.sections) (u : UC.userContent) (ps : bool)
  (l : jsstring) :
  sectionLine l = true ->
  parseText l (mkParse s u beforeMedication false ps)
  = mkParse
      (Sec.mk l (Sec.dosageLine s) (Sec.dosageLineUserContent s)
         (Sec.timeOfDay s) (Sec.precautionsHeader s) (Sec.precautionsList s))
      u afterMedication true ps.
Proof.
  intros H. destruct (sectionLine_facts l H) as (Hne & Ht & Hnl).
  rewrite parseText_line by exact Hnl.
  unfold parseLine. rewrite Ht, Hne. reflexivity.
Qed.

Lemma indexOf_app (c : N) (a b : jsstring) (i : nat) :
  indexOf c a = Some i -> indexOf c (a ++ b) = Some i.
Proof.
  revert i; induction a as [|x a IH]; intros i H; simpl in *; [discriminate|].
  destruct (N.eqb x c); [exact H|].
  destruct (indexOf c a) as [j|]; [|discriminate].
  rewrite (IH j eq_refl). exact H.
Qed.

Lemma startsWith_app_r (p a b : jsstring) :
  startsWith p a = true -> startsWith p (a ++ b) = true.
Proof.
  revert a; induction p as [|x p IH]; intros a H; simpl in *; [reflexivity|].
  destruct a as [|y a]; [discriminate|]. simpl.
  apply andb_prop in H. destruct H as [H1 H2].
  rewrite H1, (IH a H2). reflexivity.
Qed.

Lemma noNewline_app (a b : jsstring) :
  noNewline (a ++ b) = noNewline a && noNewline b.
Proof. apply forallb_app. Qed.

Lemma last_app_nonEmpty (a b : jsstring) (d : N) :
  nonEmpty b = true -> last (a ++ b) d = last b d.
Proof.
  intros H. induction a as [|x a IH]; [reflexivity|].
  simpl. rewrite IH. destruct (a ++ b) eqn:E; [|reflexivity].
  destruct a; destruct b; discriminate.
Qed.

Lemma trimmed_app (a x b : jsstring) :
  nonEmpty a = true -> nonEmpty b = true ->
  trimmed a = true -> trimmed b = true -> trimmed (a ++ x ++ b) = true.
Proof.
  intros Ha Hb Hta Htb. destruct a as [|y a]; [discriminate|].
  unfold trimmed in *. cbn [app].
  apply andb_prop in Hta. destruct Hta as [H1 _]. rewrite H1.
  change (y :: a ++ x ++ b) with ((y :: a) ++ x ++ b).
  rewrite app_assoc, last_app_nonEmpty by exact Hb.
  destruct b as [|z b]; [discriminate|].
  apply andb_prop in Htb. destruct Htb as [_ H2]. rewrite H2. reflexivity.
Qed.

Lemma trimStart_trimmed (s : jsstring) : trimmed s = true -> trimStart s = s.
Proof.
  destruct s as [|c s]; [reflexivity|]. unfold trimmed. intros H.
  apply andb_prop in H. destruct H as [H _]. apply negb_true_iff in H.
  cbn [trimStart]. rewrite H. reflexivity.
Qed.

Lemma dosageText_facts (dl inl : jsstring) :
  wfDosage dl inl = true ->
  nonEmpty (dosageText dl inl) = true
  /\ noNewline (dosageText dl inl) = true
  /\ trim (dosageText dl inl) = dosageText dl inl
  /\ startsWith infoGlyph (dosageText dl inl) = true
  /\ forall s,
       splitDosageLine (dosageText dl inl) s
       = Sec.mk (Sec.medicationName s) dl
           (if nonEmpty inl then inl else Sec.dosageLineUserContent s)
           (Sec.timeOfDay s) (Sec.precautionsHeader s) (Sec.precautionsList s).
Proof.
  unfold wfDosage. intros H.
  apply andb_prop in H. destruct H as [H Hp].
  apply andb_prop in H. destruct H as [Hl Hi].
  destruct (sectionLine_facts dl Hl) as (Hne & Ht & Hnl).
  assert (Htd : trimmed dl = true).
  { unfold sectionLine in Hl. apply andb_prop in Hl. destruct Hl as [Hl _].
    apply andb_prop in Hl. destruct Hl as [_ Hl]. exact Hl. }
  unfold dosageText.
  destruct inl as [|c inl].
  - cbn [nonEmpty]. rewrite app_nil_r. repeat split; auto.
    intros s. unfold splitDosageLine.
    destruct (indexOf period dl) as [i|]; [|reflexivity].
    cbn [nonEmpty negb orb] in Hp. rewrite andb_true_r in Hp.
    apply Nat.eqb_eq in Hp. unfold substringTo, substringFrom.
    rewrite Nat.add_1_r, Hp, firstn_all, skipn_all. reflexivity.
  - cbn [nonEmpty] in *.
    destruct (indexOf period dl) as [i|] eqn:Ei; [|discriminate].
    apply andb_prop in Hp. destruct Hp as [Hlen Hinl].
    cbn [negb orb] in Hinl. apply andb_prop in Hinl.
    destruct Hinl as [Hti Hni]. apply Nat.eqb_eq in Hlen.
    split; [destruct dl; [discriminate | reflexivity]|].
    split; [rewrite !noNewline_app, Hnl, Hni; reflexivity|].
    split; [apply trim_trimmed, trimmed_app; auto|].
    split; [apply startsWith_app_r, Hi|].
    intros s. unfold splitDosageLine.
    rewrite (indexOf_app period dl (space ++ c :: inl) i Ei).
    unfold substringTo, substringFrom.
    rewrite Nat.add_1_r, Hlen, firstn_app_exact, skipn_app_exact.
    change (trimStart (space ++ c :: inl)) with (trimStart (c :: inl)).
    rewrite (trimStart_trimmed (c :: inl) Hti). reflexivity.
Qed.

Lemma parse_dosage_text (s : Sec.sections) (u : UC.userContent) (c : cursor)
  (ps : bool) (dl inl : jsstring) :
  wfDosage dl inl = true ->
  parseText (dosageText dl inl) (mkParse s u c true ps)
  = mkParse
      (Sec.mk (Sec.medicationName s) dl
         (if nonEmpty inl then inl else Sec.dosageLineUserContent s)
         (Sec.timeOfDay s) (Sec.precautionsHeader s) (Sec.precautionsList s))
      u afterDosage true ps.
Proof.
  intros H. destruct (dosageText_facts dl inl H) as (Hne & Hnl & Ht & Hi & Hs).
  rewrite parseText_line by exact Hnl.
  rewrite parseLine_dosage; [|reflexivity | rewrite Ht; exact Hi].
  rewrite Ht, Hs. reflexivity.
Qed.

Lemma parse_time_line (s : Sec.sections) (u : UC.userContent) (c : cursor)
  (ps : bool) (tod : jsstring) :
  wfTime tod = true ->
  parseText tod (mkParse s u c true ps)
  = mkParse
      (Sec.mk (Sec.medicationName s) (Sec.dosageLine s)
         (Sec.dosageLineUserContent s) tod (Sec.precautionsHeader s)
         (Sec.precautionsList s))
      u afterTimeOfDay true ps.
Proof.
  unfold wfTime. intros H. apply andb_prop in H. destruct H as [Hl Hc].
  destruct (sectionLine_facts tod Hl) as (Hne & Ht & Hnl).
  rewrite parseText_line by exact Hnl.
  unfold parseLine. rewrite Ht, Hne, (clock_not_info tod Hc), Hc. reflexivity.
Qed.

Lemma parse_header_line (s : Sec.sections) (u : UC.userContent) (c : cursor)
  (ps : bool) (ph : jsstring) :
  matchesPrecautionsHeader ph = true ->
  parseText ph (mkParse s u c true ps)
  = mkParse
      (Sec.mk (Sec.medicationName s) (Sec.dosageLine s)
         (Sec.dosageLineUserContent s) (Sec.timeOfDay s) ph
         (Sec.precautionsList s))
      u precautions true true.
Proof.
  intros H. destruct (header_facts ph H) as (Hl & Hi & Hc & _).
  destruct (sectionLine_facts ph Hl) as (Hne & Ht & Hnl).
  rewrite parseText_line by exact Hnl.
  unfold parseLine. rewrite Ht, Hne, Hi, Hc, H. reflexivity.
Qed.

Lemma bullet_not_header (b : jsstring) :
  startsWith bulletGlyph b = true -> matchesPrecautionsHeader b = false.
Proof.
  intros Hb. destruct (matchesPrecautionsHeader b) eqn:E; [|reflexivity].
  destruct (header_facts b E) as (_ & _ & _ & H). congruence.
Qed.

Lemma parse_bullet_line (s : Sec.sections) (u : UC.userContent) (c : cursor)
  (b : jsstring) :
  wfBullet b = true ->
  parseText b (mkParse s u c true true)
  = mkParse
      (Sec.mk (Sec.medicationName s) (Sec.dosageLine s)
         (Sec.dosageLineUserContent s) (Sec.timeOfDay s)
         (Sec.precautionsHeader s) (Sec.precautionsList s ++ [b]))
      u c true true.
Proof.
  unfold wfBullet. intros H. apply andb_prop in H. destruct H as [Hl Hb].
  destruct (sectionLine_facts b Hl) as (Hne & Ht & Hnl).
  destruct (bullet_not_info b Hb) as [Hi Hc].
  rewrite parseText_line by exact Hnl.
  unfold parseLine.
  rewrite Ht, Hne, Hi, Hc, (bullet_not_header b Hb), Hb. reflexivity.
Qed.

Lemma consume_bullets (pl : list jsstring) (r : jsstring) (mn dl inl tod ph : jsstring)
  (pl0 : list jsstring) (u : UC.userContent) (c : cursor) :
  forallb wfBullet pl = true ->
  parseText (flat_map (fun p => p ++ nl) pl ++ r)
    (mkParse (Sec.mk mn dl inl tod ph pl0) u c true true)
  = parseText r (mkParse (Sec.mk mn dl inl tod ph (pl0 ++ pl)) u c true true).
Proof.
  revert pl0; induction pl as [|b pl IH]; intros pl0 H.
  - rewrite app_nil_r. reflexivity.
  - simpl in H. apply andb_prop in H. destruct H as [Hb Hpl].
    cbn [flat_map]. rewrite <- !app_assoc, parseText_app_nl.
    rewrite parse_bullet_line by exact Hb. cbn [Sec.medicationName
      Sec.dosageLine Sec.dosageLineUserContent Sec.timeOfDay
      Sec.precautionsHeader Sec.precautionsList].
    rewrite IH by exact Hpl. rewrite <- app_assoc. reflexivity.
Qed.

(** *** Slots *)

Lemma slotOf_setSlot (c : cursor) (v : jsstring) (u : UC.userContent) :
  slotOf c (setSlot c v u) = v.
Proof. destruct c; reflexivity. Qed.

Lemma setSlot_setSlot (c : cursor) (v w : jsstring) (u : UC.userContent) :
  setSlot c w (setSlot c v u) = setSlot c w u.
Proof. destruct c; reflexivity. Qed.

Lemma setSlot_same (c : cursor) (u : UC.userContent) :
  setSlot c (slotOf c u) u = u.
Proof. destruct c, u; reflexivity. Qed.

Lemma parseLines_user_slot (ls : list jsstring) (s : Sec.sections)
  (u : UC.userContent) (c : cursor) (f ps : bool) :
  (c = precautions -> ps = true) ->
  (forall l, In l ls -> blankLine l = true \/ (f = true /\ plainLine l = true)) ->
  parseLines ls (mkParse s u c f ps)
  = mkParse s (setSlot c (fold_left appendLine ls (slotOf c u)) u) c f ps.
Proof.
  intros Hc. revert u; induction ls as [|l ls IH]; intros u H.
  - simpl. rewrite setSlot_same. reflexivity.
  - cbn [parseLines fold_left].
    assert (E : parseLine (mkParse s u c f ps) l
                = addUserContent l (mkParse s u c f ps)).
    { destruct (H l (or_introl eq_refl)) as [Hb|[Hf Hp]].
      - apply parseLine_blank, Hb.
      - apply parseLine_plain; [exact Hf | exact Hp]. }
    assert (E2 : addUserContent l (mkParse s u c f ps)
                 = mkParse s (setSlot c (appendLine (slotOf c u) l) u) c f ps).
    { rewrite addUserContent_slot.
      cbn [currentSection precautionsStarted p_sections p_userContent
           medicationNameFound].
      destruct c; try reflexivity. rewrite (Hc eq_refl). reflexivity. }
    rewrite E, E2.
    change (fold_left parseLine ls) with (parseLines ls).
    rewrite IH by (intros l' Hl'; apply H; right; exact Hl').
    rewrite slotOf_setSlot, setSlot_setSlot. reflexivity.
Qed.

Lemma join_split (u : jsstring) : join nl (split u) = u.
Proof.
  induction u as [|c u IH]; [reflexivity|]. cbn [split].
  destruct (split_cons u) as (l & ls & E). rewrite E in *.
  destruct (N.eqb_spec c newline) as [->|Hc].
  - rewrite <- IH. reflexivity.
  - rewrite <- IH. destruct ls; reflexivity.
Qed.

Lemma appendLines_acc (ls : list jsstring) (acc : jsstring) :
  nonEmpty acc = true -> ls <> [] ->
  fold_left appendLine ls acc = acc ++ nl ++ join nl ls.
Proof.
  revert acc; induction ls as [|l ls IH]; intros acc Ha Hls; [contradiction|].
  cbn [fold_left]. unfold appendLine at 2. rewrite Ha.
  destruct ls as [|l' ls]; [reflexivity|].
  rewrite IH; [|destruct acc; [discriminate|reflexivity] | discriminate].
  cbn [join]. rewrite <- !app_assoc. reflexivity.
Qed.

Lemma appendLines_split (u : jsstring) :
  startsWith nl u = false -> fold_left appendLine (split u) [] = u.
Proof.
  intros H. pose proof (join_split u) as J.
  destruct u as [|c u]; [reflexivity|].
  destruct (N.eqb_spec c newline) as [->|Hc]; [discriminate H|].
  cbn [split] in *. apply N.eqb_neq in Hc. rewrite N.eqb_sym in Hc.
  rewrite N.eqb_sym in Hc. rewrite Hc in *.
  destruct (split_cons u) as (l & ls & E). rewrite E in *.
  cbn [fold_left]. change (appendLine [] (c :: l)) with (c :: l).
  destruct ls as [|l' ls]; [exact J|].
  rewrite appendLines_acc by (reflexivity || discriminate). exact J.
Qed.

Lemma parse_slot (ok : jsstring -> bool) (v : jsstring) (s : Sec.sections)
  (u : UC.userContent) (c : cursor) (f ps : bool) :
  (c = precautions -> ps = true) ->
  (forall l, ok l = true -> blankLine l = true \/ (f = true /\ plainLine l = true)) ->
  forallb ok (split v) = true ->
  startsWith nl v = false ->
  slotOf c u = [] ->
  parseText v (mkParse s u c f ps) = mkParse s (setSlot c v u) c f ps.
Proof.
  intros Hc Hok Hall Hs Hu. unfold parseText.
  rewrite parseLines_user_slot; [|exact Hc|].
  - rewrite Hu, appendLines_split by exact Hs. reflexivity.
  - intros l Hl. apply Hok. apply (proj1 (forallb_forall ok (split v)) Hall l Hl).
Qed.

(** A slot that is followed by a section, together with the line break
    written after it. *)
Lemma consume_slot (ok : jsstring -> bool) (v r : jsstring) (s : Sec.sections)
  (u : UC.userContent) (c : cursor) (f ps : bool) :
  (c = precautions -> ps = true) ->
  (forall l, ok l = true -> blankLine l = true \/ (f = true /\ plainLine l = true)) ->
  wfSlotOf ok v = true ->
  slotOf c u = [] ->
  parseText (emitSlot v true [] ++ r) (mkParse s u c f ps)
  = parseText r (mkParse s (setSlot c v u) c f ps).
Proof.
  intros Hc Hok Hwf Hu. unfold wfSlotOf in Hwf. unfold emitSlot.
  destruct (nonEmpty v) eqn:Ev.
  - cbn [negb orb] in Hwf. apply andb_prop in Hwf. destruct Hwf as [Hwf Hall].
    apply andb_prop in Hwf. destruct Hwf as [Hs He].
    apply negb_true_iff in Hs, He. rewrite He. cbn [negb andb app].
    rewrite <- app_assoc, parseText_app_nl.
    rewrite (parse_slot ok) by assumption. reflexivity.
  - apply nonEmpty_false in Ev. subst v. cbn [app].
    rewrite <- Hu, setSlot_same. reflexivity.
Qed.

(** *** The line break before the precautions block *)

Lemma endsSafely_app (z y : jsstring) : endsSafely y -> endsSafely (z ++ y).
Proof. intros H p. rewrite app_assoc. apply H. Qed.

Lemma endsWith_nl_false_rev (x : jsstring) :
  nonEmpty x = true -> endsWith nl x = false ->
  exists c r, rev x = c :: r /\ N.eqb newline c = false.
Proof.
  intros Hne He. unfold endsWith in He. change (rev nl) with [newline] in He.
  destruct (rev x) as [|c r] eqn:E.
  - apply (f_equal (@rev N)) in E. rewrite rev_involutive in E. subst x.
    discriminate.
  - exists c, r. split; [reflexivity|]. cbn [startsWith] in He.
    rewrite andb_true_r in He. exact He.
Qed.

Lemma endsSafely_last (x : jsstring) :
  nonEmpty x = true -> endsWith nl x = false -> endsSafely x.
Proof.
  intros Hne He p. destruct (endsWith_nl_false_rev x Hne He) as (c & r & E & Hc).
  unfold endsWith. change (rev (nl ++ nl)) with [newline; newline].
  rewrite rev_app_distr, E. cbn [app startsWith].
  rewrite Hc. reflexivity.
Qed.

Lemma endsSafely_last_nl (x : jsstring) :
  nonEmpty x = true -> endsWith nl x = false -> endsSafely (x ++ nl).
Proof.
  intros Hne He p. destruct (endsWith_nl_false_rev x Hne He) as (c & r & E & Hc).
  unfold endsWith. change (rev (nl ++ nl)) with [newline; newline].
  rewrite !rev_app_distr, E.
  change (rev nl) with [newline]. cbn [app startsWith].
  rewrite Hc, andb_false_r. reflexivity.
Qed.

Lemma endsSafely_nil (y : jsstring) :
  endsSafely y -> endsWith (nl ++ nl) y = false.
Proof. intros H. apply (H []). Qed.

Lemma nonEmpty_app_l (a b : jsstring) :
  nonEmpty a = true -> nonEmpty (a ++ b) = true.
Proof. destruct a; [discriminate | reflexivity]. Qed.

Lemma nonEmpty_app_r (a b : jsstring) :
  nonEmpty b = true -> nonEmpty (a ++ b) = true.
Proof. destruct a, b; try discriminate; reflexivity. Qed.

Lemma if_nonEmpty_id (s : jsstring) : (if nonEmpty s then s else []) = s.
Proof. destruct s; reflexivity. Qed.

Lemma parse_blank_line (s : Sec.sections) (u : UC.userContent) (c : cursor)
  (f ps : bool) :
  (c = precautions -> ps = true) ->
  parseText [] (mkParse s u c f ps)
  = mkParse s (setSlot c (appendLine (slotOf c u) []) u) c f ps.
Proof.
  intros Hc. unfold parseText. change (split []) with [@nil N].
  rewrite parseLines_user_slot; [reflexivity | exact Hc|].
  intros l [<-|[]]. left. reflexivity.
Qed.

Lemma parseText_nl (r : jsstring) (st : parseState) :
  parseText (nl ++ r) st = parseText r (parseText [] st).
Proof. apply (parseText_app_nl [] r st). Qed.

Lemma wfSlot_ok (l : jsstring) :
  plainLine l = true -> blankLine l = true \/ (true = true /\ plainLine l = true).
Proof. auto. Qed.

Lemma wfBlankSlot_ok (f : bool) (l : jsstring) :
  blankLine l = true -> blankLine l = true \/ (f = true /\ plainLine l = true).
Proof. auto. Qed.

Lemma wfSlotOf_last (ok : jsstring -> bool) (v : jsstring) :
  wfSlotOf ok v = true -> nonEmpty v = true ->
  startsWith nl v = false /\ endsWith nl v = false
  /\ forallb ok (split v) = true.
Proof.
  unfold wfSlotOf. intros H Hne. rewrite Hne in H. cbn [negb orb] in H.
  apply andb_prop in H. destruct H as [H H3].
  apply andb_prop in H. destruct H as [H1 H2].
  apply negb_true_iff in H1, H2. auto.
Qed.

Ltac slot_side :=
  first
    [ assumption
    | reflexivity
    | (intros; discriminate)
    | (intros; reflexivity)
    | exact wfSlot_ok
    | (apply wfBlankSlot_ok) ].

Ltac consume_step :=
  first
    [ rewrite parse_name_line by assumption
    | rewrite parse_dosage_text by assumption
    | rewrite parse_time_line by assumption
    | rewrite parse_header_line by assumption
    | rewrite parse_blank_line by slot_side
    | rewrite (consume_slot blankLine) by slot_side
    | rewrite (consume_slot plainLine) by slot_side
    | rewrite consume_bullets by assumption
    | rewrite parseText_nl
    | rewrite parseText_app_nl
    | rewrite (parse_slot plainLine) by slot_side
    | rewrite (parse_slot blankLine) by slot_side ];
  cbn [setSlot slotOf Sec.medicationName Sec.dosageLine
       Sec.dosageLineUserContent Sec.timeOfDay Sec.precautionsHeader
       Sec.precautionsList UC.beforeMedication UC.afterMedication
       UC.afterDosage UC.afterTimeOfDay UC.afterPrecautions].

Lemma emitSlot_false (v : jsstring) : emitSlot v false [] = v.
Proof.
  unfold emitSlot. destruct v; [reflexivity|].
  cbn [nonEmpty app]. rewrite andb_false_r, app_nil_r. reflexivity.
Qed.

Lemma emitSlot_true (v : jsstring) :
  nonEmpty v = true -> endsWith nl v = false -> emitSlot v true [] = v ++ nl.
Proof. unfold emitSlot. intros -> ->. reflexivity. Qed.

Lemma dosageText_fold (dl inl r : jsstring) :
  dl ++ (if nonEmpty inl then space ++ inl else []) ++ r
  = dosageText dl inl ++ r.
Proof. unfold dosageText. rewrite <- app_assoc. reflexivity. Qed.

Lemma dosageText_fold_end (dl inl : jsstring) :
  dl ++ (if nonEmpty inl then space ++ inl else []) = dosageText dl inl.
Proof. reflexivity. Qed.

Lemma nonEmpty_middle (a b c : jsstring) :
  nonEmpty b = true -> nonEmpty (a ++ b ++ c) = true.
Proof. intros H. apply nonEmpty_app_r, nonEmpty_app_l, H. Qed.

Lemma nonEmpty_middle_end (a b : jsstring) :
  nonEmpty b = true -> nonEmpty (a ++ b) = true.
Proof. apply nonEmpty_app_r. Qed.

Lemma isEmpty_true (s : jsstring) : isEmpty s = true -> s = [].
Proof. unfold isEmpty. intros H. apply negb_true_iff in H. apply nonEmpty_false, H. Qed.

Lemma length_zero (pl : list jsstring) :
  Nat.eqb (List.length pl) 0 = true -> pl = [].
Proof. destruct pl; [reflexivity | discriminate]. Qed.

Lemma appendLine_blank (v : jsstring) :
  appendLine v [] = if nonEmpty v then v ++ nl else v.
Proof.
  unfold appendLine. destruct v; [reflexivity|].
  cbn [nonEmpty]. rewrite app_nil_r. reflexivity.
Qed.

Ltac safe_end :=
  repeat first
    [ apply endsSafely_last_nl; [assumption | assumption]
    | apply endsSafely_last; [assumption | assumption]
    | apply endsSafely_app ].

Ltac projections :=
  cbn [sections userContent lastGenerated Sec.medicationName Sec.dosageLine
       Sec.dosageLineUserContent Sec.timeOfDay Sec.precautionsHeader
       Sec.precautionsList UC.beforeMedication UC.afterMedication
       UC.afterDosage UC.afterTimeOfDay UC.afterPrecautions].

Ltac rewrite_facts :=
  repeat match goal with
         | H : nonEmpty ?x = _ |- context [nonEmpty ?x] => rewrite H
         | H : endsWith nl ?x = _ |- context [endsWith nl ?x] => rewrite H
         end.

Ltac emit_known :=
  repeat match goal with
         | H : nonEmpty ?v = true, H2 : endsWith nl ?v = false
           |- context [emitSlot ?v true []] =>
             rewrite (emitSlot_true v H H2)
         end.

(** One case of the round trip, once the shape of the structure is known. *)
Ltac leaf_text :=
  rewrite reconstruct_normal;
  unfold blankBeforePrecautions, headContent, hasPrecautions; cbv zeta;
  projections;
  rewrite_facts;
  cbn [orb andb negb nonEmpty List.length Nat.eqb flat_map];
  rewrite ?orb_true_r, ?emitSlot_false;
  emit_known;
  cbn [orb andb negb nonEmpty app];
  rewrite ?app_nil_r;
  rewrite <- ?app_assoc;
  rewrite ?dosageText_fold, ?dosageText_fold_end;
  try (rewrite endsSafely_nil by safe_end);
  try first [ rewrite nonEmpty_middle by assumption
            | rewrite nonEmpty_middle_end by assumption ];
  cbn [orb andb negb app];
  rewrite <- ?app_assoc.

Ltac leaf_parse :=
  unfold parseInit, Sec.empty, UC.empty;
  repeat consume_step;
  do 3 eexists;
  unfold joinNormalised; projections;
  rewrite ?appendLine_blank, ?if_nonEmpty_id;
  rewrite_facts;
  cbn [andb app nonEmpty];
  reflexivity.

Ltac leaf := leaf_text; leaf_parse.

(** Facts about a slot that is known to hold text. *)
Ltac slot_facts H E :=
  let H1 := fresh "Hs" in
  let H2 := fresh "He" in
  let H3 := fresh "Hl" in
  destruct (wfSlotOf_last _ _ H E) as (H1 & H2 & H3).

Ltac case_slot v H :=
  let E := fresh "E" in
  destruct (nonEmpty v) eqn:E;
  [ slot_facts H E
  | apply nonEmpty_false in E; subst v ].

Lemma round_trip_state (x : InstructionStructure) :
  wellFormed x = true ->
  exists c f ps,
    parseText (reconstructInstructionContent x) parseInit
    = mkParse (sections x) (joinNormalised x) c f ps.
Proof.
  destruct x as [[mn dl inl tod ph pl] [bm am ad aft ap] g].
  unfold wellFormed. projections. intros H.
  apply andb_prop in H. destruct H as [Hbm H].
  destruct (nonEmpty mn) eqn:Hmne.
  - apply andb_prop in H. destruct H as [H Hprec].
    apply andb_prop in H. destruct H as [H Hbody].
    apply andb_prop in H. destruct H as [Hmn Ham].
    destruct (sectionLine_facts mn Hmn) as (_ & _ & Hmnl).
    pose proof (noNewline_endsWith mn Hmnl) as Hme.
    assert (Hprec' :
              (nonEmpty ph = true /\ matchesPrecautionsHeader ph = true
               /\ forallb wfBullet pl = true
               /\ startsWith nl ap = false
               /\ forallb plainLine (split ap) = true)
              \/ (ph = [] /\ pl = [] /\ ap = [])).
    { destruct (nonEmpty ph) eqn:Hpne.
      - left. apply andb_prop in Hprec. destruct Hprec as [Hp Hap].
        apply andb_prop in Hp. destruct Hp as [Hph Hpl].
        unfold wfLastSlot in Hap. apply andb_prop in Hap.
        destruct Hap as [Hap1 Hap2]. apply negb_true_iff in Hap1. auto.
      - right. apply andb_prop in Hprec. destruct Hprec as [Hpl Hap].
        apply nonEmpty_false in Hpne. apply length_zero in Hpl.
        apply isEmpty_true in Hap. auto. }
    clear Hprec.
    destruct (nonEmpty dl) eqn:Hdne.
    + apply andb_prop in Hbody. destruct Hbody as [Hbody Htime].
      apply andb_prop in Hbody. destruct Hbody as [Hdl Had].
      destruct (dosageText_facts dl inl Hdl) as (Hxne & Hxnl & _).
      pose proof (noNewline_endsWith _ Hxnl) as Hxe.
      destruct (nonEmpty tod) eqn:Htne.
      * apply andb_prop in Htime. destruct Htime as [Htod Hat].
        assert (Htl : sectionLine tod = true)
          by (unfold wfTime in Htod; apply andb_prop in Htod; tauto).
        destruct (sectionLine_facts tod Htl) as (_ & _ & Htnl).
        pose proof (noNewline_endsWith tod Htnl) as Hte.
        case_slot aft Hat;
          (destruct Hprec' as [(Hpne & Hph & Hpl & Hap1 & Hap2)|(-> & -> & ->)];
           [leaf | leaf]).
      * apply isEmpty_true in Htime. subst aft.
        apply nonEmpty_false in Htne. subst tod.
        case_slot ad Had;
          (destruct Hprec' as [(Hpne & Hph & Hpl & Hap1 & Hap2)|(-> & -> & ->)];
           [leaf | leaf]).
    + apply andb_prop in Hbody. destruct Hbody as [Hbody Hat].
      apply andb_prop in Hbody. destruct Hbody as [Hbody Htod].
      apply andb_prop in Hbody. destruct Hbody as [Hinl Had].
      apply isEmpty_true in Hinl, Had, Htod, Hat. subst inl ad tod aft.
      apply nonEmpty_false in Hdne. subst dl.
      case_slot am Ham;
        (destruct Hprec' as [(Hpne & Hph & Hpl & Hap1 & Hap2)|(-> & -> & ->)];
         [leaf | leaf]).
  - repeat (apply andb_prop in H; destruct H as [H ?]).
    repeat match goal with
           | E : isEmpty _ = true |- _ => apply isEmpty_true in E
           | E : Nat.eqb (List.length _) 0 = true |- _ => apply length_zero in E
           end.
    subst. apply nonEmpty_false in Hmne. subst mn.
    case_slot bm Hbm; leaf.
Qed.

(** The claim C1 fails on structures the page builds.  The structure
    [generateInstruction] retains for a dosage with a decimal point has
    the whole dosage line in [dosageLine]; read back from its text, the
    dosage line ends at the decimal point and the rest is inline user
    text.  The structure [handleFieldClearing] retains after the dosage is
    cleared has a name and a time line; its text has no line break between
    them and is read back as a name only.  And [lastGenerated], which
    [generateInstruction] fills in, is read back empty. *)
Lemma reassembled_structure_not_recovered :
  (let s :=
     instructionStructure
       (generateInstruction (Utils.lookupsOf sampleTables) syrupForm
          (noLanguage []) (noLanguage [])) in
   let y := parseInstructionContent (reconstructInstructionContent s) in
   Sec.dosageLine (sections s) = lit "ℹ️ Take 2.5 ml twice daily."
   /\ Sec.dosageLineUserContent (sections s) = []
   /\ Sec.dosageLine (sections y) = lit "ℹ️ Take 2."
   /\ Sec.dosageLineUserContent (sections y) = lit "5 ml twice daily."
   /\ Gen.english (lastGenerated s) = reconstructInstructionContent s
   /\ Gen.english (lastGenerated y) = [])
  /\ (let page := pageOf [] ibuprofenText in
      let s := instructionStructure (handleFieldClearing f_dosage page page) in
      let y := parseInstructionContent (reconstructInstructionContent s) in
      Sec.medicationName (sections s) = lit "Ibuprofen"
      /\ Sec.timeOfDay (sections s) = lit "🕜 morning 🌅"
      /\ reconstructInstructionContent s = lit "Ibuprofen🕜 morning 🌅"
      /\ Sec.medicationName (sections y) = lit "Ibuprofen🕜 morning 🌅"
      /\ Sec.timeOfDay (sections y) = []).
Proof. vm_compute. repeat split. Qed.

(** C1. For a well-formed structure, parsing the reassembled text gives
    back the same generated sections and the same user-content slots, but
    for the blank line joined to the slot after the time line when a
    precautions block follows; the last generated texts read back empty. *)
Theorem parse_reconstruct_round_trip (x : InstructionStructure) :
  wellFormed x = true ->
  let y := parseInstructionContent (reconstructInstructionContent x) in
  sections y = sections x
  /\ userContent y = joinNormalised x
  /\ lastGenerated y = Gen.empty.
Proof.
  intros H y. destruct (round_trip_state x H) as (c & f & ps & E).
  subst y. unfold parseInstructionContent.
  change (parseLines (split (reconstructInstructionContent x)) parseInit)
    with (parseText (reconstructInstructionContent x) parseInit).
  rewrite E. repeat split.
Qed.

Lemma parse_reconstruct_round_trip_witness :
  sections
    (parseInstructionContent (reconstructInstructionContent roundTripSample))
  = sections roundTripSample
  /\ userContent
       (parseInstructionContent (reconstructInstructionContent roundTripSample))
     = joinNormalised roundTripSample
  /\ lastGenerated
       (parseInstructionContent (reconstructInstructionContent roundTripSample))
     = Gen.empty.
Proof.
  apply (parse_reconstruct_round_trip roundTripSample). reflexivity.
Defined.

(** C2 fails as stated: for a name that is empty before its first comma
    the generated text starts with the dosage line; a user line put after
    that line is, after a change of frequency, the first line of the text,
    before the dosage line, and does not occur after it. *)
Lemma regeneration_moves_user_line :
  let generated :=
    Display.english
      (instructionDisplay
         (generateInstruction sampleLookups commaForm (noLanguage [])
            (noLanguage []))) in
  let edited := lit
"ℹ️ Take 5 ml daily.
with water
🕜 morning 🌅" in
  let regenerated :=
    Display.english
      (instructionDisplay
         (generateInstruction sampleLookups commaFormWeekly (noLanguage edited)
            (noLanguage edited))) in
  generated = lit
"ℹ️ Take 5 ml daily.
🕜 morning 🌅"
  /\ regenerated = lit
"with water
ℹ️ Take 5 ml weekly.
🕜 morning 🌅"
  /\ indexOfString (newDosageLine commaFormWeekly) regenerated = Some 11
  /\ includes userLine (skipn 11 regenerated) = false.
Proof. vm_compute. repeat split. Qed.

Lemma regeneration_keeps_user_line_witness :
  exists P A B Q,
    Gen.english
      (lastGenerated
         (instructionStructure
            (generateInstruction sampleLookups sampleForm sampleComponent
               sampleComponent)))
    = P ++ newDosageLine sampleForm ++ A ++ lit "after breakfast" ++ nl ++ B
        ++ newTimeOfDay sampleForm ++ Q.
Proof.
  assert (H : exists P A B Q, _)
    by (apply (regeneration_keeps_user_line sampleLookups sampleForm
                 sampleComponent sampleComponent
                 [lit "Aspirin"] [] (skipn 3 (split sampleText))
                 (lit "ℹ️ Take 1 tablet daily. with water")
                 (lit "after breakfast"));
        vm_compute; reflexivity).
  destruct H as (P & A & B & Q & H & _).
  exists P.
  exists ((if nonEmpty
                (Sec.dosageLineUserContent
                   (sections
                      (instructionStructure
                         (generateInstruction sampleLookups sampleForm
                            sampleComponent sampleComponent))))
           then space
                  ++ Sec.dosageLineUserContent
                       (sections
                          (instructionStructure
                             (generateInstruction sampleLookups sampleForm
                                sampleComponent sampleComponent)))
           else []) ++ nl ++ A).
  exists B, Q. rewrite H. rewrite <- !app_assoc. reflexivity.
Defined.

(** * The vocabulary service *)

Lemma eqb_eq (a b : jsstring) : JS.eqb a b = true <-> a = b.
Proof.
  revert b; induction a as [|x a IH]; intros [|y b]; simpl;
    try (split; [discriminate|congruence]); [tauto|].
  rewrite andb_true_iff, N.eqb_eq, IH. split.
  - intros [-> ->]; reflexivity.
  - intros E; injection E; auto.
Qed.

(** ** [trim] *)

Lemma trimStart_suffix (s : jsstring) : exists p, s = p ++ trimStart s.
Proof.
  induction s as [|c s [p IH]]; [exists []; reflexivity|].
  cbn [trimStart]. destruct (isWhiteSpace c).
  - exists (c :: p). simpl. f_equal. exact IH.
  - exists []. reflexivity.
Qed.

Lemma trimStart_head (s r : jsstring) (c : N) :
  trimStart s = c :: r -> isWhiteSpace c = false.
Proof.
  induction s as [|d s IH]; [discriminate|]. cbn [trimStart].
  destruct (isWhiteSpace d) eqn:E; [exact IH|].
  intros H. injection H as <- _. exact E.
Qed.

Lemma trim_parts (s : jsstring) : exists p q, s = p ++ trim s ++ q.
Proof.
  destruct (trimStart_suffix s) as [p Hp].
  destruct (trimStart_suffix (rev (trimStart s))) as [q Hq].
  exists p, (rev q). unfold trim, trimEnd.
  rewrite <- rev_app_distr, <- Hq, rev_involutive. exact Hp.
Qed.

Lemma trim_In (s : jsstring) (x : N) : In x (trim s) -> In x s.
Proof.
  destruct (trim_parts s) as (p & q & E). intros H. rewrite E.
  apply in_or_app. right. apply in_or_app. left. exact H.
Qed.

Lemma trim_is_trimmed (s : jsstring) : trimmed (trim s) = true.
Proof.
  unfold trim, trimEnd.
  destruct (trimStart_suffix (rev (trimStart s))) as [q Hq].
  destruct (trimStart (rev (trimStart s))) as [|c r] eqn:Eu; [reflexivity|].
  apply trimStart_head in Eu.
  apply (f_equal (@rev N)) in Hq. rewrite rev_involutive, rev_app_distr in Hq.
  cbn [rev] in *.
  destruct (rev r ++ [c]) as [|d w] eqn:Ew.
  { destruct (rev r); discriminate Ew. }
  unfold trimmed. rewrite <- Ew at 1. rewrite last_last, Eu.
  destruct (trimStart s) as [|d' t'] eqn:Et; [discriminate Hq|].
  injection Hq as -> _. apply trimStart_head in Et. rewrite Et. reflexivity.
Qed.

(** ** [parseCSVLine] *)

Lemma csvChar_mk (vs : list jsstring) (cur : jsstring) (q : bool) (c : N) :
  Backend.csvChar (Backend.mkCsv vs cur q) c
  = if N.eqb c Backend.quote then Backend.mkCsv vs cur (negb q)
    else if N.eqb c comma && negb q
         then Backend.mkCsv (vs ++ [trim cur]) [] q
         else Backend.mkCsv vs (cur ++ [c]) q.
Proof. reflexivity. Qed.

Lemma csv_values_prefix (line : jsstring) (vs : list jsstring)
  (cur : jsstring) (q : bool) :
  fold_left Backend.csvChar line (Backend.mkCsv vs cur q)
  = let st := fold_left Backend.csvChar line (Backend.mkCsv [] cur q) in
    Backend.mkCsv (vs ++ Backend.values st) (Backend.current st)
      (Backend.inQuotes st).
Proof.
  revert vs cur q; induction line as [|c line IH]; intros vs cur q.
  - simpl. rewrite app_nil_r. reflexivity.
  - cbn [fold_left]. rewrite !csvChar_mk.
    destruct (N.eqb c Backend.quote); [apply IH|].
    destruct (N.eqb c comma && negb q).
    + rewrite IH. rewrite (IH ([] ++ [trim cur])). cbn zeta.
      cbn [Backend.values Backend.current Backend.inQuotes app].
      rewrite <- app_assoc. reflexivity.
    + apply IH.
Qed.

Lemma noQuote_In (f : jsstring) : noQuote f = true -> ~ In Backend.quote f.
Proof.
  unfold noQuote. intros H Hin. apply negb_true_iff in H.
  enough (E : existsb (N.eqb Backend.quote) f = true) by congruence.
  apply existsb_exists. exists Backend.quote. split; [exact Hin|].
  apply N.eqb_refl.
Qed.

Lemma In_noQuote (f : jsstring) : ~ In Backend.quote f -> noQuote f = true.
Proof.
  unfold noQuote. intros H. apply negb_true_iff.
  destruct (existsb _ f) eqn:E; [|reflexivity].
  apply existsb_exists in E. destruct E as (x & Hx & Ex).
  apply N.eqb_eq in Ex. subst x. destruct (H Hx).
Qed.

Lemma noQuote_trim (s : jsstring) :
  ~ In Backend.quote s -> noQuote (trim s) = true.
Proof. intros H. apply In_noQuote. intros Hin. apply H, trim_In, Hin. Qed.

Lemma csvChar_clean (st : Backend.csvLineState) (c : N) :
  Forall (fun v => noQuote v && trimmed v = true) (Backend.values st)
  /\ ~ In Backend.quote (Backend.current st) ->
  Forall (fun v => noQuote v && trimmed v = true)
    (Backend.values (Backend.csvChar st c))
  /\ ~ In Backend.quote (Backend.current (Backend.csvChar st c)).
Proof.
  intros [Hv Hc]. unfold Backend.csvChar.
  destruct (N.eqb_spec c Backend.quote) as [->|Hq]; [split; assumption|].
  destruct (N.eqb c comma && negb (Backend.inQuotes st));
    cbn [Backend.values Backend.current].
  - split; [|intros []]. apply Forall_app. split; [exact Hv|].
    constructor; [|constructor].
    rewrite (noQuote_trim _ Hc), trim_is_trimmed. reflexivity.
  - split; [exact Hv|]. intros Hin. apply in_app_or in Hin.
    destruct Hin as [Hin|[E|[]]]; [exact (Hc Hin)|]. apply Hq. exact E.
Qed.

Lemma csv_fold_clean (line : jsstring) (st : Backend.csvLineState) :
  Forall (fun v => noQuote v && trimmed v = true) (Backend.values st)
  /\ ~ In Backend.quote (Backend.current st) ->
  Forall (fun v => noQuote v && trimmed v = true)
    (Backend.values (fold_left Backend.csvChar line st))
  /\ ~ In Backend.quote (Backend.current (fold_left Backend.csvChar line st)).
Proof.
  revert st; induction line as [|c line IH]; intros st H; [exact H|].
  cbn [fold_left]. apply IH, csvChar_clean, H.
Qed.

(** X1.  Whatever the line, [parseCSVLine] returns at least one value, and
    no value it returns contains a double quote or has white space at
    either end: quote characters only switch the quoting mode and are
    never part of a value. *)
Theorem parseCSVLine_values (line : jsstring) :
  (exists v vs, Backend.parseCSVLine line = v :: vs)
  /\ Forall (fun v => noQuote v && trimmed v = true)
       (Backend.parseCSVLine line).
Proof.
  unfold Backend.parseCSVLine. cbn zeta. split.
  - destruct (Backend.values _) as [|v vs]; cbn [app]; eauto.
  - destruct (csv_fold_clean line (Backend.mkCsv [] [] false)) as [Hv Hc].
    { split; [constructor|intros []]. }
    apply Forall_app. split; [exact Hv|].
    constructor; [|constructor].
    rewrite (noQuote_trim _ Hc), trim_is_trimmed. reflexivity.
Qed.

Lemma csv_quoted_run (f : jsstring) (vs : list jsstring) (cur : jsstring) :
  ~ In Backend.quote f ->
  fold_left Backend.csvChar f (Backend.mkCsv vs cur true)
  = Backend.mkCsv vs (cur ++ f) true.
Proof.
  revert cur; induction f as [|c f IH]; intros cur H.
  - simpl. rewrite app_nil_r. reflexivity.
  - cbn [fold_left]. rewrite csvChar_mk.
    destruct (N.eqb_spec c Backend.quote) as [->|Hq].
    { exfalso. apply H. left; reflexivity. }
    rewrite andb_false_r. rewrite IH.
    + rewrite <- app_assoc. reflexivity.
    + intros Hin. apply H. right; exact Hin.
Qed.

Lemma parseCSVLine_quoted_last (f : jsstring) :
  ~ In Backend.quote f -> Backend.parseCSVLine (quoted f) = [trim f].
Proof.
  intros H. unfold Backend.parseCSVLine, quoted. cbn [fold_left].
  rewrite csvChar_mk. change (N.eqb Backend.quote Backend.quote) with true.
  cbn [negb].
  rewrite fold_left_app, (csv_quoted_run f [] [] H). reflexivity.
Qed.

Lemma parseCSVLine_quoted_cons (f rest : jsstring) :
  ~ In Backend.quote f ->
  Backend.parseCSVLine (quoted f ++ comma :: rest)
  = trim f :: Backend.parseCSVLine rest.
Proof.
  intros H. unfold Backend.parseCSVLine, quoted. cbn [fold_left app].
  rewrite csvChar_mk. change (N.eqb Backend.quote Backend.quote) with true.
  cbn [negb].
  rewrite <- app_assoc. rewrite fold_left_app, (csv_quoted_run f [] [] H).
  cbn [app fold_left]. rewrite csvChar_mk.
  change (N.eqb Backend.quote Backend.quote) with true. cbn [negb].
  rewrite csvChar_mk.
  change (N.eqb comma Backend.quote) with false.
  change (N.eqb comma comma) with true. cbn [negb andb app].
  rewrite (csv_values_prefix rest [trim f]). reflexivity.
Qed.

Lemma parseCSVLine_quoted (f : jsstring) (fs : list jsstring) :
  forallb noQuote (f :: fs) = true ->
  Backend.parseCSVLine (join [comma] (map quoted (f :: fs)))
  = map trim (f :: fs).
Proof.
  revert f; induction fs as [|g fs IH]; intros f H;
    cbn [forallb] in H; apply andb_prop in H; destruct H as [Hf Hfs].
  - cbn [map join]. apply parseCSVLine_quoted_last, noQuote_In, Hf.
  - change (join [comma] (map quoted (f :: g :: fs)))
      with (quoted f ++ comma :: join [comma] (map quoted (g :: fs))).
    rewrite (parseCSVLine_quoted_cons f _ (noQuote_In _ Hf)), (IH g Hfs).
    reflexivity.
Qed.

(** X2.  A line of double-quoted values, none of which contains a double
    quote itself, is read back as those values, trimmed: commas between
    quotes do not separate values. *)
Theorem parseCSVLine_quoted_fields (f : jsstring) (fs : list jsstring) :
  forallb noQuote (f :: fs) = true ->
  Backend.parseCSVLine (join [comma] (map quoted (f :: fs)))
  = map trim (f :: fs).
Proof. apply parseCSVLine_quoted. Qed.

Lemma parseCSVLine_quoted_fields_witness :
  Backend.parseCSVLine (rowLine sampleRow) = map trim (rowFields sampleRow).
Proof.
  apply (parseCSVLine_quoted_fields (Backend.english sampleRow)
           [Backend.afrikaans sampleRow; Backend.isiXhosa sampleRow;
            Backend.isiZulu sampleRow]).
  vm_compute. reflexivity.
Defined.
(** ** [parseCSV] *)

Lemma split_join (l : jsstring) (ls : list jsstring) :
  forallb noNewline (l :: ls) = true -> split (join nl (l :: ls)) = l :: ls.
Proof.
  revert l; induction ls as [|m ls IH]; intros l H;
    cbn [forallb] in H; apply andb_prop in H; destruct H as [Hl Hls].
  - apply split_noNewline, Hl.
  - change (join nl (l :: m :: ls)) with (l ++ nl ++ join nl (m :: ls)).
    rewrite split_app_nl, (split_noNewline l Hl), (IH m Hls). reflexivity.
Qed.

Lemma join_nonEmpty (l : jsstring) (ls : list jsstring) :
  nonEmpty l = true -> nonEmpty (join nl (l :: ls)) = true.
Proof.
  intros H. destruct ls; [exact H|].
  change (join nl (l :: j :: ls)) with (l ++ nl ++ join nl (j :: ls)).
  apply nonEmpty_app_l, H.
Qed.

Lemma last_join (l : jsstring) (ls : list jsstring) (d q : N) :
  Forall (fun x => nonEmpty x = true /\ last x d = q) (l :: ls) ->
  last (join nl (l :: ls)) d = q.
Proof.
  revert l; induction ls as [|m ls IH]; intros l H;
    inversion H as [|? ? [Hl Hq] Hls]; subst; [reflexivity|].
  change (join nl (l :: m :: ls)) with (l ++ nl ++ join nl (m :: ls)).
  rewrite app_assoc, last_app_nonEmpty; [apply IH, Hls|].
  inversion Hls as [|? ? [Hm _] _]; subst. apply join_nonEmpty, Hm.
Qed.

Lemma rowLine_facts (r : Backend.translationRow) :
  plainRow r = true ->
  nonEmpty (rowLine r) = true /\ noNewline (rowLine r) = true
  /\ hd 0%N (rowLine r) = Backend.quote
  /\ last (rowLine r) 0%N = Backend.quote
  /\ Backend.parseCSVLine (rowLine r) = map trim (rowFields r).
Proof.
  destruct r as [e a x z]. unfold plainRow, rowFields.
  cbn [forallb Backend.english Backend.afrikaans Backend.isiXhosa
       Backend.isiZulu]. rewrite andb_true_r. intros H.
  repeat (apply andb_prop in H; let H' := fresh "H" in destruct H as [H' H]).
  repeat match goal with
         | H : _ && _ = true |- _ =>
             apply andb_prop in H; let H' := fresh "Hq" in destruct H as [H' H]
         end.
  split; [reflexivity|]. split; [|split; [reflexivity|split]].
  - unfold rowLine, rowFields, quoted. cbn [map join Backend.english
      Backend.afrikaans Backend.isiXhosa Backend.isiZulu].
    repeat (rewrite ?noNewline_app; cbn [noNewline forallb app]).
    rewrite ?noNewline_app.
    unfold noNewline in *.
    repeat match goal with H : forallb _ _ = true |- _ => rewrite H; clear H end.
    reflexivity.
  - unfold rowLine, rowFields. cbn [map join Backend.english
      Backend.afrikaans Backend.isiXhosa Backend.isiZulu].
    rewrite !(last_app_nonEmpty _ _ _) by reflexivity.
    unfold quoted. change (Backend.quote :: z ++ [Backend.quote])
      with ((Backend.quote :: z) ++ [Backend.quote]). apply last_last.
  - apply parseCSVLine_quoted. cbn [forallb Backend.english
      Backend.afrikaans Backend.isiXhosa Backend.isiZulu].
    repeat match goal with H : noQuote _ = true |- _ => rewrite H; clear H end.
    reflexivity.
Qed.

Lemma parseCSV_lines (h : jsstring) (rs : list Backend.translationRow) :
  sectionLine h = true -> forallb plainRow rs = true ->
  split (trim (join nl (h :: map rowLine rs))) = h :: map rowLine rs.
Proof.
  intros Hh Hrs. unfold sectionLine in Hh.
  apply andb_prop in Hh. destruct Hh as [Hh Hn].
  apply andb_prop in Hh. destruct Hh as [Hne Ht].
  assert (Hall : Forall (fun r => plainRow r = true) rs)
    by (apply Forall_forall; intros r Hr;
        exact (proj1 (forallb_forall _ _) Hrs r Hr)).
  rewrite trim_trimmed.
  - apply split_join. cbn [forallb]. rewrite Hn. cbn [andb].
    apply forallb_forall. intros l Hl. apply in_map_iff in Hl.
    destruct Hl as (r & <- & Hr).
    apply (rowLine_facts r), (proj1 (Forall_forall _ _) Hall r Hr).
  - destruct rs as [|r rs]; [exact Ht|].
    change (join nl (h :: map rowLine (r :: rs)))
      with (h ++ nl ++ join nl (rowLine r :: map rowLine rs)).
    destruct h as [|c h]; [discriminate|].
    unfold trimmed in *. cbn [app].
    apply andb_prop in Ht. destruct Ht as [Hc _]. rewrite Hc. cbn [andb].
    change (c :: h ++ nl ++ join nl (rowLine r :: map rowLine rs))
      with ((c :: h) ++ nl ++ join nl (rowLine r :: map rowLine rs)).
    rewrite app_assoc, last_app_nonEmpty.
    + rewrite (last_join _ _ 0%N Backend.quote); [reflexivity|].
      change (rowLine r :: map rowLine rs) with (map rowLine (r :: rs)).
      apply Forall_forall. intros l Hl. apply in_map_iff in Hl.
      destruct Hl as (r' & <- & Hr').
      destruct (rowLine_facts r' (proj1 (Forall_forall _ _) Hall r' Hr'))
        as (A & _ & _ & B & _). split; assumption.
    + apply join_nonEmpty. inversion Hall; subst.
      apply (rowLine_facts r). assumption.
Qed.

(** X3.  A table written as a header line followed by one line of four
    double-quoted values per row is read back as those rows, each value
    trimmed: the header is skipped and no row is lost or split, commas
    inside the values included. *)
Theorem parseCSV_quoted_rows (h : jsstring) (rs : list Backend.translationRow) :
  sectionLine h = true -> forallb plainRow rs = true ->
  Backend.parseCSV (join nl (h :: map rowLine rs)) = map trimRow rs.
Proof.
  intros Hh Hrs. unfold Backend.parseCSV.
  rewrite (parseCSV_lines h rs Hh Hrs). cbn [skipn].
  clear Hh. induction rs as [|r rs IH]; [reflexivity|].
  cbn [forallb] in Hrs. apply andb_prop in Hrs. destruct Hrs as [Hr Hrs].
  cbn [map flat_map]. rewrite (IH Hrs).
  destruct (rowLine_facts r Hr) as (Hne & _ & Hhd & Hl & Hp).
  rewrite Hp. rewrite trim_trimmed.
  - rewrite Hne. destruct r; reflexivity.
  - unfold trimmed. destruct (rowLine r) as [|c l] eqn:E; [reflexivity|].
    cbn [hd] in Hhd. subst c. rewrite Hl. reflexivity.
Qed.

Lemma parseCSV_quoted_rows_witness :
  Backend.parseCSV (join nl (sampleHeader :: map rowLine [sampleRow; sampleRow]))
  = map trimRow [sampleRow; sampleRow].
Proof.
  apply (parseCSV_quoted_rows sampleHeader [sampleRow; sampleRow]);
    vm_compute; reflexivity.
Defined.

(** ** The translate routes and the lookups of the page *)

Lemma lowerUnit_not_upper (c : N) : (65 <= c <= 90)%N -> forall u, lowerUnit u <> c.
Proof.
  intros Hc u. unfold lowerUnit.
  destruct ((65 <=? u)%N && (u <=? 90)%N) eqn:E1; simpl.
  - apply andb_prop in E1. destruct E1 as [A B].
    apply N.leb_le in A, B. lia.
  - destruct ((192 <=? u)%N && (u <=? 222)%N && negb (u =? 215)%N) eqn:E2.
    + apply andb_prop in E2. destruct E2 as [E2 _].
      apply andb_prop in E2. destruct E2 as [A B].
      apply N.leb_le in A, B. lia.
    + intros ->. apply andb_false_iff in E1.
      destruct E1 as [E|E]; apply N.leb_gt in E; lia.
Qed.

Lemma normalizedType_not_timeOfDay (type : jsstring) :
  Backend.normalizedType type <> timeOfDayTable.
Proof.
  unfold Backend.normalizedType, timeOfDayTable.
  destruct type as [|c0 t]; [discriminate|].
  cbn [charAt0 slice1 firstn skipn toUpperCase toLowerCase map app].
  do 8 (destruct t as [|? t]; [discriminate|]).
  cbn [map]. intros E. injection E as _ _ _ _ _ _ _ _ E _.
  revert E. apply lowerUnit_not_upper. lia.
Qed.

Lemma withoutTable_normalized (csv : jsstring -> option (list Backend.translationRow))
  (type : jsstring) :
  withoutTable timeOfDayTable csv (Backend.normalizedType type)
  = csv (Backend.normalizedType type).
Proof.
  unfold withoutTable.
  destruct (JS.eqb _ timeOfDayTable) eqn:E; [|reflexivity].
  apply eqb_eq in E. destruct (normalizedType_not_timeOfDay type E).
Qed.

(** X5.  The translate routes never read the [Time_of_Day] table: the
    type of a request is normalised to a capital followed by lower case
    letters, which never spells [Time_of_Day], so the replies are the same
    when that table cannot be read at all. *)
Theorem translate_ignores_timeOfDay_table
  (csv : jsstring -> option (list Backend.translationRow))
  (text type targetLanguage : jsstring) (items : list (jsstring * jsstring)) :
  Backend.translate (withoutTable timeOfDayTable csv) text type targetLanguage
  = Backend.translate csv text type targetLanguage
  /\ Backend.translateBatch (withoutTable timeOfDayTable csv) items targetLanguage
     = Backend.translateBatch csv items targetLanguage.
Proof.
  split.
  - unfold Backend.translate. rewrite withoutTable_normalized. reflexivity.
  - unfold Backend.translateBatch. destruct (negb (nonEmpty targetLanguage));
      [reflexivity|]. f_equal. apply map_ext. intros [t ty].
    unfold Backend.translateItem. rewrite withoutTable_normalized. reflexivity.
Qed.

(** X6.  Whatever the tables and the language, the time-of-day lookup of
    the page returns the English word it was given: its request is
    refused as of invalid type, and the utility falls back to the English
    text. *)
Theorem translateTimeOfDay_english
  (csv : jsstring -> option (list Backend.translationRow))
  (englishTimeOfDay targetLanguage : jsstring) :
  translateTimeOfDay (Utils.lookupsOf csv) englishTimeOfDay targetLanguage
  = Some englishTimeOfDay.
Proof.
  cbn [translateTimeOfDay Utils.lookupsOf]. f_equal.
  unfold Utils.translateOption, Backend.translate.
  destruct (negb (nonEmpty englishTimeOfDay)); [reflexivity|].
  destruct (negb (nonEmpty targetLanguage)); reflexivity.
Qed.

Lemma staticTranslation_nguni (targetLanguage : jsstring) :
  toLowerCase targetLanguage = Backend.isixhosaTag
  \/ toLowerCase targetLanguage = Backend.isizuluTag ->
  Backend.staticTranslation Utils.takeKey targetLanguage
  = Backend.jsonString Utils.takeKey
  /\ Backend.staticTranslation Utils.headerKey targetLanguage
     = Backend.jsonString Utils.headerKey.
Proof.
  intros [H|H]; unfold Backend.staticTranslation; rewrite H;
    split; reflexivity.
Qed.

(** X7.  For a language whose lower-case spelling is [isixhosa] or
    [isizulu], the lookups of the word "take" and of the precautions header
    return the lookup keys themselves, [take] and [precautionsHeader]: the
    static table is indexed by [isiXhosa] and [isiZulu], the route asks
    for the lower-case spelling. *)
Theorem static_words_untranslated
  (csv : jsstring -> option (list Backend.translationRow))
  (targetLanguage : jsstring) :
  toLowerCase targetLanguage = Backend.isixhosaTag
  \/ toLowerCase targetLanguage = Backend.isizuluTag ->
  translateTake (Utils.lookupsOf csv) targetLanguage = Some Utils.takeKey
  /\ translatePrecautionsHeader (Utils.lookupsOf csv) targetLanguage
     = Some Utils.headerKey.
Proof.
  intros H. cbn [translateTake translatePrecautionsHeader Utils.lookupsOf].
  unfold Utils.translateStatic, Backend.translate.
  assert (Hl : nonEmpty targetLanguage = true).
  { destruct targetLanguage; [destruct H as [H|H]; discriminate H|reflexivity]. }
  rewrite Hl. cbn [nonEmpty Utils.takeKey Utils.headerKey negb orb].
  change (JS.eqb Backend.staticType Backend.staticType) with true. cbv iota.
  destruct (staticTranslation_nguni _ H) as [E1 E2]. rewrite E1, E2.
  split; reflexivity.
Qed.

Lemma static_words_untranslated_witness :
  translateTake (Utils.lookupsOf (fun _ => None)) isiZulu = Some Utils.takeKey
  /\ translatePrecautionsHeader (Utils.lookupsOf (fun _ => None)) isiZulu
     = Some Utils.headerKey.
Proof.
  apply (static_words_untranslated (fun _ => None) isiZulu).
  right. vm_compute. reflexivity.
Defined.

Lemma substituteTimeWords_total (lk : lookups) (timeOfDay language : jsstring)
  (words : list jsstring) (text : jsstring) :
  (forall t l, translateTimeOfDay lk t l <> None) ->
  substituteTimeWords lk timeOfDay language words text <> None.
Proof.
  intros H. revert text; induction words as [|w words IH]; intros text.
  - discriminate.
  - cbn [substituteTimeWords]. destruct (includes w (toLowerCase timeOfDay));
      [|apply IH].
    destruct (translateTimeOfDay lk (capitalize w) language) eqn:E.
    + cbn [bind]. apply IH.
    + destruct (H _ _ E).
Qed.

(** The substitution produces a text as soon as the word "take" is found
    and no other lookup raises. *)
Lemma translateText_total (lk : lookups) (text language : jsstring)
  (formData : MedicationForm) :
  translateTake lk language <> None ->
  translatePrecautionsHeader lk language <> None ->
  (forall t, translateDosage lk t language <> None) ->
  (forall t, translateFrequency lk t language <> None) ->
  (forall t, translateInterval lk t language <> None) ->
  (forall t l, translateTimeOfDay lk t l <> None) ->
  (forall ps, translatePrecautions lk ps language <> None) ->
  exists translatedText,
    translateText lk text language formData = Some translatedText.
Proof.
  intros Ht Hh Hd Hf Hi Hti Hp.
  unfold translateText, substituteTake, substitutePrecautionsWord,
    substituteDosage, substituteFrequency, substituteInterval,
    substituteTimeOfDay, substitutePrecautions.
  destruct (translateTake lk language); [|destruct Ht; reflexivity].
  destruct (translatePrecautionsHeader lk language);
    [|destruct Hh; reflexivity].
  cbn [bind].
  destruct (nonEmpty (Form.dosage formData));
    [specialize (Hd (Form.dosage formData));
     destruct (translateDosage lk (Form.dosage formData) language);
     [|destruct Hd; reflexivity]|]; cbn [bind];
  (destruct (nonEmpty (Form.frequency formData));
   [specialize (Hf (Form.frequency formData));
    destruct (translateFrequency lk (Form.frequency formData) language);
    [|destruct Hf; reflexivity]|]); cbn [bind];
  (destruct (nonEmpty (Form.interval formData));
   [specialize (Hi (Form.interval formData));
    destruct (translateInterval lk (Form.interval formData) language);
    [|destruct Hi; reflexivity]|]); cbn [bind];
  (destruct (nonEmpty (Form.timeOfDay formData));
   [ match goal with
     | |- context [substituteTimeWords ?lk ?a ?b ?c ?d] =>
         let E := fresh in
         destruct (substituteTimeWords lk a b c d) eqn:E;
         [ cbn [bind]
         | exfalso; revert E; apply substituteTimeWords_total; exact Hti ]
     end
   | cbn [bind] ]);
  (destruct (Nat.ltb 0 (List.length (Form.precautions formData)));
   [specialize (Hp (Form.precautions formData));
    destruct (translatePrecautions lk (Form.precautions formData) language);
    [|destruct Hp; reflexivity]|]); cbn [bind];
  eauto.
Qed.

Lemma ownProperty_key {A : Type} (key : jsstring) (obj : list (jsstring * A))
  (v : A) :
  Backend.ownProperty key obj = Some v -> In key (map fst obj).
Proof.
  induction obj as [|[k w] obj IH]; cbn [Backend.ownProperty map fst In];
    [discriminate|].
  destruct (JS.eqb k key) eqn:E.
  - intros _. left. apply eqb_eq, E.
  - intros H. right. apply IH, H.
Qed.

(** A read of an object literal none of whose own names is inherited:
    it finds an inherited member exactly under an inherited name. *)
Lemma property_inherited {A : Type} (key : jsstring)
  (obj : list (jsstring * A)) :
  forallb (fun k => negb (inheritedName k)) (map fst obj) = true ->
  match Backend.property key obj with
  | Backend.own _ | Backend.undefined => inheritedName key = false
  | Backend.objectPrototype | Backend.prototypeFunction _ =>
      inheritedName key = true
  end.
Proof.
  intros H. unfold Backend.property.
  destruct (Backend.ownProperty key obj) as [v|] eqn:E.
  - apply ownProperty_key in E.
    apply (proj1 (forallb_forall _ _) H) in E.
    apply negb_true_iff, E.
  - unfold inheritedName.
    destruct (JS.eqb key Backend.protoKey); [reflexivity|].
    destruct (existsb _ _); reflexivity.
Qed.

(** The two words the page asks for are own names of the static table:
    the answer is a string unless the language, in lower case, is an
    inherited name. *)
Lemma staticTranslation_word (word targetLanguage : jsstring) :
  word = Utils.takeKey \/ word = Utils.headerKey ->
  match Backend.staticTranslation word targetLanguage with
  | Backend.jsonString _ => inheritedName (toLowerCase targetLanguage) = false
  | Backend.jsonMissing | Backend.jsonObject =>
      inheritedName (toLowerCase targetLanguage) = true
  | Backend.unfollowed => False
  end.
Proof.
  intros Hw. unfold Backend.staticTranslation.
  assert (E : exists words,
             Backend.property word Backend.getStaticTranslations
             = Backend.own words
             /\ forallb (fun k => negb (inheritedName k)) (map fst words)
                = true).
  { destruct Hw as [-> | ->]; eexists; split; reflexivity. }
  destruct E as (words & -> & Hk).
  pose proof (property_inherited (toLowerCase targetLanguage) words Hk) as P.
  destruct (Backend.property (toLowerCase targetLanguage) words); exact P.
Qed.

Lemma translateStatic_word
  (csv : jsstring -> option (list Backend.translationRow))
  (word targetLanguage : jsstring) :
  word = Utils.takeKey \/ word = Utils.headerKey ->
  match Utils.translateStatic csv word targetLanguage with
  | Backend.jsonString _ => inheritedName (toLowerCase targetLanguage) = false
  | Backend.jsonMissing | Backend.jsonObject =>
      inheritedName (toLowerCase targetLanguage) = true
  | Backend.unfollowed => False
  end.
Proof.
  intros Hw. unfold Utils.translateStatic, Backend.translate.
  assert (Hn : nonEmpty word = true) by (destruct Hw as [-> | ->]; reflexivity).
  rewrite Hn. cbn [negb orb nonEmpty Backend.staticType].
  destruct targetLanguage as [|c l]; [reflexivity|].
  cbn [nonEmpty negb].
  change (JS.eqb Backend.staticType Backend.staticType) with true. cbv iota.
  apply staticTranslation_word, Hw.
Qed.

(** The requests for a table are answered with a string, or refused. *)
Lemma translateOption_string
  (csv : jsstring -> option (list Backend.translationRow))
  (englishText targetLanguage type : jsstring) :
  JS.eqb (capitalize type) Backend.staticType = false ->
  exists s,
    Utils.translateOption csv englishText targetLanguage type
    = Backend.jsonString s.
Proof.
  intros H. unfold Utils.translateOption, Backend.translate. rewrite H.
  destruct (_ || _); [eauto|].
  destruct (negb _); [eauto|].
  destruct (csv _); eauto.
Qed.

Lemma translateItem_precaution
  (csv : jsstring -> option (list Backend.translationRow))
  (targetLanguage p : jsstring) :
  exists s,
    Backend.translateItem csv targetLanguage (p, Utils.precautionsType)
    = Backend.jsonString s.
Proof.
  unfold Backend.translateItem.
  destruct (_ || _); [eauto|].
  change (JS.eqb Utils.precautionsType Backend.staticType) with false.
  cbv iota. destruct (negb _); [eauto|]. destruct (csv _); eauto.
Qed.

Lemma translatePrecautions_strings
  (csv : jsstring -> option (list Backend.translationRow))
  (englishPrecautions : list jsstring) (targetLanguage : jsstring) :
  exists l,
    Utils.translatePrecautions csv englishPrecautions targetLanguage
    = map Backend.jsonString l.
Proof.
  unfold Utils.translatePrecautions, Utils.translateMultiple,
    Backend.translateBatch.
  destruct (negb (nonEmpty targetLanguage)).
  - exists englishPrecautions. rewrite map_map. reflexivity.
  - induction englishPrecautions as [|p ps (l & IH)]; [exists []; reflexivity|].
    destruct (translateItem_precaution csv targetLanguage p) as (s & E).
    exists (s :: l). cbn [map]. rewrite E. f_equal. exact IH.
Qed.

Lemma sequence_strings (l : list jsstring) :
  Utils.sequence (map Utils.precautionText (map Backend.jsonString l)) = Some l.
Proof.
  induction l as [|s l IH]; [reflexivity|].
  cbn [map Utils.sequence Utils.precautionText Utils.replacement].
  cbn [map] in IH. rewrite IH. reflexivity.
Qed.

(** X8.  With the lookups of the vocabulary service the substitution of
    [generateTranslation] produces a text, whatever the tables, for every
    language but those that are, in lower case, a name every object
    inherits, [constructor] or [__proto__]: then the word "take" is not
    answered with a string and the [try] block raises. *)
Theorem translateText_raises_on_inherited_names
  (csv : jsstring -> option (list Backend.translationRow))
  (text language : jsstring) (formData : MedicationForm) :
  match translateText (Utils.lookupsOf csv) text language formData with
  | Some _ => inheritedName (toLowerCase language) = false
  | None => inheritedName (toLowerCase language) = true
  end.
Proof.
  pose proof (translateStatic_word csv Utils.takeKey language
                (or_introl eq_refl)) as Ht.
  pose proof (translateStatic_word csv Utils.headerKey language
                (or_intror eq_refl)) as Hh.
  destruct (translateTake (Utils.lookupsOf csv) language) as [t|] eqn:Et.
  - assert (Hinh : inheritedName (toLowerCase language) = false).
    { cbn [translateTake Utils.lookupsOf] in Et.
      destruct (Utils.translateStatic csv Utils.takeKey language);
        try discriminate Et. exact Ht. }
    destruct (translateText_total (Utils.lookupsOf csv) text language formData)
      as (r & E).
    + rewrite Et. discriminate.
    + cbn [translatePrecautionsHeader Utils.lookupsOf].
      destruct (Utils.translateStatic csv Utils.headerKey language);
        cbn [Utils.replacement]; [discriminate .. | destruct Hh].
    + intros d. cbn [translateDosage Utils.lookupsOf].
      destruct (translateOption_string csv d language Utils.dosageType
                  eq_refl) as (s & ->). discriminate.
    + intros d. cbn [translateFrequency Utils.lookupsOf].
      destruct (translateOption_string csv d language Utils.frequencyType
                  eq_refl) as (s & ->). discriminate.
    + intros d. cbn [translateInterval Utils.lookupsOf].
      destruct (translateOption_string csv d language Utils.intervalsType
                  eq_refl) as (s & ->). discriminate.
    + intros d l. cbn [translateTimeOfDay Utils.lookupsOf].
      destruct (translateOption_string csv d l Utils.timeOfDayType
                  eq_refl) as (s & ->). discriminate.
    + intros ps. cbn [translatePrecautions Utils.lookupsOf].
      destruct (translatePrecautions_strings csv ps language) as (l & ->).
      rewrite sequence_strings. discriminate.
    + rewrite E. exact Hinh.
  - assert (E : translateText (Utils.lookupsOf csv) text language formData
                = None).
    { unfold translateText, substituteTake. rewrite Et. reflexivity. }
    rewrite E. cbn [translateTake Utils.lookupsOf] in Et.
    destruct (Utils.translateStatic csv Utils.takeKey language);
      [discriminate Et | exact Ht | exact Ht | destruct Ht].
Qed.

Lemma translateOption_cases (englishText targetLanguage : jsstring)
  (options : list Backend.translationRow) :
  let r := Backend.translateOption englishText targetLanguage options in
  r = englishText
  \/ exists row, In row options /\ Backend.english row = englishText
       /\ (r = Backend.afrikaans row \/ r = Backend.isiXhosa row
           \/ r = Backend.isiZulu row).
Proof.
  cbn zeta. unfold Backend.translateOption.
  destruct (find _ options) as [row|] eqn:E; [|left; reflexivity].
  apply find_some in E. destruct E as [Hin He]. apply eqb_eq in He.
  destruct (JS.eqb _ Backend.afrikaansTag); [right; exists row; auto|].
  destruct (JS.eqb _ Backend.isixhosaTag); [right; exists row; auto|].
  destruct (JS.eqb _ Backend.isizuluTag); [right; exists row; auto|].
  left; reflexivity.
Qed.

(** X4.  [translateOption] returns either the English text unchanged or a
    translation taken from a row of the table whose English column is
    exactly that text. *)
Theorem translateOption_result (englishText targetLanguage : jsstring)
  (options : list Backend.translationRow) :
  let r := Backend.translateOption englishText targetLanguage options in
  r = englishText
  \/ exists row, In row options /\ Backend.english row = englishText
       /\ (r = Backend.afrikaans row \/ r = Backend.isiXhosa row
           \/ r = Backend.isiZulu row).
Proof. apply translateOption_cases. Qed.

(** X9.  The precautions lookup of the page answers one for one: the
    result has an entry for every precaution, and each entry is the
    English precaution itself or a translation from a row of the
    [Precautions] table whose English column is that precaution. *)
Theorem translatePrecautions_pointwise
  (csv : jsstring -> option (list Backend.translationRow))
  (englishPrecautions : list jsstring) (targetLanguage : jsstring) :
  Forall2
    (fun p t =>
       t = Backend.jsonString p
       \/ exists options row,
            csv precautionsTable = Some options /\ In row options
            /\ Backend.english row = p
            /\ (t = Backend.jsonString (Backend.afrikaans row)
                \/ t = Backend.jsonString (Backend.isiXhosa row)
                \/ t = Backend.jsonString (Backend.isiZulu row)))
    englishPrecautions
    (Utils.translatePrecautions csv englishPrecautions targetLanguage).
Proof.
  unfold Utils.translatePrecautions, Utils.translateMultiple,
    Backend.translateBatch.
  destruct (negb (nonEmpty targetLanguage)).
  - induction englishPrecautions as [|p ps IH]; constructor; auto.
  - induction englishPrecautions as [|p ps IH]; constructor; [|exact IH].
    unfold Backend.translateItem.
    destruct (negb (nonEmpty p)); [left; reflexivity|].
    cbn [nonEmpty Utils.precautionsType negb orb].
    change (JS.eqb Utils.precautionsType Backend.staticType) with false.
    change (Backend.normalizedType Utils.precautionsType)
      with precautionsTable.
    change (existsb (JS.eqb precautionsTable) Backend.validTypes) with true.
    cbn [negb]. destruct (csv precautionsTable) as [options|];
      [|left; reflexivity].
    destruct (translateOption_cases p targetLanguage options)
      as [E|(row & Hin & He & Hr)]; [left; rewrite E; reflexivity|].
    right. exists options, row.
    repeat split; try assumption.
    destruct Hr as [-> | [-> | ->]]; auto.
Qed.

(** * The medication tabs *)

Lemma existsb_eqb_In (x : N) (l : list N) :
  existsb (N.eqb x) l = true <-> In x l.
Proof.
  rewrite existsb_exists. split.
  - intros (y & Hy & E). apply N.eqb_eq in E. subst y. exact Hy.
  - intros H. exists x. split; [exact H | apply N.eqb_refl].
Qed.

Lemma uniqueIds_NoDup (l : list N) : uniqueIds l = true <-> NoDup l.
Proof.
  induction l as [|x l IH]; cbn [uniqueIds].
  - split; [constructor | reflexivity].
  - rewrite andb_true_iff, negb_true_iff, IH. split.
    + intros [Hx Hl]. constructor; [|exact Hl].
      intros Hin. apply existsb_eqb_In in Hin. congruence.
    + intros H. inversion H as [|? ? Hx Hl]; subst. split; [|exact Hl].
      destruct (existsb (N.eqb x) l) eqn:E; [|reflexivity].
      apply existsb_eqb_In in E. destruct (Hx E).
Qed.

Lemma updated_ids (f : Tabs.MedicationTab -> Tabs.MedicationTab)
  (tabs : list Tabs.MedicationTab) :
  (forall tab, Tabs.id (f tab) = Tabs.id tab) ->
  map Tabs.id (map f tabs) = map Tabs.id tabs.
Proof. intros H. rewrite map_map. apply map_ext, H. Qed.

Lemma saved_ids (f : MedicationForm) (i : InstructionDisplay)
  (tabs : list Tabs.MedicationTab) :
  map Tabs.id
    (map (fun tab =>
            if Tabs.isActive tab then
              Tabs.mkTab (Tabs.id tab)
                (orElse (Form.name f) (Tabs.medicationLabel (Tabs.id tab)))
                (Tabs.isActive tab) f i
            else tab) tabs)
  = map Tabs.id tabs.
Proof.
  apply updated_ids. intros tab. destruct (Tabs.isActive tab); reflexivity.
Qed.

Lemma filter_ids_absent (tabId : N) (tabs : list Tabs.MedicationTab) :
  ~ In tabId (map Tabs.id tabs) ->
  filter (fun tab => negb (N.eqb (Tabs.id tab) tabId)) tabs = tabs.
Proof.
  induction tabs as [|t tabs IH]; [reflexivity|]. cbn [map filter]. intros H.
  destruct (N.eqb_spec (Tabs.id t) tabId) as [E|E].
  - exfalso. apply H. left. exact E.
  - cbn [negb]. rewrite IH; [reflexivity|]. intros Hin. apply H. right. exact Hin.
Qed.

Lemma filter_ids_length (tabId : N) (tabs : list Tabs.MedicationTab) :
  NoDup (map Tabs.id tabs) -> In tabId (map Tabs.id tabs) ->
  S (List.length (filter (fun tab => negb (N.eqb (Tabs.id tab) tabId)) tabs))
  = List.length tabs.
Proof.
  induction tabs as [|t tabs IH]; [intros _ []|]. cbn [map filter].
  intros Hnd Hin. inversion Hnd as [|? ? Hx Hl]; subst.
  destruct (N.eqb_spec (Tabs.id t) tabId) as [E|E].
  - cbn [negb]. subst tabId. rewrite (filter_ids_absent _ _ Hx). reflexivity.
  - cbn [negb List.length]. f_equal. apply IH; [exact Hl|].
    destruct Hin as [Hin|Hin]; [destruct (E Hin) | exact Hin].
Qed.

Lemma filter_ids_sub (tabId : N) (tabs : list Tabs.MedicationTab) :
  NoDup (map Tabs.id tabs) ->
  NoDup (map Tabs.id
           (filter (fun tab => negb (N.eqb (Tabs.id tab) tabId)) tabs)).
Proof.
  induction tabs as [|t tabs IH]; [intros; constructor|]. cbn [map filter].
  intros Hnd. inversion Hnd as [|? ? Hx Hl]; subst.
  destruct (negb (N.eqb (Tabs.id t) tabId)); [|apply IH, Hl].
  cbn [map]. constructor; [|apply IH, Hl].
  intros Hin. apply Hx. apply in_map_iff in Hin.
  destruct Hin as (u & Eu & Hu). apply filter_In in Hu.
  apply in_map_iff. exists u. tauto.
Qed.

Lemma find_id_In (tabId : N) (tabs : list Tabs.MedicationTab) :
  In tabId (map Tabs.id tabs) ->
  exists tab, find (fun tab => N.eqb (Tabs.id tab) tabId) tabs = Some tab
              /\ In tab tabs /\ Tabs.id tab = tabId.
Proof.
  intros H. destruct (find _ tabs) as [tab|] eqn:E.
  - exists tab. apply find_some in E. destruct E as [Hin He].
    apply N.eqb_eq in He. auto.
  - apply in_map_iff in H. destruct H as (u & Eu & Hu).
    pose proof (find_none _ _ E u Hu) as Hn. cbn beta in Hn.
    rewrite Eu, N.eqb_refl in Hn. discriminate Hn.
Qed.





Lemma delete_result (tabId : N) (cl st : Tabs.session)
  (tabToDelete : Tabs.MedicationTab) :
  Nat.leb (List.length (Tabs.medicationTabs cl)) 1 = false ->
  find (fun tab => N.eqb (Tabs.id tab) tabId) (Tabs.medicationTabs cl)
  = Some tabToDelete ->
  let r := Tabs.handleDeleteMedication tabId cl st in
  let updatedTabs :=
    filter (fun tab => negb (N.eqb (Tabs.id tab) tabId))
      (Tabs.medicationTabs cl) in
  Tabs.medicationTabs r = updatedTabs
  /\ Tabs.stored r = Some updatedTabs
  /\ Tabs.nextTabId r = Tabs.nextTabId st.
Proof.
  intros Hl Ef. cbn zeta. unfold Tabs.handleDeleteMedication.
  rewrite Hl, Ef. destruct (Tabs.isActive tabToDelete); [|repeat split].
  destruct (filter _ (Tabs.medicationTabs cl)); repeat split.
Qed.



Lemma active_by_id (tabId : N) (tabs : list Tabs.MedicationTab) :
  NoDup (map Tabs.id tabs) -> In tabId (map Tabs.id tabs) ->
  activeIds
    (map (fun tab =>
            Tabs.mkTab (Tabs.id tab) (Tabs.name tab)
              (N.eqb (Tabs.id tab) tabId) (Tabs.formData tab)
              (Tabs.instructions tab)) tabs)
  = [tabId].
Proof.
  unfold activeIds.
  induction tabs as [|t tabs IH]; [intros _ []|]. cbn [map filter Tabs.isActive].
  intros Hnd Hin. inversion Hnd as [|? ? Hx Hl]; subst.
  destruct (N.eqb_spec (Tabs.id t) tabId) as [E|E].
  - cbn [map Tabs.id]. rewrite E. f_equal. subst tabId.
    clear IH Hin Hnd Hl. induction tabs as [|u tabs IH]; [reflexivity|].
    cbn [map filter Tabs.isActive].
    destruct (N.eqb_spec (Tabs.id u) (Tabs.id t)) as [E'|E'].
    + exfalso. apply Hx. left. exact E'.
    + apply IH. intros Hin. apply Hx. right. exact Hin.
  - apply IH; [exact Hl|]. destruct Hin as [Hin|Hin]; [destruct (E Hin)|exact Hin].
Qed.

(** X13.  A click on a tab, the tabs being told apart by their
    identifiers: exactly the clicked tab is active afterwards and its data
    is loaded into the form; every tab keeps the name, form data and
    instructions it had at the render, so the save of the current form
    made at the start of the handler is overwritten. *)
Theorem handleTabClick_switches (tabId : N) (s : Tabs.session) :
  uniqueIds (map Tabs.id (Tabs.medicationTabs s)) = true ->
  existsb (N.eqb tabId) (map Tabs.id (Tabs.medicationTabs s)) = true ->
  let r := Tabs.handleTabClick tabId s s in
  activeIds (Tabs.medicationTabs r) = [tabId]
  /\ map Tabs.id (Tabs.medicationTabs r) = map Tabs.id (Tabs.medicationTabs s)
  /\ map Tabs.name (Tabs.medicationTabs r)
     = map Tabs.name (Tabs.medicationTabs s)
  /\ map Tabs.formData (Tabs.medicationTabs r)
     = map Tabs.formData (Tabs.medicationTabs s)
  /\ map Tabs.instructions (Tabs.medicationTabs r)
     = map Tabs.instructions (Tabs.medicationTabs s)
  /\ Tabs.stored r = Some (Tabs.medicationTabs r)
  /\ exists targetTab,
       In targetTab (Tabs.medicationTabs s) /\ Tabs.id targetTab = tabId
       /\ Tabs.medicationForm r = Tabs.formData targetTab
       /\ Tabs.instructionDisplay r = Tabs.instructions targetTab.
Proof.
  intros Hu Hin r. apply uniqueIds_NoDup in Hu. apply existsb_eqb_In in Hin.
  destruct (find_id_In tabId _ Hin) as (t & Ef & Ht & Eid).
  subst r. unfold Tabs.handleTabClick. rewrite Ef.
  cbn [Tabs.medicationTabs Tabs.setInstructionDisplay Tabs.setMedicationForm
       Tabs.setItem Tabs.setMedicationTabs Tabs.stored Tabs.medicationForm
       Tabs.instructionDisplay].
  split; [apply active_by_id; assumption|].
  rewrite !map_map. cbn [Tabs.id Tabs.name Tabs.formData Tabs.instructions].
  repeat (split; [reflexivity|]). exists t. auto.
Qed.

Lemma handleTabClick_switches_witness :
  activeIds (Tabs.medicationTabs (Tabs.handleTabClick 2 twoTabs twoTabs)) = [2%N]
  /\ map Tabs.formData (Tabs.medicationTabs (Tabs.handleTabClick 2 twoTabs twoTabs))
     = map Tabs.formData (Tabs.medicationTabs twoTabs).
Proof.
  assert (Hu : uniqueIds (map Tabs.id (Tabs.medicationTabs twoTabs)) = true)
    by (vm_compute; reflexivity).
  assert (Hk : existsb (N.eqb 2) (map Tabs.id (Tabs.medicationTabs twoTabs))
               = true) by (vm_compute; reflexivity).
  destruct (handleTabClick_switches 2 twoTabs Hu Hk) as (A & _ & _ & B & _).
  split; [exact A | exact B].
Defined.



(** X11.  Adding a medication appends a blank tab that is not active and
    blanks the form, while the tabs of the render, the active one
    included, stay as they were; a save made next therefore goes to the
    tab that was active before, and the new tab stays blank. *)
Theorem handleAddAnotherMedication_next_save (s : Tabs.session)
  (f : MedicationForm) (i : InstructionDisplay) :
  let newTab :=
    Tabs.mkTab (Tabs.nextTabId s) (Tabs.medicationLabel (Tabs.nextTabId s))
      false Tabs.blankForm Tabs.defaultInstructions in
  let s1 := Tabs.handleAddAnotherMedication s s in
  let s2 := Tabs.updateActiveTabData f i s1 s1 in
  Tabs.medicationTabs s1 = Tabs.medicationTabs s ++ [newTab]
  /\ activeIds (Tabs.medicationTabs s1) = activeIds (Tabs.medicationTabs s)
  /\ Tabs.medicationForm s1 = Tabs.blankForm
  /\ Tabs.instructionDisplay s1 = Tabs.defaultInstructions
  /\ Tabs.medicationTabs s2
     = Tabs.medicationTabs (Tabs.updateActiveTabData f i s s) ++ [newTab].
Proof.
  cbn zeta. unfold Tabs.handleAddAnotherMedication, Tabs.updateActiveTabData.
  cbn [Tabs.medicationTabs Tabs.setInstructionDisplay Tabs.setMedicationForm
       Tabs.setItem Tabs.setMedicationTabs Tabs.setNextTabId Tabs.stored
       Tabs.medicationForm Tabs.instructionDisplay Tabs.nextTabId].
  split; [reflexivity|]. split.
  - unfold activeIds. rewrite filter_app. cbn [filter Tabs.isActive].
    rewrite app_nil_r. reflexivity.
  - split; [reflexivity|]. split; [reflexivity|].
    rewrite map_app. reflexivity.
Qed.

Lemma uniqueIds_snoc (ids : list N) (n : N) :
  NoDup ids -> Forall (fun i => (i < n)%N) ids -> NoDup (ids ++ [n]).
Proof.
  intros Hnd Hlt. induction ids as [|x ids IH]; cbn [app].
  - constructor; [intros []|constructor].
  - inversion Hnd as [|? ? Hx Hl]; subst. inversion Hlt as [|? ? Hxn Hr]; subst.
    constructor; [|apply IH; assumption].
    intros Hin. apply in_app_or in Hin. destruct Hin as [Hin|[E|[]]].
    + exact (Hx Hin).
    + lia.
Qed.

Lemma wellNumbered_spec (s : Tabs.session) :
  wellNumbered s = true <->
  NoDup (map Tabs.id (Tabs.medicationTabs s))
  /\ Forall (fun i => (i < Tabs.nextTabId s)%N)
       (map Tabs.id (Tabs.medicationTabs s))
  /\ Tabs.medicationTabs s <> [].
Proof.
  unfold wellNumbered. rewrite !andb_true_iff, uniqueIds_NoDup.
  rewrite forallb_forall, Forall_forall, Nat.ltb_lt. split.
  - intros [[A B] C]. split; [exact A|]. split.
    + intros i Hi. apply in_map_iff in Hi. destruct Hi as (t & <- & Ht).
      apply N.ltb_lt, B, Ht.
    + intros E. rewrite E in C. cbn in C. lia.
  - intros (A & B & C). split; [split; [exact A|]|].
    + intros t Ht. apply N.ltb_lt, B, in_map, Ht.
    + destruct (Tabs.medicationTabs s); [congruence|cbn; lia].
Qed.

Lemma wellNumbered_ids (s r : Tabs.session) :
  map Tabs.id (Tabs.medicationTabs r) = map Tabs.id (Tabs.medicationTabs s) ->
  Tabs.nextTabId r = Tabs.nextTabId s ->
  wellNumbered s = true -> wellNumbered r = true.
Proof.
  intros E En H. apply wellNumbered_spec in H. apply wellNumbered_spec.
  rewrite E, En. destruct H as (A & B & C). repeat split; try assumption.
  intros Hr. rewrite Hr in E. destruct (Tabs.medicationTabs s); [congruence|].
  discriminate E.
Qed.

Lemma size_below_exactLimit (m : N) :
  (m < exactLimit)%N -> (N.size m <= 53)%N.
Proof.
  intros H. pose proof (N.size_le m) as L.
  destruct (N.le_gt_cases (N.size m) 53) as [A|A]; [exact A|].
  exfalso.
  assert (P : (2 ^ 54 <= 2 ^ N.size m)%N) by (apply N.pow_le_mono_r; lia).
  change (2 ^ 54)%N with 18014398509481984%N in P.
  unfold exactLimit in H. rewrite N.succ_double_spec in L. lia.
Qed.

(** Adding one is exact below 2^53. *)
Lemma plusOne_exact (n : N) :
  (n < exactLimit)%N -> Tabs.plusOne n = (n + 1)%N.
Proof.
  intros H. unfold Tabs.plusOne.
  destruct (N.eq_dec (n + 1) exactLimit) as [E|E].
  - rewrite E. vm_compute. reflexivity.
  - unfold Tabs.toDouble.
    assert (S : (N.size (n + 1) <= 53)%N)
      by (apply size_below_exactLimit; unfold exactLimit in *; lia).
    apply N.leb_le in S. rewrite S. reflexivity.
Qed.

(** At 2^53 it is not: the next double is two away. *)
Example plusOne_exactLimit : Tabs.plusOne exactLimit = exactLimit.
Proof. vm_compute. reflexivity. Qed.

(** X14.  Saving, adding, deleting and switching keep the tabs well
    numbered as long as the next identifier is below 2^53: identifiers
    stay distinct and below the next identifier, and at least one tab
    remains. *)
Theorem handlers_keep_tabs_wellNumbered (s : Tabs.session)
  (f : MedicationForm) (i : InstructionDisplay) (tabId : N) :
  wellNumbered s = true ->
  N.ltb (Tabs.nextTabId s) exactLimit = true ->
  wellNumbered (Tabs.updateActiveTabData f i s s) = true
  /\ wellNumbered (Tabs.handleAddAnotherMedication s s) = true
  /\ wellNumbered (Tabs.handleDeleteMedication tabId s s) = true
  /\ wellNumbered (Tabs.handleTabClick tabId s s) = true.
Proof.
  intros H Hlim. apply N.ltb_lt in Hlim. split; [|split; [|split]].
  - apply (wellNumbered_ids s); [apply saved_ids | reflexivity | exact H].
  - apply wellNumbered_spec in H. destruct H as (A & B & C).
    apply wellNumbered_spec. unfold Tabs.handleAddAnotherMedication.
    cbn [Tabs.medicationTabs Tabs.setInstructionDisplay Tabs.setMedicationForm
         Tabs.setItem Tabs.setMedicationTabs Tabs.setNextTabId Tabs.nextTabId
         Tabs.updateActiveTabData].
    rewrite (plusOne_exact _ Hlim).
    rewrite map_app. cbn [map Tabs.id]. split; [|split].
    + apply uniqueIds_snoc; assumption.
    + apply Forall_app. split.
      * eapply Forall_impl; [|exact B]. cbn beta. intros; lia.
      * constructor; [lia|constructor].
    + intros E. apply app_eq_nil in E. destruct E as [_ E]. discriminate E.
  - destruct (Nat.leb (List.length (Tabs.medicationTabs s)) 1) eqn:Hl.
    { unfold Tabs.handleDeleteMedication. rewrite Hl. exact H. }
    destruct (find (fun tab => N.eqb (Tabs.id tab) tabId)
                (Tabs.medicationTabs s)) as [t|] eqn:Ef.
    2: { unfold Tabs.handleDeleteMedication. rewrite Hl, Ef. exact H. }
    destruct (delete_result tabId s s t Hl Ef) as (Hr & _ & Hn).
    apply find_some in Ef. destruct Ef as [Ht Eid]. apply N.eqb_eq in Eid.
    apply wellNumbered_spec in H. destruct H as (A & B & C).
    assert (Hin : In tabId (map Tabs.id (Tabs.medicationTabs s)))
      by (rewrite <- Eid; apply in_map, Ht).
    pose proof (filter_ids_length tabId _ A Hin) as Hlen.
    apply Nat.leb_gt in Hl.
    apply wellNumbered_spec. rewrite Hr, Hn.
    split; [apply filter_ids_sub, A|]. split.
    + apply Forall_forall. intros j Hj. apply in_map_iff in Hj.
      destruct Hj as (u & <- & Hu). apply filter_In in Hu.
      apply (proj1 (Forall_forall _ _) B). apply in_map. tauto.
    + intros E. rewrite E in Hlen. cbn [List.length] in Hlen. lia.
  - unfold Tabs.handleTabClick.
    destruct (find _ (Tabs.medicationTabs s)) as [t|].
    + apply (wellNumbered_ids s); [|reflexivity|exact H].
      cbn [Tabs.medicationTabs Tabs.setInstructionDisplay
           Tabs.setMedicationForm Tabs.setItem Tabs.setMedicationTabs].
      apply updated_ids. reflexivity.
    + apply (wellNumbered_ids s); [apply saved_ids | reflexivity | exact H].
Qed.

Lemma handlers_keep_tabs_wellNumbered_witness :
  wellNumbered (Tabs.handleAddAnotherMedication twoTabs twoTabs) = true.
Proof.
  apply (handlers_keep_tabs_wellNumbered twoTabs Tabs.blankForm
           Tabs.defaultInstructions 1); vm_compute; reflexivity.
Defined.

(** With the next identifier at 2^53 the new tab takes that identifier
    and the next identifier stays where it is: the tabs are no longer
    well numbered, and the tab added after that has the same identifier. *)
Example tabs_collide_at_exactLimit :
  let s1 := Tabs.handleAddAnotherMedication limitTabs limitTabs in
  let s2 := Tabs.handleAddAnotherMedication s1 s1 in
  wellNumbered limitTabs = true
  /\ Tabs.nextTabId s1 = exactLimit
  /\ wellNumbered s1 = false
  /\ map Tabs.id (Tabs.medicationTabs s2) = [1%N; exactLimit; exactLimit].
Proof. vm_compute. repeat split. Qed.

Lemma max_bound (l : list N) (a : N) :
  (a <= fold_left N.max l a)%N
  /\ Forall (fun i => (i <= fold_left N.max l a)%N) l.
Proof.
  revert a; induction l as [|x l IH]; intros a; cbn [fold_left].
  - split; [lia|constructor].
  - destruct (IH (N.max a x)) as [A B]. split; [lia|].
    constructor; [lia|exact B].
Qed.

Lemma max_below (l : list N) (a b : N) :
  (a < b)%N -> Forall (fun i => (i < b)%N) l ->
  (fold_left N.max l a < b)%N.
Proof.
  revert a; induction l as [|x l IH]; intros a Ha Hl; cbn [fold_left].
  - exact Ha.
  - inversion Hl; subst. apply IH; [lia|assumption].
Qed.

(** X15.  Loading the stored tabs, whose identifiers are distinct and
    below 2^53, or creating the default tab when there are none, gives
    well-numbered tabs: the next identifier is above every loaded one. *)
Theorem loadStoredTabs_wellNumbered
  (parsedTabs : option (list Tabs.MedicationTab)) (st : Tabs.session) :
  match parsedTabs with
  | Some tabs =>
      uniqueIds (map Tabs.id tabs)
      && forallb (fun tab => N.ltb (Tabs.id tab) exactLimit) tabs
  | None => true
  end = true ->
  wellNumbered (Tabs.loadStoredTabs parsedTabs st) = true.
Proof.
  destruct parsedTabs as [[|t tabs]|]; intros H; try reflexivity.
  apply andb_prop in H. destruct H as [H Hb].
  apply wellNumbered_spec. apply uniqueIds_NoDup in H.
  assert (Hlim : (fold_left N.max (map Tabs.id tabs) (Tabs.id t)
                  < exactLimit)%N).
  { cbn [forallb] in Hb. apply andb_prop in Hb. destruct Hb as [H0 Hb].
    apply N.ltb_lt in H0. apply max_below; [exact H0|].
    apply Forall_forall. intros j Hj. apply in_map_iff in Hj.
    destruct Hj as (u & <- & Hu).
    apply N.ltb_lt. apply (proj1 (forallb_forall _ _) Hb u Hu). }
  unfold Tabs.loadStoredTabs. rewrite (plusOne_exact _ Hlim).
  assert (E : forall x, Tabs.medicationTabs x = t :: tabs ->
            Tabs.nextTabId x
            = (fold_left N.max (map Tabs.id tabs) (Tabs.id t) + 1)%N ->
            NoDup (map Tabs.id (Tabs.medicationTabs x))
            /\ Forall (fun i => (i < Tabs.nextTabId x)%N)
                 (map Tabs.id (Tabs.medicationTabs x))
            /\ Tabs.medicationTabs x <> []).
  { intros x -> ->. split; [exact H|]. split; [|discriminate].
    destruct (max_bound (map Tabs.id tabs) (Tabs.id t)) as [A B].
    cbn [map]. constructor; [lia|].
    eapply Forall_impl; [|exact B]. cbn beta. intros; lia. }
  destruct (find Tabs.isActive (t :: tabs)); apply E; reflexivity.
Qed.

Lemma loadStoredTabs_wellNumbered_witness :
  wellNumbered (Tabs.loadStoredTabs (Some (Tabs.medicationTabs twoTabs)) twoTabs)
  = true.
Proof.
  apply (loadStoredTabs_wellNumbered (Some (Tabs.medicationTabs twoTabs))
           twoTabs).
  vm_compute. reflexivity.
Defined.

(** A stored identifier of 2^53 is loaded with the next identifier at
    2^53 as well. *)
Example loadStoredTabs_at_exactLimit :
  Tabs.nextTabId
    (Tabs.loadStoredTabs (Some (Tabs.medicationTabs limitStored)) limitStored)
  = exactLimit.
Proof. vm_compute. reflexivity. Qed.

(** * Parser and reassembly, continued *)

Lemma wellFormed_afterTimeOfDay (x : InstructionStructure) :
  wellFormed x = true ->
  nonEmpty (UC.afterTimeOfDay (userContent x)) = true ->
  endsWith nl (UC.afterTimeOfDay (userContent x)) = false.
Proof.
  destruct x as [[mn dl inl tod ph pl] [bm am ad aft ap] g].
  unfold wellFormed.
  cbn [sections userContent Sec.medicationName Sec.dosageLine
       Sec.dosageLineUserContent Sec.timeOfDay Sec.precautionsHeader
       Sec.precautionsList UC.beforeMedication UC.afterMedication
       UC.afterDosage UC.afterTimeOfDay UC.afterPrecautions].
  intros H Hne.
  assert (Hw : wfSlot aft = true).
  { unfold isEmpty in H. rewrite Hne in H. cbn [negb] in H.
    destruct (nonEmpty mn); [|rewrite ?andb_false_r in H; cbn in H;
                                   repeat (rewrite ?andb_false_r, ?andb_false_l in H);
                                   discriminate H].
    destruct (nonEmpty dl).
    - destruct (nonEmpty tod).
      + repeat (apply andb_prop in H; destruct H as [H ?]).
        repeat match goal with
               | H : _ && _ = true |- _ => apply andb_prop in H; destruct H
               end. assumption.
      + rewrite !andb_false_r in H. cbn in H. rewrite ?andb_false_r in H.
        discriminate H.
    - rewrite !andb_false_r in H. cbn in H. rewrite ?andb_false_r in H.
      discriminate H. }
  unfold wfSlot, wfSlotOf in Hw. rewrite Hne in Hw. cbn [negb orb] in Hw.
  apply andb_prop in Hw. destruct Hw as [Hw _].
  apply andb_prop in Hw. destruct Hw as [_ Hw].
  apply negb_true_iff in Hw. exact Hw.
Qed.

Lemma emitSlot_closed (v c : jsstring) :
  nonEmpty v = true -> endsWith nl v = false ->
  emitSlot (v ++ nl) true c = emitSlot v true c.
Proof.
  intros Hne He. unfold emitSlot.
  rewrite (nonEmpty_app_l v nl Hne), Hne, endsWith_nl_snoc, He.
  cbn [negb andb]. rewrite <- !app_assoc, app_nil_r. reflexivity.
Qed.

Lemma reconstruct_joinNormalised (x : InstructionStructure)
  (g : Gen.lastGenerated) :
  wellFormed x = true ->
  reconstructInstructionContent (mkStructure (sections x) (joinNormalised x) g)
  = reconstructInstructionContent x.
Proof.
  intros H. pose proof (wellFormed_afterTimeOfDay x H) as He.
  destruct x as [s [bm am ad aft ap] g0].
  unfold joinNormalised in *.
  cbn [sections userContent UC.beforeMedication UC.afterMedication
       UC.afterDosage UC.afterTimeOfDay UC.afterPrecautions] in *.
  destruct (nonEmpty aft) eqn:Hne; [|reflexivity].
  destruct (nonEmpty (Sec.precautionsHeader s)) eqn:Hph; [|reflexivity].
  cbn [andb]. specialize (He eq_refl).
  unfold reconstructInstructionContent.
  cbn [sections userContent UC.beforeMedication UC.afterMedication
       UC.afterDosage UC.afterTimeOfDay UC.afterPrecautions].
  assert (Hhp : hasPrecautions s = true)
    by (unfold hasPrecautions; rewrite Hph; reflexivity).
  rewrite Hhp, (emitSlot_closed aft _ Hne He), (nonEmpty_app_l aft nl Hne), Hne.
  reflexivity.
Qed.

(** X16.  The text reassembled from a well-formed structure is a fixed
    point of parsing followed by reassembly: reading it and writing it
    again gives the same text, unit for unit. *)
Theorem reconstruct_parse_fixpoint (x : InstructionStructure) :
  wellFormed x = true ->
  reconstructInstructionContent
    (parseInstructionContent (reconstructInstructionContent x))
  = reconstructInstructionContent x.
Proof.
  intros H. destruct (round_trip_state x H) as (c & f & ps & E).
  unfold parseInstructionContent at 1.
  change (parseLines (split (reconstructInstructionContent x)) parseInit)
    with (parseText (reconstructInstructionContent x) parseInit).
  rewrite E. cbn [p_sections p_userContent].
  apply reconstruct_joinNormalised, H.
Qed.

Lemma reconstruct_parse_fixpoint_witness :
  reconstructInstructionContent
    (parseInstructionContent (reconstructInstructionContent roundTripSample))
  = reconstructInstructionContent roundTripSample.
Proof.
  apply (reconstruct_parse_fixpoint roundTripSample). vm_compute. reflexivity.
Defined.

Lemma splitDosageLine_marked (t : jsstring) (s : Sec.sections) :
  startsWith infoGlyph t = true ->
  startsWith infoGlyph (Sec.dosageLine (splitDosageLine t s)) = true.
Proof.
  intros H. pose proof H as H0.
  destruct t as [|a [|b t]]; cbn [startsWith infoGlyph] in H0;
    rewrite ?andb_false_r in H0; try discriminate H0.
  apply andb_prop in H0. destruct H0 as [Ha H0].
  apply andb_prop in H0. destruct H0 as [Hb _].
  apply N.eqb_eq in Ha, Hb. subst a b.
  unfold splitDosageLine. cbn [indexOf].
  change (N.eqb 8505 period) with false. change (N.eqb 65039 period) with false.
  cbv iota. destruct (indexOf period t) as [i|]; [|exact H].
  cbn [Sec.dosageLine]. unfold substringTo. rewrite Nat.add_1_r. reflexivity.
Qed.

Lemma addUserContent_flags (line : jsstring) (st : parseState) :
  medicationNameFound (addUserContent line st) = medicationNameFound st
  /\ precautionsStarted (addUserContent line st) = precautionsStarted st.
Proof.
  rewrite addUserContent_slot.
  destruct (currentSection st); try (split; reflexivity).
  destruct (precautionsStarted st) eqn:E; split; cbn; auto.
Qed.

Lemma parseInv_addUserContent (line : jsstring) (st : parseState) :
  cursorInv (addUserContent line st) ->
  parseInv st -> parseInv (addUserContent line st).
Proof.
  intros Hc (A & B & C & D & E & _). unfold parseInv.
  destruct (addUserContent_flags line st) as [-> ->].
  rewrite addUserContent_sections. auto 10.
Qed.

Lemma parseLine_inv (st : parseState) (line : jsstring) :
  parseInv st -> parseInv (parseLine st line).
Proof.
  intros H. pose proof H as (A & B & C & D & E & F).
  pose proof (parseLine_cursorInv st line F) as Hc.
  revert Hc. unfold parseLine.
  destruct (nonEmpty (trim line)) eqn:Hne;
    [|intros Hc; apply parseInv_addUserContent; assumption].
  destruct (medicationNameFound st) eqn:Ef.
  - cbn [negb andb]. specialize (E eq_refl).
    unfold marked in A.
    apply andb_prop in A. destruct A as [A A4].
    apply andb_prop in A. destruct A as [A A3].
    apply andb_prop in A. destruct A as [A1 A2].
    destruct (startsWith infoGlyph (trim line)) eqn:H1.
    { intros Hc. unfold parseInv, marked.
      cbn [p_sections precautionsStarted medicationNameFound].
      rewrite (splitDosageLine_marked _ _ H1), orb_true_r.
      unfold splitDosageLine.
      destruct (indexOf period (trim line));
        cbn [Sec.timeOfDay Sec.precautionsHeader Sec.precautionsList
             Sec.medicationName];
        rewrite A2, A3, A4; repeat split; auto; discriminate. }
    destruct (startsWith clockGlyph (trim line)) eqn:H2.
    { intros Hc. unfold parseInv, marked.
      cbn [p_sections precautionsStarted medicationNameFound Sec.dosageLine
           Sec.timeOfDay Sec.precautionsHeader Sec.precautionsList
           Sec.medicationName].
      rewrite A1, H2, orb_true_r, A3, A4. repeat split; auto; discriminate. }
    destruct (matchesPrecautionsHeader (trim line)) eqn:H3.
    { intros Hc. unfold parseInv, marked.
      cbn [p_sections precautionsStarted medicationNameFound Sec.dosageLine
           Sec.timeOfDay Sec.precautionsHeader Sec.precautionsList
           Sec.medicationName].
      rewrite A1, A2, H3, orb_true_r, A4, Hne.
      repeat split; auto; discriminate. }
    destruct (precautionsStarted st && startsWith bulletGlyph (trim line))
      eqn:H4; [|intros Hc'; apply parseInv_addUserContent; assumption].
    apply andb_prop in H4. destruct H4 as [Hs Hb].
    intros Hc. unfold parseInv, marked.
    cbn [p_sections precautionsStarted medicationNameFound Sec.dosageLine
         Sec.timeOfDay Sec.precautionsHeader Sec.precautionsList
         Sec.medicationName].
    rewrite A1, A2, A3, forallb_app, A4. cbn [forallb]. rewrite Hb.
    repeat split; auto; try discriminate. rewrite Hs. discriminate.
  - rewrite (F Ef). cbn [negb andb cursor_eqb].
    rewrite (D eq_refl) in *. intros Hc. unfold parseInv.
    cbn [p_sections precautionsStarted medicationNameFound Sec.dosageLine
         Sec.timeOfDay Sec.precautionsHeader Sec.precautionsList
         Sec.medicationName Sec.dosageLineUserContent Sec.empty].
    cbn [Sec.empty Sec.precautionsHeader nonEmpty] in B.
    repeat split; auto; discriminate.
Qed.

Lemma parseLines_inv (ls : list jsstring) (st : parseState) :
  parseInv st -> parseInv (parseLines ls st).
Proof.
  revert st; induction ls as [|l ls IH]; intros st H; [exact H|].
  apply IH, parseLine_inv, H.
Qed.

Lemma parseInit_inv : parseInv parseInit.
Proof.
  unfold parseInv, cursorInv. cbn. repeat split; auto; discriminate.
Qed.

(** X17.  Whatever the text, the sections the parser returns carry their
    markers: a dosage line starts with the information glyph, a time line
    with the clock glyph, a header is one of the four spellings and every
    precaution starts with a bullet.  When the name is empty every section
    is, and there are precautions only under a header. *)
Theorem parse_sections_marked (content : jsstring) :
  let s := sections (parseInstructionContent content) in
  marked s = true
  /\ (nonEmpty (Sec.medicationName s) = true \/ s = Sec.empty)
  /\ hasPrecautions s = nonEmpty (Sec.precautionsHeader s).
Proof.
  cbn zeta. unfold parseInstructionContent. cbn [sections].
  destruct (parseLines_inv (split content) parseInit parseInit_inv)
    as (A & B & C & D & E & _).
  split; [exact A|]. split.
  - destruct (medicationNameFound _); [left; auto | right; auto].
  - unfold hasPrecautions. rewrite <- B in *.
    destruct (precautionsStarted _); [reflexivity|].
    rewrite (C eq_refl). reflexivity.
Qed.

Lemma parseLine_name_stable (st : parseState) (line : jsstring) :
  medicationNameFound st = true ->
  Sec.medicationName (p_sections (parseLine st line))
  = Sec.medicationName (p_sections st).
Proof.
  intros Ef. unfold parseLine. rewrite Ef. cbn [negb andb].
  repeat match goal with
         | |- context [if ?b then _ else _] => destruct b
         end; rewrite ?addUserContent_sections; try reflexivity.
  unfold splitDosageLine. destruct (indexOf period (trim line)); reflexivity.
Qed.

Lemma parseLines_name_stable (ls : list jsstring) (st : parseState) :
  medicationNameFound st = true ->
  Sec.medicationName (p_sections (parseLines ls st))
  = Sec.medicationName (p_sections st).
Proof.
  revert st; induction ls as [|l ls IH]; intros st Ef; [reflexivity|].
  cbn [parseLines fold_left].
  change (fold_left parseLine ls (parseLine st l))
    with (parseLines ls (parseLine st l)).
  rewrite IH; [apply parseLine_name_stable, Ef|].
  apply parseLine_found_mono, Ef.
Qed.

Lemma parseLines_name (ls : list jsstring) (st : parseState) :
  medicationNameFound st = false -> cursorInv st ->
  Sec.medicationName (p_sections (parseLines ls st))
  = match find (fun l => nonEmpty (trim l)) ls with
    | Some l => trim l
    | None => Sec.medicationName (p_sections st)
    end.
Proof.
  revert st; induction ls as [|l ls IH]; intros st Ef Hc; [reflexivity|].
  cbn [parseLines fold_left find].
  change (fold_left parseLine ls (parseLine st l))
    with (parseLines ls (parseLine st l)).
  destruct (nonEmpty (trim l)) eqn:Hne.
  - rewrite parseLines_name_stable
      by (apply parseLine_found_nonblank; assumption).
    unfold parseLine. rewrite Hne, Ef, (Hc Ef). reflexivity.
  - assert (Ep : parseLine st l = addUserContent l st)
      by (unfold parseLine; rewrite Hne; reflexivity).
    rewrite IH.
    + rewrite Ep, addUserContent_sections. reflexivity.
    + rewrite Ep. destruct (addUserContent_flags l st) as [-> _]. exact Ef.
    + apply parseLine_cursorInv, Hc.
Qed.

(** X18.  The medication name the parser returns is the first line of
    the text that is not blank, trimmed, whatever that line is (a line
    with a marker included); it is empty when every line is blank. *)
Theorem parse_name_first_line (content : jsstring) :
  Sec.medicationName (sections (parseInstructionContent content))
  = firstNonBlank (split content).
Proof.
  unfold parseInstructionContent, firstNonBlank. cbn [sections].
  rewrite parseLines_name; [reflexivity | reflexivity |].
  intros _. reflexivity.
Qed.

Lemma parse_of_wellFormed (x : InstructionStructure) :
  wellFormed x = true ->
  parseInstructionContent (reconstructInstructionContent x)
  = mkStructure (sections x) (joinNormalised x) Gen.empty.
Proof.
  intros H. destruct (round_trip_state x H) as (c & f & ps & E).
  unfold parseInstructionContent.
  change (parseLines (split (reconstructInstructionContent x)) parseInit)
    with (parseText (reconstructInstructionContent x) parseInit).
  rewrite E. reflexivity.
Qed.

Lemma generateInstruction_stable_text (lk : lookups) (formData : MedicationForm)
  (x : InstructionStructure) (cl st : component) :
  wellFormed x = true ->
  Display.english (instructionDisplay cl) = reconstructInstructionContent x ->
  sections (updatedStructure formData x) = sections x ->
  complete formData = true ->
  (nonEmpty (patientLanguage cl) = true ->
   translationsLoaded cl && medicationsLoaded cl = true) ->
  Display.english (instructionDisplay (generateInstruction lk formData cl st))
  = Display.english (instructionDisplay cl).
Proof.
  intros Hwf Hd Hs Hc Hl. unfold complete in Hc.
  apply andb_prop in Hc. destruct Hc as [Hc Hf].
  apply andb_prop in Hc. destruct Hc as [Hn Hdo].
  rewrite (generateInstruction_display lk formData cl st Hn Hdo Hf Hl).
  rewrite Hd, (parse_of_wellFormed x Hwf).
  unfold updatedStructure in *. cbn [sections userContent] in *.
  rewrite Hs. apply reconstruct_joinNormalised, Hwf.
Qed.


(** X19.  Regenerating changes nothing when nothing changed: if the
    displayed text is the reassembly of a well-formed structure whose
    generated sections are the ones the form gives, then
    [generateInstruction] displays the same text again, user lines
    included. *)
Theorem generateInstruction_stable (lk : lookups) (formData : MedicationForm)
  (x : InstructionStructure) (cl st : component) :
  wellFormed x = true ->
  Display.english (instructionDisplay cl) = reconstructInstructionContent x ->
  sections (updatedStructure formData x) = sections x ->
  complete formData = true ->
  (nonEmpty (patientLanguage cl) = true ->
   translationsLoaded cl && medicationsLoaded cl = true) ->
  Display.english (instructionDisplay (generateInstruction lk formData cl st))
  = Display.english (instructionDisplay cl).
Proof. apply generateInstruction_stable_text. Qed.

Lemma generateInstruction_stable_witness :
  Display.english
    (instructionDisplay
       (generateInstruction sampleLookups ibuprofenForm
          (ibuprofenComponent true) (ibuprofenComponent true)))
  = Display.english (instructionDisplay (ibuprofenComponent true)).
Proof.
  apply (generateInstruction_stable sampleLookups ibuprofenForm
           ibuprofenStructure);
    vm_compute; reflexivity.
Defined.

(** X20.  While the vocabulary is loading, a regeneration for a patient
    with a language leaves the English text of the render on display,
    beside the loading notice: the text just generated is recorded in the
    structure as last generated, but it is not shown. *)
Theorem generateInstruction_while_loading (lk : lookups)
  (formData : MedicationForm) (cl st : component) :
  complete formData = true ->
  nonEmpty (patientLanguage cl) = true ->
  translationsLoaded cl && medicationsLoaded cl = false ->
  let r := generateInstruction lk formData cl st in
  let generated :=
    reconstructInstructionContent
      (updatedStructure formData
         (parseInstructionContent (Display.english (instructionDisplay cl)))) in
  Display.english (instructionDisplay r)
  = Display.english (instructionDisplay cl)
  /\ Display.translated (instructionDisplay r) = loadingText
  /\ Gen.english (lastGenerated (instructionStructure r)) = generated.
Proof.
  intros Hc Hl Hload r generated. unfold complete in Hc.
  apply andb_prop in Hc. destruct Hc as [Hc Hf].
  apply andb_prop in Hc. destruct Hc as [Hn Hdo].
  destruct (generateInstruction_structure lk formData cl st Hn Hdo Hf)
    as (_ & _ & Hg).
  split; [|split; [|exact Hg]].
  - subst r. unfold generateInstruction.
    rewrite Hn, Hdo, Hf, Hl. cbn [negb andb orb].
    apply generateTranslation_loading;
      [apply regenerated_nonEmpty | exact Hl | exact Hload].
  - subst r. unfold generateInstruction.
    rewrite Hn, Hdo, Hf, Hl. cbn [negb andb orb].
    apply generateTranslation_loading;
      [apply regenerated_nonEmpty | exact Hl | exact Hload].
Qed.

Lemma generateInstruction_while_loading_witness :
  Display.english
    (instructionDisplay
       (generateInstruction sampleLookups sampleForm
          (ibuprofenComponent false) (ibuprofenComponent false)))
  = Display.english (instructionDisplay (ibuprofenComponent false)).
Proof.
  apply (generateInstruction_while_loading sampleLookups sampleForm
           (ibuprofenComponent false) (ibuprofenComponent false));
    vm_compute; reflexivity.
Defined.

Lemma handleFieldClearing_flags (fld : field) (cl st : component) :
  translationsLoaded (handleFieldClearing fld cl st) = translationsLoaded st
  /\ medicationsLoaded (handleFieldClearing fld cl st) = medicationsLoaded st
  /\ patientLanguage (handleFieldClearing fld cl st) = patientLanguage st.
Proof.
  unfold handleFieldClearing.
  destruct (clearSections fld _) as [x [|]]; repeat split.
Qed.

Lemma generateTranslation_pending (lk : lookups) (text language : jsstring)
  (formData : MedicationForm) (e : option InstructionDisplay)
  (cl st st' : component) :
  instructionStructure st = instructionStructure st' ->
  translationsLoaded st = translationsLoaded st' ->
  medicationsLoaded st = medicationsLoaded st' ->
  patientLanguage st = patientLanguage st' ->
  generateTranslation lk text language formData e cl st
  = generateTranslation lk text language formData e cl st'.
Proof.
  destruct st as [d x a b c], st' as [d' x' a' b' c'].
  cbn [instructionStructure translationsLoaded medicationsLoaded
       patientLanguage]. intros -> -> -> ->.
  unfold generateTranslation.
  destruct (negb (nonEmpty text) || negb (nonEmpty language)); [reflexivity|].
  destruct (negb (translationsLoaded cl) || negb (medicationsLoaded cl));
    [reflexivity|].
  destruct (translateText lk text language formData); reflexivity.
Qed.

Lemma generateInstruction_pending (lk : lookups) (formData : MedicationForm)
  (cl st st' : component) :
  complete formData || blank formData = true ->
  translationsLoaded st = translationsLoaded st' ->
  medicationsLoaded st = medicationsLoaded st' ->
  patientLanguage st = patientLanguage st' ->
  generateInstruction lk formData cl st = generateInstruction lk formData cl st'.
Proof.
  intros Hc Ha Hb Hp. unfold complete, blank in Hc.
  unfold generateInstruction.
  destruct (nonEmpty (Form.name formData)),
    (nonEmpty (Form.dosage formData)),
    (nonEmpty (Form.frequency formData)); try discriminate Hc;
    cbn [negb andb orb].
  - destruct (nonEmpty (patientLanguage cl)); cbn [andb].
    + apply generateTranslation_pending; cbn; first [reflexivity | assumption].
    + destruct st, st'; cbn in *; subst; reflexivity.
  - destruct st, st'; cbn in *; subst; reflexivity.
Qed.

(** X21.  A change of a text field ends in a regeneration.  When the new
    form has its three required fields filled, or all three empty, the
    result is the one of [generateInstruction] alone, also for a cleared
    field: what [handleFieldClearing] posted is overwritten.  Otherwise
    the regeneration does nothing and the result is the one of
    [handleFieldClearing], or the state as it was when the value is not
    empty. *)
Theorem handleMedicationChange_regenerates (lk : lookups) (fld : field)
  (value : fieldValue) (medicationForm : MedicationForm) (cl st : component) :
  regenerates fld = true ->
  let newFormData := setField fld value medicationForm in
  let r := snd (handleMedicationChange lk fld value medicationForm cl st) in
  (complete newFormData || blank newFormData = true ->
   r = generateInstruction lk newFormData cl st)
  /\ (complete newFormData || blank newFormData = false ->
      r = if cleared value then handleFieldClearing fld cl st else st).
Proof.
  intros Hr newFormData r. subst r. unfold handleMedicationChange.
  fold newFormData. rewrite Hr. cbn [snd]. split; intros Hc.
  - destruct (cleared value); [|reflexivity].
    destruct (handleFieldClearing_flags fld cl st) as (A & B & C).
    apply (generateInstruction_pending lk newFormData cl _ st Hc A B C).
  - unfold generateInstruction. unfold complete, blank in Hc.
    destruct (nonEmpty (Form.name newFormData)),
      (nonEmpty (Form.dosage newFormData)),
      (nonEmpty (Form.frequency newFormData)); try discriminate Hc;
      reflexivity.
Qed.

Lemma handleMedicationChange_regenerates_witness :
  snd (handleMedicationChange sampleLookups f_timeOfDay (inl []) ibuprofenForm
         (ibuprofenComponent true) (ibuprofenComponent true))
  = generateInstruction sampleLookups
      (setField f_timeOfDay (inl []) ibuprofenForm)
      (ibuprofenComponent true) (ibuprofenComponent true).
Proof.
  apply (handleMedicationChange_regenerates sampleLookups f_timeOfDay (inl [])
           ibuprofenForm (ibuprofenComponent true) (ibuprofenComponent true));
    vm_compute; reflexivity.
Defined.

(** X22.  Clearing the dosage of a text that has a name line directly
    followed by the dosage line and the time line writes the name and the
    time line without a line break between them. *)
Theorem clearing_dosage_joins_lines (x : InstructionStructure)
  (cl st : component) :
  wellFormed x = true ->
  Display.english (instructionDisplay cl) = reconstructInstructionContent x ->
  nonEmpty (Sec.medicationName (sections x)) = true ->
  nonEmpty (Sec.dosageLine (sections x)) = true ->
  nonEmpty (Sec.timeOfDay (sections x)) = true ->
  nonEmpty (UC.afterMedication (userContent x)) = false ->
  nonEmpty (UC.afterDosage (userContent x)) = false ->
  exists rest,
    Display.english (instructionDisplay (handleFieldClearing f_dosage cl st))
    = emitSlot (UC.beforeMedication (userContent x)) true []
        ++ Sec.medicationName (sections x) ++ Sec.timeOfDay (sections x)
        ++ rest.
Proof.
  intros Hwf Hd Hn Hdl Ht Ham Had.
  unfold handleFieldClearing. rewrite Hd, (parse_of_wellFormed x Hwf).
  unfold clearSections. cbn [sections userContent lastGenerated].
  rewrite Hdl. cbn [fst snd setInstructionDisplay instructionDisplay
                    Display.english].
  rewrite reconstruct_normal. unfold headContent.
  destruct x as [[mn dl inl tod ph pl] [bm am ad aft ap] g].
  cbn [sections userContent Sec.medicationName Sec.dosageLine
       Sec.dosageLineUserContent Sec.timeOfDay Sec.precautionsHeader
       Sec.precautionsList UC.beforeMedication UC.afterMedication
       UC.afterDosage UC.afterTimeOfDay UC.afterPrecautions joinNormalised]
    in *.
  destruct am; [|discriminate Ham]. destruct ad; [|discriminate Had].
  rewrite Hn, Ht. cbn [nonEmpty orb emitSlot app].
  rewrite <- !app_assoc. eexists. reflexivity.
Qed.

Lemma clearing_dosage_joins_lines_witness :
  exists rest,
    Display.english
      (instructionDisplay (handleFieldClearing f_dosage bareComponent bareComponent))
    = lit "Ibuprofen" ++ lit "🕜 morning 🌅, night 🌃" ++ rest.
Proof.
  apply (clearing_dosage_joins_lines bareStructure bareComponent bareComponent);
    vm_compute; reflexivity.
Defined.

(** * Abbreviations *)

Lemma expandReplacement_plain (m b a rep : jsstring) :
  forallb (fun c => negb (N.eqb c dollar)) rep = true ->
  expandReplacement m b a rep = rep.
Proof.
  induction rep as [|c rep IH]; [reflexivity|]. cbn [forallb expandReplacement].
  intros H. apply andb_prop in H. destruct H as [Hc Hr].
  apply negb_true_iff in Hc. rewrite Hc, (IH Hr). reflexivity.
Qed.


Section PlainScan.

Variables (p rep : jsstring).
Hypothesis p_nonEmpty : nonEmpty p = true.
Hypothesis rep_plain : forallb (fun c => negb (N.eqb c dollar)) rep = true.

Let re := mkRegex p true false false.

Lemma matchesAt_plain (prev : option N) (s : jsstring) :
  matchesAt re prev s = startsWithIgnoreCase p s.
Proof. unfold matchesAt, re. cbn. rewrite !andb_true_r. reflexivity. Qed.

Lemma plainScan_step (orig : jsstring) (pos : nat) (prev : option N)
  (c : N) (s : jsstring) :
  replaceScan re rep orig pos prev 0 (c :: s)
  = if startsWithIgnoreCase p (c :: s)
    then rep ++ replaceScan re rep orig (S pos) (Some c) (List.length p - 1) s
    else c :: replaceScan re rep orig (S pos) (Some c) 0 s.
Proof.
  cbn [replaceScan]. rewrite matchesAt_plain.
  destruct (startsWithIgnoreCase p (c :: s)); [|reflexivity].
  rewrite expandReplacement_plain by exact rep_plain. reflexivity.
Qed.



End PlainScan.

Lemma lower_canon (x y : N) :
  abbreviationUnit x = true -> lowerUnit y = x -> canonUnit x = canonUnit y.
Proof.
  unfold abbreviationUnit, lowerUnit, canonUnit, period.
  intros Hx Hy.
  repeat match goal with
         | H : context [N.leb ?a ?b] |- _ =>
             destruct (N.leb_spec a b); cbn [andb orb negb] in H
         | H : context [N.eqb ?a ?b] |- _ =>
             destruct (N.eqb_spec a b); cbn [andb orb negb] in H
         | |- context [N.leb ?a ?b] =>
             destruct (N.leb_spec a b); cbn [andb orb negb]
         | |- context [N.eqb ?a ?b] =>
             destruct (N.eqb_spec a b); cbn [andb orb negb]
         end; try discriminate; try lia.
Qed.





(** ** The time-of-day abbreviations *)

Lemma lowerUnit_period (y : N) : lowerUnit y = period -> y = period.
Proof.
  unfold lowerUnit, period.
  repeat match goal with
         | |- context [N.leb ?a ?b] =>
             destruct (N.leb_spec a b); cbn [andb orb negb]
         | |- context [N.eqb ?a ?b] =>
             destruct (N.eqb_spec a b); cbn [andb orb negb]
         end; lia.
Qed.

Lemma hasMDot_cons (x : N) (s : jsstring) :
  hasMDot (x :: s)
  = (N.eqb (lowerUnit x) 109 && N.eqb (hd 0%N s) period && nonEmpty s)
    || hasMDot s.
Proof. reflexivity. Qed.

Lemma includes_mdot (s : jsstring) :
  includes [109; 46]%N (toLowerCase s) = hasMDot s.
Proof.
  induction s as [|x s IH]; [reflexivity|].
  rewrite hasMDot_cons, <- IH. cbn [toLowerCase map includes].
  f_equal. destruct s as [|y s]; cbn [map startsWith hd nonEmpty].
  - rewrite !andb_false_r. reflexivity.
  - rewrite !andb_true_r. rewrite (N.eqb_sym 109). f_equal.
    unfold period. destruct (N.eqb_spec 46 (lowerUnit y)) as [E|E].
    + symmetry in E. apply lowerUnit_period in E. subst y. reflexivity.
    + destruct (N.eqb_spec y 46) as [->|]; [|reflexivity].
      exfalso. apply E. reflexivity.
Qed.

Lemma includes_pm_mdot (s : jsstring) :
  includes [112; 46; 109; 46]%N (toLowerCase s) = true -> hasMDot s = true.
Proof.
  rewrite <- includes_mdot.
  induction (toLowerCase s) as [|c t IH]; cbn [includes]; intros H.
  - apply orb_prop in H. destruct H as [H|H]; discriminate H.
  - apply orb_prop in H. destruct H as [H|H].
    + destruct t as [|c1 [|c2 [|c3 t]]]; cbn [startsWith] in H;
        rewrite ?andb_false_r in H; try discriminate H.
      repeat (apply andb_prop in H; destruct H as [? H]).
      cbn [includes startsWith].
      repeat match goal with H : N.eqb _ _ = true |- _ => rewrite H; clear H end.
      cbn. rewrite !orb_true_r. reflexivity.
    + cbn [includes] in IH. rewrite (IH H). apply orb_true_r.
Qed.

Section MDot.

Variables (p rep : jsstring).
Hypothesis rep_plain : forallb (fun c => negb (N.eqb c dollar)) rep = true.
(** The replacement does not start with a period, and it neither holds
    nor completes an [m] followed by a period. *)
Hypothesis rep_head : negb (N.eqb (hd 0%N rep) period) && nonEmpty rep = true.
Hypothesis rep_clean : forall X, hasMDot (rep ++ X) = hasMDot X.

Variable Q : jsstring -> Prop.
Hypothesis Q_tail : forall c s, Q (c :: s) -> Q s.
Hypothesis Q_boundary :
  forall c s, Q (c :: period :: s) ->
              startsWithIgnoreCase p (c :: period :: s) = false ->
              N.eqb (lowerUnit c) 109 = false.

Let re := mkRegex p true false false.

Lemma scan_head_period (orig s : jsstring) (pos : nat) (prev : option N) :
  N.eqb (hd 0%N (replaceScan re rep orig pos prev 0 s)) period
  && nonEmpty (replaceScan re rep orig pos prev 0 s) = true ->
  exists s', s = period :: s'.
Proof.
  destruct s as [|c s]; [discriminate|].
  rewrite (plainScan_step p rep rep_plain).
  destruct (startsWithIgnoreCase p (c :: s)).
  - apply andb_prop in rep_head. destruct rep_head as [Hh Hn].
    destruct rep as [|r0 r]; [discriminate Hn|]. cbn [hd app] in *.
    apply negb_true_iff in Hh. rewrite Hh. discriminate.
  - cbn [hd nonEmpty]. rewrite andb_true_r. intros H.
    apply N.eqb_eq in H. subst c. exists s. reflexivity.
Qed.

Lemma scan_no_mdot (orig s : jsstring) (pos skip : nat) (prev : option N) :
  Q s -> hasMDot (replaceScan re rep orig pos prev skip s) = false.
Proof.
  revert pos prev skip. induction s as [|c s IH]; intros pos prev skip Hq;
    [reflexivity|].
  destruct skip as [|k].
  - rewrite (plainScan_step p rep rep_plain). fold re.
    destruct (startsWithIgnoreCase p (c :: s)) eqn:E.
    + rewrite rep_clean. apply IH, (Q_tail c), Hq.
    + rewrite hasMDot_cons, (IH _ _ _ (Q_tail c s Hq)), orb_false_r.
      destruct (N.eqb (hd 0%N (replaceScan re rep orig (S pos) (Some c) 0 s))
                  period
                && nonEmpty (replaceScan re rep orig (S pos) (Some c) 0 s))
        eqn:Eh.
      * destruct (scan_head_period _ _ _ _ Eh) as [s' ->].
        rewrite (Q_boundary c s' Hq E). reflexivity.
      * rewrite <- andb_assoc, Eh. apply andb_false_r.
  - cbn [replaceScan]. apply IH, (Q_tail c), Hq.
Qed.

End MDot.

Lemma hasMDot_tail (c : N) (s : jsstring) :
  hasMDot (c :: s) = false -> hasMDot s = false.
Proof. rewrite hasMDot_cons. intros H. apply orb_false_iff in H. tauto. Qed.

Lemma morning_clean (X : jsstring) :
  hasMDot ([109; 111; 114; 110; 105; 110; 103]%N ++ X) = hasMDot X.
Proof. cbn [app]. rewrite !hasMDot_cons. cbn. destruct X; reflexivity. Qed.

Lemma night_clean (X : jsstring) :
  hasMDot ([110; 105; 103; 104; 116]%N ++ X) = hasMDot X.
Proof. cbn [app]. rewrite !hasMDot_cons. cbn. destruct X; reflexivity. Qed.

Lemma morning_rule (v : jsstring) :
  hasMDot (replaceAll (mkRegex [109; 46]%N true false false)
             [109; 111; 114; 110; 105; 110; 103]%N v) = false.
Proof.
  unfold replaceAll.
  apply (scan_no_mdot [109; 46]%N [109; 111; 114; 110; 105; 110; 103]%N
           eq_refl eq_refl morning_clean (fun _ => True)).
  - auto.
  - intros c s _ H. cbn [startsWithIgnoreCase] in H.
    change (canonUnit period) with 46%N in H.
    change (canonUnit 46) with 46%N in H.
    change (N.eqb 46 46) with true in H. rewrite andb_true_r in H.
    destruct (N.eqb (lowerUnit c) 109) eqn:E; [|reflexivity].
    apply N.eqb_eq in E.
    rewrite <- (lower_canon 109 c eq_refl E), N.eqb_refl in H. discriminate H.
  - exact I.
Qed.

Lemma night_rule (v : jsstring) :
  hasMDot v = false ->
  hasMDot (replaceAll (mkRegex [110; 46]%N true false false)
             [110; 105; 103; 104; 116]%N v) = false.
Proof.
  intros H. unfold replaceAll.
  apply (scan_no_mdot [110; 46]%N [110; 105; 103; 104; 116]%N
           eq_refl eq_refl night_clean (fun s => hasMDot s = false)).
  - intros c s. apply hasMDot_tail.
  - intros c s Hq _. rewrite hasMDot_cons in Hq.
    apply orb_false_iff in Hq. destruct Hq as [Hq _].
    cbn [hd nonEmpty] in Hq. rewrite N.eqb_refl, !andb_true_r in Hq. exact Hq.
  - exact H.
Qed.

(** X24.  The third time-of-day abbreviation is never expanded: once
    [m.] and [n.] have been replaced, no [m] followed by a period is
    left, so the text cannot contain [p.m.], and the expansion is the one
    of the first two entries alone. *)
Theorem afternoon_never_expanded (v : jsstring) :
  expandAbbreviations timeOfDayAbbreviations v
  = expandAbbreviations (firstn 2 timeOfDayAbbreviations) v.
Proof.
  unfold expandAbbreviations, timeOfDayAbbreviations. cbn [firstn fold_left].
  match goal with
  | |- (if includes _ (toLowerCase ?r) then _ else _) = _ =>
      assert (H : hasMDot r = false)
  end.
  { assert (H1 : hasMDot
                   (if includes [109; 46]%N (toLowerCase v)
                    then replaceAll (mkRegex [109; 46]%N true false false)
                           [109; 111; 114; 110; 105; 110; 103]%N v
                    else v) = false).
    { destruct (includes [109; 46]%N (toLowerCase v)) eqn:E;
        [apply morning_rule | rewrite <- includes_mdot; exact E]. }
    match goal with
    | |- hasMDot (if ?b then _ else _) = false => destruct b
    end; [apply night_rule, H1 | exact H1]. }
  match goal with
  | |- (if ?b then _ else _) = _ => destruct b eqn:E
  end; [|reflexivity].
  apply includes_pm_mdot in E. congruence.
Qed.

(** * The precautions of the form *)

Lemma split_join_lines (ls : list jsstring) :
  forallb noNewline ls = true ->
  split (join nl ls) = match ls with [] => [[]] | _ => ls end.
Proof.
  destruct ls as [|l ls]; [reflexivity|]. apply split_join.
Qed.

Lemma filter_precautionLines (ps : list jsstring) :
  forallb precautionLine ps = true ->
  filter (fun line => nonEmpty (trim line)) ps = ps
  /\ forallb noNewline ps = true.
Proof.
  induction ps as [|p ps IH]; [split; reflexivity|]. cbn [forallb filter].
  intros H. apply andb_prop in H. destruct H as [Hp Hps].
  unfold precautionLine in Hp. apply andb_prop in Hp. destruct Hp as [Hn Hl].
  destruct (IH Hps) as [E1 E2]. rewrite Hn, E1, Hl, E2. split; reflexivity.
Qed.

(** X25.  The text area shows precautions that are non-blank single
    lines as they are: reading the shown value back gives the same
    precautions.  Reading it back with a line break added at its end gives
    the same precautions as well, so that line break is not kept. *)
Theorem precautions_textarea (f : MedicationForm) :
  forallb precautionLine (Form.precautions f) = true ->
  Form.precautions (precautionsChange (precautionsValue f) f)
  = Form.precautions f
  /\ Form.precautions (precautionsChange (precautionsValue f ++ nl) f)
     = Form.precautions f.
Proof.
  intros H. destruct (filter_precautionLines _ H) as [Hf Hn].
  unfold precautionsChange, precautionsValue. cbn [Form.precautions]. split.
  - rewrite (split_join_lines _ Hn).
    destruct (Form.precautions f); [reflexivity | exact Hf].
  - rewrite <- (app_nil_r (join nl (Form.precautions f) ++ nl)).
    rewrite <- app_assoc, split_app_nl, (split_join_lines _ Hn).
    destruct (Form.precautions f) as [|p ps]; [reflexivity|].
    rewrite filter_app, Hf. cbn. f_equal. apply app_nil_r.
Qed.

Lemma precautions_textarea_witness :
  Form.precautions
    (precautionsChange (precautionsValue ibuprofenForm ++ nl) ibuprofenForm)
  = Form.precautions ibuprofenForm.
Proof.
  assert (H : forallb precautionLine (Form.precautions ibuprofenForm) = true)
    by (vm_compute; reflexivity).
  exact (proj2 (precautions_textarea ibuprofenForm H)).
Defined.

Lemma distinct_snoc (l : list jsstring) (x : jsstring) :
  distinct l = true -> existsb (JS.eqb x) l = false ->
  distinct (l ++ [x]) = true.
Proof.
  induction l as [|y l IH]; [reflexivity|]. cbn [distinct existsb app].
  intros H Hx. apply andb_prop in H. destruct H as [Hy Hl].
  apply orb_false_iff in Hx. destruct Hx as [Hxy Hx].
  rewrite (IH Hl Hx), andb_true_r, existsb_app. cbn [existsb].
  apply negb_true_iff in Hy. rewrite Hy, orb_false_r. cbn [orb negb].
  apply negb_true_iff.
  destruct (JS.eqb y x) eqn:E; [|reflexivity].
  apply eqb_eq in E. subst y.
  assert (E : JS.eqb x x = true) by (apply eqb_eq; reflexivity).
  congruence.
Qed.

(** X26.  A precaution the dropdown offers is not among the precautions
    of the form, so selecting it keeps the precautions of the form
    distinct. *)
Theorem offered_precaution_is_new (lk : lookups) (options : list jsstring)
  (search precaution : jsstring) (f : MedicationForm) (cl st : component) :
  distinct (Form.precautions f) = true ->
  existsb (JS.eqb precaution) (offeredPrecautions options search f) = true ->
  existsb (JS.eqb precaution) (Form.precautions f) = false
  /\ distinct (Form.precautions (fst (selectPrecaution lk precaution f cl st)))
     = true.
Proof.
  intros Hd Ho. apply existsb_exists in Ho. destruct Ho as (q & Hq & E).
  apply eqb_eq in E. subst q. unfold offeredPrecautions in Hq.
  apply filter_In in Hq. destruct Hq as [_ Hq].
  apply andb_prop in Hq. destruct Hq as [_ Hq]. apply negb_true_iff in Hq.
  split; [exact Hq|]. cbn [selectPrecaution fst Form.precautions].
  apply distinct_snoc; assumption.
Qed.

Lemma offered_precaution_is_new_witness :
  distinct
    (Form.precautions
       (fst (selectPrecaution sampleLookups avoidAlcohol ibuprofenForm
               (ibuprofenComponent true) (ibuprofenComponent true)))) = true.
Proof.
  apply (offered_precaution_is_new sampleLookups [withFood; avoidAlcohol] []
           avoidAlcohol ibuprofenForm (ibuprofenComponent true)
           (ibuprofenComponent true));
    vm_compute; reflexivity.
Defined.

(** * Generation from a form *)

Lemma lowerUnit_eqb (c x : N) :
  (x < 65)%N -> N.eqb (lowerUnit c) x = N.eqb c x.
Proof.
  intros Hx. unfold lowerUnit.
  destruct ((65 <=? c)%N && (c <=? 90)%N
            || (192 <=? c)%N && (c <=? 222)%N && negb (c =? 215)%N) eqn:E;
    [|reflexivity].
  assert (65 <= c)%N.
  { apply orb_prop in E. destruct E as [E|E].
    - apply andb_prop in E. destruct E as [E _]. apply N.leb_le in E. exact E.
    - apply andb_prop in E. destruct E as [E _].
      apply andb_prop in E. destruct E as [E _]. apply N.leb_le in E. lia. }
  destruct (N.eqb_spec (c + 32) x), (N.eqb_spec c x); try reflexivity; lia.
Qed.

Lemma noNewline_lower (s : jsstring) :
  noNewline (toLowerCase s) = noNewline s.
Proof.
  unfold noNewline, toLowerCase. induction s as [|c s IH]; [reflexivity|].
  cbn [map forallb]. rewrite IH. unfold newline.
  rewrite lowerUnit_eqb by lia. reflexivity.
Qed.

Lemma noPeriod_lower (s : jsstring) : noPeriod (toLowerCase s) = noPeriod s.
Proof.
  unfold noPeriod, toLowerCase. induction s as [|c s IH]; [reflexivity|].
  cbn [map forallb]. rewrite IH. unfold period.
  rewrite lowerUnit_eqb by lia. reflexivity.
Qed.

Lemma isWhiteSpace_lower (c : N) : isWhiteSpace (lowerUnit c) = isWhiteSpace c.
Proof.
  unfold lowerUnit.
  destruct ((65 <=? c)%N && (c <=? 90)%N
            || (192 <=? c)%N && (c <=? 222)%N && negb (c =? 215)%N) eqn:E;
    [|reflexivity].
  assert (H : (65 <= c <= 90)%N \/ (192 <= c <= 222)%N).
  { apply orb_prop in E. destruct E as [E|E].
    - apply andb_prop in E. destruct E as [E1 E2].
      apply N.leb_le in E1, E2. lia.
    - apply andb_prop in E. destruct E as [E _].
      apply andb_prop in E. destruct E as [E1 E2].
      apply N.leb_le in E1, E2. lia. }
  unfold isWhiteSpace.
  repeat match goal with
         | |- context [N.eqb ?a ?b] =>
             destruct (N.eqb_spec a b); [lia|]
         | |- context [N.leb ?a ?b] =>
             destruct (N.leb_spec a b); [lia|]
         end.
  reflexivity.
Qed.

Lemma indexOf_noPeriod (a b : jsstring) :
  noPeriod a = true ->
  indexOf period (a ++ b)
  = match indexOf period b with
    | Some i => Some (List.length a + i)
    | None => None
    end.
Proof.
  unfold noPeriod. induction a as [|x a IH]; cbn [forallb app indexOf].
  - intros _. destruct (indexOf period b); reflexivity.
  - intros H. apply andb_prop in H. destruct H as [Hx Ha].
    apply negb_true_iff in Hx. rewrite Hx, (IH Ha).
    destruct (indexOf period b); reflexivity.
Qed.

Lemma noPeriod_app (a b : jsstring) :
  noPeriod (a ++ b) = noPeriod a && noPeriod b.
Proof. apply forallb_app. Qed.

Lemma trimmed_ends (c d : N) (s : jsstring) :
  isWhiteSpace c = false -> isWhiteSpace d = false ->
  trimmed (c :: s ++ [d]) = true.
Proof.
  intros Hc Hd. unfold trimmed. rewrite Hc.
  change (c :: s ++ [d]) with ((c :: s) ++ [d]). rewrite last_last, Hd.
  reflexivity.
Qed.

Lemma wf_newDosageLine (f : MedicationForm) :
  noNewline (Form.dosage f) = true ->
  noNewline (Form.frequency f) = true ->
  noNewline (Form.interval f) = true ->
  noPeriod (Form.dosage f) = true ->
  noPeriod (Form.frequency f) = true ->
  noPeriod (Form.interval f) = true ->
  wfDosage (newDosageLine f) [] = true.
Proof.
  intros Hd1 Hf1 Hi1 Hd2 Hf2 Hi2.
  rewrite <- noNewline_lower in Hf1, Hi1. rewrite <- noPeriod_lower in Hf2, Hi2.
  unfold newDosageLine.
  set (itv := if nonEmpty (Form.interval f)
              then space ++ toLowerCase (Form.interval f) else []).
  assert (Hi1' : noNewline itv = true)
    by (subst itv; destruct (nonEmpty (Form.interval f));
        [rewrite noNewline_app, Hi1|]; reflexivity).
  assert (Hi2' : noPeriod itv = true)
    by (subst itv; destruct (nonEmpty (Form.interval f));
        [rewrite noPeriod_app, Hi2|]; reflexivity).
  set (body := Form.dosage f ++ space ++ toLowerCase (Form.frequency f) ++ itv).
  assert (Hb1 : noNewline body = true)
    by (subst body; rewrite !noNewline_app, Hd1, Hf1, Hi1'; reflexivity).
  assert (Hb2 : noPeriod body = true)
    by (subst body; rewrite !noPeriod_app, Hd2, Hf2, Hi2'; reflexivity).
  replace (takePrefix ++ Form.dosage f ++ space
             ++ toLowerCase (Form.frequency f) ++ itv ++ [period])
    with (takePrefix ++ body ++ [period])
    by (subst body; rewrite <- !app_assoc; reflexivity).
  unfold wfDosage, sectionLine.
  assert (E : indexOf period (takePrefix ++ body ++ [period])
              = Some (List.length takePrefix + (List.length body + 0))).
  { rewrite (indexOf_noPeriod takePrefix) by reflexivity.
    rewrite (indexOf_noPeriod body) by exact Hb2. reflexivity. }
  assert (Ht : trimmed (takePrefix ++ body ++ [period]) = true).
  { change (takePrefix ++ body ++ [period])
      with (8505%N :: (tl takePrefix ++ body) ++ [period]).
    apply trimmed_ends; reflexivity. }
  assert (Hn : noNewline (takePrefix ++ body ++ [period]) = true)
    by (rewrite !noNewline_app, Hb1; reflexivity).
  assert (Hs : startsWith infoGlyph (takePrefix ++ body ++ [period]) = true)
    by (apply startsWith_app_r; reflexivity).
  assert (Hl : Nat.eqb
                 (S (List.length takePrefix + (List.length body + 0)))
                 (List.length (takePrefix ++ body ++ [period])) = true)
    by (rewrite !length_app; cbn [List.length]; apply Nat.eqb_eq; lia).
  rewrite E, Ht, Hn, Hs, Hl. reflexivity.
Qed.

Lemma last_map_lower (s : jsstring) (d : N) :
  nonEmpty s = true -> last (toLowerCase s) d = lowerUnit (last s d).
Proof.
  induction s as [|c s IH]; [discriminate|]. intros _.
  destruct s as [|c' s]; [reflexivity|].
  change (toLowerCase (c :: c' :: s))
    with (lowerUnit c :: toLowerCase (c' :: s)).
  change (last (c :: c' :: s) d) with (last (c' :: s) d).
  rewrite <- IH by reflexivity. reflexivity.
Qed.

Lemma trimmed_lower (s : jsstring) : trimmed (toLowerCase s) = trimmed s.
Proof.
  destruct s as [|c s]; [reflexivity|]. unfold trimmed.
  change (toLowerCase (c :: s)) with (lowerUnit c :: toLowerCase s).
  change (lowerUnit c :: toLowerCase s) with (toLowerCase (c :: s)) at 2.
  rewrite last_map_lower by reflexivity. rewrite !isWhiteSpace_lower.
  reflexivity.
Qed.

Lemma wf_newTimeOfDay (f : MedicationForm) :
  nonEmpty (Form.timeOfDay f) = true ->
  trimmed (Form.timeOfDay f) = true ->
  noNewline (Form.timeOfDay f) = true ->
  wfTime (newTimeOfDay f) = true.
Proof.
  intros Hne Ht Hn. unfold newTimeOfDay. rewrite Hne.
  unfold formatTimeOfDay, foundTimes.
  cbn [timeEmojis flat_map fst snd].
  destruct (includes _ (toLowerCase (Form.timeOfDay f)));
    destruct (includes _ (toLowerCase (Form.timeOfDay f)));
    destruct (includes _ (toLowerCase (Form.timeOfDay f)));
    destruct (includes _ (toLowerCase (Form.timeOfDay f)));
    try reflexivity.
  cbn [app]. unfold wfTime, sectionLine.
  set (t := toLowerCase (Form.timeOfDay f)).
  assert (Hne' : nonEmpty t = true)
    by (subst t; destruct (Form.timeOfDay f); [discriminate Hne | reflexivity]).
  assert (Hs : startsWith clockGlyph (clockGlyph ++ space ++ t) = true)
    by (apply startsWith_app_r; reflexivity).
  assert (Hn' : noNewline (clockGlyph ++ space ++ t) = true)
    by (subst t; rewrite !noNewline_app, noNewline_lower, Hn; reflexivity).
  assert (Ht' : trimmed (clockGlyph ++ space ++ t) = true).
  { apply trimmed_app; try reflexivity; [exact Hne'|].
    subst t. rewrite trimmed_lower. exact Ht. }
  rewrite Hs, Hn', Ht'. reflexivity.
Qed.

Lemma wf_newBullet (p : jsstring) :
  sectionLine p = true -> wfBullet (bulletGlyph ++ space ++ p) = true.
Proof.
  intros H. destruct (sectionLine_facts p H) as (Hne & _ & Hn).
  unfold sectionLine in H. apply andb_prop in H. destruct H as [H _].
  apply andb_prop in H. destruct H as [_ Ht].
  unfold wfBullet, sectionLine.
  assert (Hs : startsWith bulletGlyph (bulletGlyph ++ space ++ p) = true)
    by (apply startsWith_app_r; reflexivity).
  assert (Hn' : noNewline (bulletGlyph ++ space ++ p) = true)
    by (rewrite !noNewline_app, Hn; reflexivity).
  assert (Ht' : trimmed (bulletGlyph ++ space ++ p) = true)
    by (apply trimmed_app; try reflexivity; assumption).
  rewrite Hs, Hn', Ht'. reflexivity.
Qed.

Lemma wf_newPrecautionsList (f : MedicationForm) :
  forallb sectionLine (Form.precautions f) = true ->
  forallb wfBullet (newPrecautionsList f) = true.
Proof.
  unfold newPrecautionsList. induction (Form.precautions f) as [|p ps IH];
    [reflexivity|].
  cbn [forallb map]. intros H. apply andb_prop in H. destruct H as [Hp Hps].
  rewrite (wf_newBullet p Hp), (IH Hps). reflexivity.
Qed.

Lemma firstStructure_wellFormed (f : MedicationForm) :
  wellBehaved f = true -> wellFormed (updatedStructure f emptyStructure) = true.
Proof.
  unfold wellBehaved, singleLines. intros H.
  apply andb_prop in H. destruct H as [H Hi2].
  apply andb_prop in H. destruct H as [H Hf2].
  apply andb_prop in H. destruct H as [H Hd2].
  apply andb_prop in H. destruct H as [H Hp].
  apply andb_prop in H. destruct H as [H Htn].
  apply andb_prop in H. destruct H as [H Htt].
  apply andb_prop in H. destruct H as [H Hi].
  apply andb_prop in H. destruct H as [H Hf].
  apply andb_prop in H. destruct H as [Hn Hd].
  unfold wellFormed, updatedStructure.
  cbn [sections userContent emptyStructure Sec.medicationName Sec.dosageLine
       Sec.dosageLineUserContent Sec.timeOfDay Sec.precautionsHeader
       Sec.precautionsList UC.beforeMedication UC.afterMedication
       UC.afterDosage UC.afterTimeOfDay UC.afterPrecautions UC.empty
       Sec.empty].
  destruct (sectionLine_facts _ Hn) as (Hne & _ & _).
  rewrite Hne, Hn, (newDosageLine_nonEmpty f), (wf_newDosageLine f Hd Hf Hi Hd2 Hf2 Hi2).
  change (wfBlankSlot []) with true. change (wfSlot []) with true.
  change (isEmpty []) with true. cbn [andb].
  assert (Ht : (if nonEmpty (newTimeOfDay f)
                then wfTime (newTimeOfDay f) && true else true) = true).
  { unfold newTimeOfDay at 1.
    destruct (nonEmpty (Form.timeOfDay f)) eqn:E; [|reflexivity].
    rewrite (wf_newTimeOfDay f E Htt Htn). reflexivity. }
  rewrite Ht. cbn [andb].
  unfold newPrecautionsHeader.
  assert (El : List.length (newPrecautionsList f)
               = List.length (Form.precautions f))
    by (unfold newPrecautionsList; apply length_map).
  destruct (Nat.ltb 0 (List.length (Form.precautions f))) eqn:E.
  - rewrite (wf_newPrecautionsList f Hp). reflexivity.
  - apply Nat.ltb_ge in E. rewrite El.
    destruct (Form.precautions f); [reflexivity | cbn in E; lia].
Qed.

Lemma ready_spec (cl : component) :
  ready cl = true ->
  nonEmpty (patientLanguage cl) = true ->
  translationsLoaded cl && medicationsLoaded cl = true.
Proof. unfold ready. intros H Hl. rewrite Hl in H. exact H. Qed.

Lemma generateInstruction_first (lk : lookups) (f : MedicationForm)
  (cl st : component) :
  complete f = true -> ready cl = true ->
  Display.english (instructionDisplay cl) = [] ->
  Display.english (instructionDisplay (generateInstruction lk f cl st))
  = firstText f
  /\ sections (instructionStructure (generateInstruction lk f cl st))
     = sections (updatedStructure f emptyStructure).
Proof.
  intros Hc Hr Hd. unfold complete in Hc.
  apply andb_prop in Hc. destruct Hc as [Hc Hf].
  apply andb_prop in Hc. destruct Hc as [Hn Hdo].
  split.
  - rewrite (generateInstruction_display lk f cl st Hn Hdo Hf (ready_spec cl Hr)).
    rewrite Hd. reflexivity.
  - destruct (generateInstruction_structure lk f cl st Hn Hdo Hf) as (E & _).
    rewrite E, Hd. reflexivity.
Qed.

(** X27.  For a well-behaved form, the text generated when nothing is
    displayed yet is stable: generating again from that text, with the
    same form, displays the same text, and parsing the text gives back
    exactly the sections that were generated. *)
Theorem generation_idempotent (lk : lookups) (f : MedicationForm)
  (cl0 st0 cl1 st1 : component) :
  wellBehaved f = true ->
  complete f = true ->
  ready cl0 = true ->
  ready cl1 = true ->
  Display.english (instructionDisplay cl0) = [] ->
  let r0 := generateInstruction lk f cl0 st0 in
  Display.english (instructionDisplay cl1)
  = Display.english (instructionDisplay r0) ->
  Display.english (instructionDisplay (generateInstruction lk f cl1 st1))
  = Display.english (instructionDisplay r0)
  /\ sections (parseInstructionContent (Display.english (instructionDisplay r0)))
     = sections (instructionStructure r0).
Proof.
  intros Hw Hc Hr0 Hr1 Hd0 r0 Hd1.
  destruct (generateInstruction_first lk f cl0 st0 Hc Hr0 Hd0) as [Et Es].
  fold r0 in Et, Es. rewrite Et in *. rewrite Es.
  pose proof (firstStructure_wellFormed f Hw) as Hwf.
  unfold firstText in *. split.
  - rewrite <- Hd1.
    apply (generateInstruction_stable_text lk f
             (updatedStructure f emptyStructure)); auto using ready_spec.
  - rewrite (parse_of_wellFormed _ Hwf). reflexivity.
Qed.

Lemma generation_idempotent_witness :
  Display.english
    (instructionDisplay
       (generateInstruction sampleLookups ibuprofenForm bareComponent
          bareComponent))
  = Display.english
      (instructionDisplay
         (generateInstruction sampleLookups ibuprofenForm emptyComponent
            emptyComponent)).
Proof.
  apply (generation_idempotent sampleLookups ibuprofenForm emptyComponent
           emptyComponent bareComponent bareComponent);
    vm_compute; reflexivity.
Defined.

(** ** Dosage lines with more than one period *)

Lemma splitDosageLine_parts (t mn tod ph : jsstring) (pl : list jsstring) :
  splitDosageLine t (Sec.mk mn [] [] tod ph pl)
  = Sec.mk mn (dosageHead t) (dosageTail t) tod ph pl.
Proof.
  unfold dosageHead, dosageTail, splitDosageLine.
  destruct (indexOf period t); cbn; [|reflexivity].
  destruct (nonEmpty _); reflexivity.
Qed.

Lemma parse_split_line (u : UC.userContent) (c : cursor) (ps : bool)
  (D mn tod ph : jsstring) (pl : list jsstring) :
  sectionLine D = true -> startsWith infoGlyph D = true ->
  parseText D (mkParse (Sec.mk mn [] [] tod ph pl) u c true ps)
  = mkParse (Sec.mk mn (dosageHead D) (dosageTail D) tod ph pl) u afterDosage
      true ps.
Proof.
  intros H Hi. destruct (sectionLine_facts D H) as (Hne & Ht & Hnl).
  rewrite parseText_line by exact Hnl.
  rewrite parseLine_dosage; [|reflexivity | rewrite Ht; exact Hi].
  rewrite Ht. cbn [p_sections p_userContent precautionsStarted].
  rewrite splitDosageLine_parts. reflexivity.
Qed.

Lemma consume_bullets_end (pl : list jsstring) (mn dl inl tod ph : jsstring)
  (pl0 : list jsstring) (u : UC.userContent) (c : cursor) :
  forallb wfBullet pl = true ->
  parseText (flat_map (fun p => p ++ nl) pl)
    (mkParse (Sec.mk mn dl inl tod ph pl0) u c true true)
  = parseText [] (mkParse (Sec.mk mn dl inl tod ph (pl0 ++ pl)) u c true true).
Proof.
  intros H. rewrite <- (app_nil_r (flat_map _ pl)).
  apply consume_bullets, H.
Qed.

Ltac generated_facts :=
  repeat match goal with
         | H : sectionLine ?l = true |- _ =>
             lazymatch goal with
             | _ : noNewline l = true |- _ => fail
             | _ =>
                 let A := fresh "Hne" in
                 let B := fresh "Hnl" in
                 destruct (sectionLine_facts l H) as (A & _ & B);
                 pose proof (noNewline_endsWith l B)
             end
         end.

Ltac generated_parse :=
  leaf_text;
  unfold parseInit, Sec.empty, UC.empty;
  repeat first [ rewrite parse_split_line by assumption
               | rewrite consume_bullets_end by assumption
               | consume_step ];
  do 3 eexists;
  rewrite ?appendLine_blank; cbn [nonEmpty app];
  reflexivity.

Lemma parse_generated_state (n D tod ph : jsstring) (pl : list jsstring)
  (g : Gen.lastGenerated) :
  sectionLine n = true -> sectionLine D = true ->
  startsWith infoGlyph D = true ->
  (if nonEmpty tod then wfTime tod else true) = true ->
  (if nonEmpty ph
   then matchesPrecautionsHeader ph && forallb wfBullet pl
   else Nat.eqb (List.length pl) 0) = true ->
  exists c f ps,
  parseText
    (reconstructInstructionContent
       (mkStructure (Sec.mk n D [] tod ph pl) (UC.mk [] [] [] [] []) g))
    parseInit
  = mkParse (Sec.mk n (dosageHead D) (dosageTail D) tod ph pl)
      (UC.mk [] [] [] [] []) c f ps.
Proof.
  intros Hn HD Hi Ht Hp. generated_facts.
  destruct (nonEmpty tod) eqn:Htne.
  - assert (Htl : sectionLine tod = true)
      by (unfold wfTime in Ht; apply andb_prop in Ht; tauto).
    generated_facts.
    destruct (nonEmpty ph) eqn:Hpne.
    + apply andb_prop in Hp. destruct Hp as [Hph Hpl]. generated_parse.
    + apply nonEmpty_false in Hpne. apply length_zero in Hp. subst ph pl.
      generated_parse.
  - apply nonEmpty_false in Htne. subst tod.
    destruct (nonEmpty ph) eqn:Hpne.
    + apply andb_prop in Hp. destruct Hp as [Hph Hpl]. generated_parse.
    + apply nonEmpty_false in Hpne. apply length_zero in Hp. subst ph pl.
      generated_parse.
Qed.

Lemma parse_generated (n D tod ph : jsstring) (pl : list jsstring)
  (g : Gen.lastGenerated) :
  sectionLine n = true -> sectionLine D = true ->
  startsWith infoGlyph D = true ->
  (if nonEmpty tod then wfTime tod else true) = true ->
  (if nonEmpty ph
   then matchesPrecautionsHeader ph && forallb wfBullet pl
   else Nat.eqb (List.length pl) 0) = true ->
  parseInstructionContent
    (reconstructInstructionContent
       (mkStructure (Sec.mk n D [] tod ph pl) (UC.mk [] [] [] [] []) g))
  = mkStructure (Sec.mk n (dosageHead D) (dosageTail D) tod ph pl)
      (UC.mk [] [] [] [] []) Gen.empty.
Proof.
  intros Hn HD Hi Ht Hp.
  destruct (parse_generated_state n D tod ph pl g Hn HD Hi Ht Hp)
    as (c & f & ps & E).
  unfold parseInstructionContent.
  match goal with
  | |- context [parseLines (split ?t) parseInit] =>
      change (parseLines (split t) parseInit) with (parseText t parseInit)
  end.
  rewrite E. reflexivity.
Qed.

Ltac generated_text :=
  leaf_text; cbn [emitSlot nonEmpty app];
  unfold dosageText, generatedSuffix; rewrite_facts;
  cbn [nonEmpty app flat_map]; rewrite <- ?app_assoc, ?app_nil_r;
  reflexivity.

Lemma reconstruct_generated (n D inl tod ph : jsstring) (pl : list jsstring)
  (u : Gen.lastGenerated) :
  sectionLine n = true -> sectionLine D = true ->
  (if nonEmpty inl then noNewline inl else true) = true ->
  (if nonEmpty tod then wfTime tod else true) = true ->
  (if nonEmpty ph
   then matchesPrecautionsHeader ph && forallb wfBullet pl
   else Nat.eqb (List.length pl) 0) = true ->
  reconstructInstructionContent
    (mkStructure (Sec.mk n D inl tod ph pl) (UC.mk [] [] [] [] []) u)
  = n ++ nl ++ D ++ (if nonEmpty inl then space ++ inl else [])
      ++ generatedSuffix tod ph pl.
Proof.
  intros Hn HD Hinl Ht Hp. generated_facts.
  assert (Hx : nonEmpty (dosageText D inl) = true)
    by (unfold dosageText; apply nonEmpty_app_l; assumption).
  assert (Hxe : endsWith nl (dosageText D inl) = false).
  { apply noNewline_endsWith. unfold dosageText. rewrite noNewline_app.
    destruct (nonEmpty inl); [rewrite noNewline_app, Hinl|];
      rewrite ?andb_true_r; assumption. }
  destruct (nonEmpty tod) eqn:Htne.
  - assert (Htl : sectionLine tod = true)
      by (unfold wfTime in Ht; apply andb_prop in Ht; tauto).
    generated_facts.
    destruct (nonEmpty ph) eqn:Hpne.
    + apply andb_prop in Hp. destruct Hp as [Hph Hpl]. generated_text.
    + apply nonEmpty_false in Hpne. apply length_zero in Hp. subst ph pl.
      generated_text.
  - apply nonEmpty_false in Htne. subst tod.
    destruct (nonEmpty ph) eqn:Hpne.
    + apply andb_prop in Hp. destruct Hp as [Hph Hpl]. generated_text.
    + apply nonEmpty_false in Hpne. apply length_zero in Hp. subst ph pl.
      generated_text.
Qed.

Lemma newDosageLine_sectionLine (f : MedicationForm) :
  noNewline (Form.dosage f) = true ->
  noNewline (Form.frequency f) = true ->
  noNewline (Form.interval f) = true ->
  sectionLine (newDosageLine f) = true
  /\ startsWith infoGlyph (newDosageLine f) = true.
Proof.
  intros Hd Hf Hi. rewrite <- noNewline_lower in Hf, Hi.
  unfold newDosageLine.
  set (itv := if nonEmpty (Form.interval f)
              then space ++ toLowerCase (Form.interval f) else []).
  assert (Hi' : noNewline itv = true)
    by (subst itv; destruct (nonEmpty (Form.interval f));
        [rewrite noNewline_app, Hi|]; reflexivity).
  set (body := Form.dosage f ++ space ++ toLowerCase (Form.frequency f) ++ itv).
  assert (Hb : noNewline body = true)
    by (subst body; rewrite !noNewline_app, Hd, Hf, Hi'; reflexivity).
  replace (takePrefix ++ Form.dosage f ++ space
             ++ toLowerCase (Form.frequency f) ++ itv ++ [period])
    with (takePrefix ++ body ++ [period])
    by (subst body; rewrite <- !app_assoc; reflexivity).
  split; [|apply startsWith_app_r; reflexivity].
  unfold sectionLine.
  assert (Ht : trimmed (takePrefix ++ body ++ [period]) = true).
  { change (takePrefix ++ body ++ [period])
      with (8505%N :: (tl takePrefix ++ body) ++ [period]).
    apply trimmed_ends; reflexivity. }
  assert (Hn : noNewline (takePrefix ++ body ++ [period]) = true)
    by (rewrite !noNewline_app, Hb; reflexivity).
  rewrite Ht, Hn. reflexivity.
Qed.

Lemma generated_conditions (f : MedicationForm) :
  singleLines f = true ->
  sectionLine (beforeComma (Form.name f)) = true
  /\ sectionLine (newDosageLine f) = true
  /\ startsWith infoGlyph (newDosageLine f) = true
  /\ (if nonEmpty (newTimeOfDay f) then wfTime (newTimeOfDay f) else true)
     = true
  /\ (if nonEmpty (newPrecautionsHeader f)
      then matchesPrecautionsHeader (newPrecautionsHeader f)
           && forallb wfBullet (newPrecautionsList f)
      else Nat.eqb (List.length (newPrecautionsList f)) 0) = true.
Proof.
  unfold singleLines. intros H.
  apply andb_prop in H. destruct H as [H Hp].
  apply andb_prop in H. destruct H as [H Htn].
  apply andb_prop in H. destruct H as [H Htt].
  apply andb_prop in H. destruct H as [H Hi].
  apply andb_prop in H. destruct H as [H Hf].
  apply andb_prop in H. destruct H as [Hn Hd].
  destruct (newDosageLine_sectionLine f Hd Hf Hi) as [A B].
  repeat split; try assumption.
  - unfold newTimeOfDay at 1.
    destruct (nonEmpty (Form.timeOfDay f)) eqn:E; [|reflexivity].
    apply (wf_newTimeOfDay f E Htt Htn).
  - unfold newPrecautionsHeader.
    assert (El : List.length (newPrecautionsList f)
                 = List.length (Form.precautions f))
      by (unfold newPrecautionsList; apply length_map).
    destruct (Nat.ltb 0 (List.length (Form.precautions f))) eqn:E.
    + rewrite (wf_newPrecautionsList f Hp). reflexivity.
    + apply Nat.ltb_ge in E. rewrite El.
      destruct (Form.precautions f); [reflexivity | cbn in E; lia].
Qed.

Lemma noPeriod_false (s : jsstring) :
  noPeriod s = false ->
  exists a b, s = a ++ period :: b /\ noPeriod a = true.
Proof.
  unfold noPeriod. induction s as [|c s IH]; [discriminate|].
  cbn [forallb]. destruct (N.eqb_spec c period) as [->|Hc].
  - intros _. exists [], s. split; reflexivity.
  - cbn [negb andb]. intros H. destruct (IH H) as (a & b & -> & Ha).
    exists (c :: a), b. split; [reflexivity|]. cbn [forallb].
    rewrite Ha. destruct (N.eqb_spec c period); [contradiction|reflexivity].
Qed.

Lemma trimStart_keeps_last (r : jsstring) (d : N) :
  isWhiteSpace d = false -> nonEmpty (trimStart (r ++ [d])) = true.
Proof.
  intros Hd. induction r as [|c r IH]; cbn [app trimStart].
  - rewrite Hd. reflexivity.
  - destruct (isWhiteSpace c); [exact IH | reflexivity].
Qed.

Lemma noNewline_skipn (k : nat) (s : jsstring) :
  noNewline s = true -> noNewline (skipn k s) = true.
Proof.
  revert s; induction k as [|k IH]; intros s H; [exact H|].
  destruct s as [|c s]; [reflexivity|]. cbn [skipn].
  cbn [noNewline forallb] in H. apply andb_prop in H. apply IH. tauto.
Qed.

Lemma noNewline_trimStart (s : jsstring) :
  noNewline s = true -> noNewline (trimStart s) = true.
Proof.
  destruct (trimStart_suffix s) as [p E]. intros H.
  rewrite E, noNewline_app in H. apply andb_prop in H. tauto.
Qed.

Lemma dosageTail_noNewline (D : jsstring) :
  noNewline D = true -> noNewline (dosageTail D) = true.
Proof.
  intros H. unfold dosageTail, splitDosageLine.
  destruct (indexOf period D) as [i|]; [|reflexivity].
  cbn [Sec.dosageLineUserContent Sec.empty].
  destruct (nonEmpty _); [|reflexivity].
  apply noNewline_trimStart, noNewline_skipn, H.
Qed.

Lemma dosageTail_decimal (f : MedicationForm) :
  noPeriod (Form.dosage f) = false ->
  nonEmpty (dosageTail (newDosageLine f)) = true.
Proof.
  intros H. destruct (noPeriod_false _ H) as (a & b & E & Ha).
  unfold newDosageLine. rewrite E.
  set (itv := if nonEmpty (Form.interval f)
              then space ++ toLowerCase (Form.interval f) else []).
  set (r := b ++ space ++ toLowerCase (Form.frequency f) ++ itv).
  replace (takePrefix ++ (a ++ period :: b) ++ space
             ++ toLowerCase (Form.frequency f) ++ itv ++ [period])
    with ((takePrefix ++ a) ++ period :: r ++ [period])
    by (subst r; rewrite <- !app_assoc; reflexivity).
  unfold dosageTail, splitDosageLine.
  rewrite indexOf_noPeriod
    by (rewrite noPeriod_app, Ha; reflexivity).
  cbn [indexOf]. rewrite N.eqb_refl.
  cbn [Sec.dosageLineUserContent Sec.empty].
  unfold substringFrom.
  replace (List.length (takePrefix ++ a) + 0 + 1)
    with (List.length (takePrefix ++ a) + 1) by lia.
  replace ((takePrefix ++ a) ++ period :: r ++ [period])
    with (((takePrefix ++ a) ++ [period]) ++ r ++ [period])
    by (rewrite <- !app_assoc; reflexivity).
  rewrite skipn_app.
  replace (List.length (takePrefix ++ a) + 1
           - List.length ((takePrefix ++ a) ++ [period])) with 0
    by (rewrite (length_app (takePrefix ++ a) [period]); cbn [List.length]; lia).
  rewrite skipn_all2
    by (rewrite (length_app (takePrefix ++ a) [period]); cbn [List.length]; lia).
  cbn [skipn app].
  rewrite (trimStart_keeps_last r period eq_refl).
  apply trimStart_keeps_last. reflexivity.
Qed.

(** X28.  A dosage with a period in it, a decimal point for one, makes
    the generated text unstable.  The parser ends the dosage line at its
    first period and takes the rest of the line for user text, so that
    generating again, with the same form and from the text just
    generated, writes the rest of the dosage line a second time after the
    dosage line. *)
Theorem decimal_dosage_repeats (lk : lookups) (f : MedicationForm)
  (cl st : component) :
  singleLines f = true ->
  complete f = true ->
  noPeriod (Form.dosage f) = false ->
  ready cl = true ->
  Display.english (instructionDisplay cl) = firstText f ->
  let tail := dosageTail (newDosageLine f) in
  let P := beforeComma (Form.name f) ++ nl ++ newDosageLine f in
  let Q :=
    generatedSuffix (newTimeOfDay f) (newPrecautionsHeader f)
      (newPrecautionsList f) in
  nonEmpty tail = true
  /\ firstText f = P ++ Q
  /\ Display.english (instructionDisplay (generateInstruction lk f cl st))
     = P ++ space ++ tail ++ Q.
Proof.
  intros Hs Hc Hp Hr Hd tail P Q.
  destruct (generated_conditions f Hs) as (Hn & HD & Hi & Ht & Hpr).
  pose proof (dosageTail_decimal f Hp) as Htail. fold tail in Htail.
  split; [exact Htail|].
  assert (E1 : firstText f = P ++ Q).
  { unfold firstText, updatedStructure, emptyStructure.
    cbn [sections userContent Sec.dosageLineUserContent Sec.empty UC.empty].
    rewrite (reconstruct_generated _ _ [] _ _ _ _ Hn HD eq_refl Ht Hpr).
    subst P Q. cbn [nonEmpty app]. rewrite <- !app_assoc. reflexivity. }
  split; [exact E1|].
  unfold complete in Hc.
  apply andb_prop in Hc. destruct Hc as [Hc Hf].
  apply andb_prop in Hc. destruct Hc as [Hna Hdo].
  rewrite (generateInstruction_display lk f cl st Hna Hdo Hf (ready_spec cl Hr)).
  rewrite Hd. unfold firstText at 1, updatedStructure at 2, emptyStructure.
  cbn [sections userContent Sec.dosageLineUserContent Sec.empty UC.empty].
  rewrite (parse_generated _ _ _ _ _ _ Hn HD Hi Ht Hpr).
  unfold updatedStructure.
  cbn [sections userContent Sec.dosageLineUserContent].
  fold tail.
  rewrite (reconstruct_generated _ _ tail _ _ _ _ Hn HD);
    [| rewrite Htail; subst tail; apply dosageTail_noNewline;
       destruct (sectionLine_facts _ HD) as (_ & _ & E); exact E
     | exact Ht | exact Hpr].
  rewrite Htail. subst P Q. rewrite <- !app_assoc. reflexivity.
Qed.

Lemma decimal_dosage_repeats_witness :
  nonEmpty (dosageTail (newDosageLine syrupForm)) = true.
Proof.
  apply (decimal_dosage_repeats sampleLookups syrupForm
           (noLanguage (firstText syrupForm))
           (noLanguage (firstText syrupForm)));
    vm_compute; reflexivity.
Defined.

(** * Edits of the English text and the translated pane *)

(** X29.  A line the user typed into the English text after the dosage
    line is carried over to the translated pane as it is: when the
    displayed translation has a dosage line and a time line, the
    translation shown after the edit has that line, untranslated, as a
    line of its own between the translated dosage line and the translated
    time line, and the English pane shows the text as typed. *)
Theorem sync_carries_user_line (newContent : jsstring) (cl st : component)
  (pre mid rest : list jsstring) (d U : jsstring) :
  split newContent = pre ++ d :: mid ++ U :: rest ->
  existsb (fun l => nonEmpty (trim l)) pre = true ->
  startsWith infoGlyph (trim d) = true ->
  forallb plainLine mid = true ->
  plainLine U = true ->
  nonEmpty U = true ->
  let t :=
    sections
      (parseInstructionContent (Display.translated (instructionDisplay cl))) in
  nonEmpty (Sec.dosageLine t) = true ->
  nonEmpty (Sec.timeOfDay t) = true ->
  let r := handleInstructionChange englishPane newContent cl st in
  let inline :=
    Sec.dosageLineUserContent (sections (parseInstructionContent newContent)) in
  Display.english (instructionDisplay r) = newContent
  /\ exists P A B Q,
       Display.translated (instructionDisplay r)
       = P ++ Sec.dosageLine t
           ++ (if nonEmpty inline then space ++ inline else [])
           ++ nl ++ A ++ U ++ nl ++ B ++ Sec.timeOfDay t ++ Q
       /\ lineStart A /\ lineStart B.
Proof.
  intros Hsplit Hpre Hdl Hmid HU HUn t Htd Htt r inline.
  set (e := parseInstructionContent newContent) in *.
  assert (Hold : holdsLine U (UC.afterDosage (userContent e))).
  { unfold e, parseInstructionContent. cbn [userContent].
    rewrite Hsplit. apply parse_user_line_afterDosage; assumption. }
  assert (HUnl : noNewline U = true).
  { apply (split_lines_noNewline newContent).
    rewrite Hsplit. apply in_or_app. right. right.
    apply in_or_app. right. left. reflexivity. }
  destruct (emitSlot_holdsLine U _ Hold HUn HUnl) as (A & B & HE & HA & HB).
  split; [reflexivity|].
  subst r. unfold handleInstructionChange, syncToTranslatedInstructions.
  cbn [setInstructionDisplay setInstructionStructure instructionDisplay
       Display.translated].
  fold e. fold t.
  match goal with
  | |- context [orElse (reconstructInstructionContent ?x) placeholder] =>
      set (x' := x)
  end.
  assert (HT : exists P Q,
             reconstructInstructionContent x'
             = P ++ Sec.dosageLine t
                 ++ (if nonEmpty inline then space ++ inline else [])
                 ++ nl ++ A ++ U ++ nl ++ B ++ Sec.timeOfDay t ++ Q).
  { rewrite reconstruct_normal. unfold headContent. cbv zeta. subst x'.
    cbn [sections userContent Sec.medicationName Sec.dosageLine
         Sec.dosageLineUserContent Sec.timeOfDay UC.beforeMedication
         UC.afterMedication UC.afterDosage UC.afterTimeOfDay].
    rewrite Htd, Htt. rewrite !orb_true_r, HE.
    exists (emitSlot (UC.beforeMedication (userContent e))
              (nonEmpty (Sec.medicationName t)) []
            ++ Sec.medicationName t
            ++ (if nonEmpty (Sec.medicationName t) then nl else [])
            ++ emitSlot (UC.afterMedication (userContent e)) true []).
    eexists. rewrite <- !app_assoc. reflexivity. }
  destruct HT as (P & Q & HT). exists P, A, B, Q.
  split; [|split; assumption].
  rewrite <- HT. unfold orElse.
  assert (Hne : nonEmpty (reconstructInstructionContent x') = true).
  { rewrite HT. apply nonEmpty_app_r, nonEmpty_app_l, Htd. }
  rewrite Hne. reflexivity.
Qed.

Lemma sync_carries_user_line_witness :
  Display.english
    (instructionDisplay
       (handleInstructionChange englishPane sampleText translatedComponent
          translatedComponent))
  = sampleText.
Proof.
  apply (sync_carries_user_line sampleText translatedComponent
           translatedComponent [lit "Aspirin"] [] (skipn 3 (split sampleText))
           (lit "ℹ️ Take 1 tablet daily. with water") (lit "after breakfast"));
    vm_compute; reflexivity.
Defined.
